(** * Slingshot Flyer: the flight simulation, the upgrade shop and the progress store

    A shallow embedding of [src/config/constants.ts] (the game proper) and
    [src/config/upgradeData.ts] (the upgrade catalogue), and the properties of
    the specification proved or refuted over it.

    Conventions of the embedding.
    - A JavaScript [number] that holds a physical quantity is a real number
      ([R]); rounding of IEEE doubles is not modelled there.  Coin amounts
      and costs are integers ([Z]), and the sums and differences of coins
      are rounded as binary64 rounds them ([round64]: 53 significant bits,
      to nearest, ties to even), so that a small amount is lost on a large
      balance as it is in the game; the exponent range is not bounded, for
      coins as for physical quantities.  Upgrade tiers are naturals.
    - The module-level variables of the game are the fields of one record,
      [Game], threaded through a state-and-exception monad: a JavaScript
      exception leaves the globals as they were when it was raised.
    - [Math.random()] is an argument of the function that draws it.
    - Three.js geometry is outside the model: the bounding box of the plane
      is a parameter ([planeBounds]); obstacles carry their box.
    - DOM writes are kept only where they report a settlement (the crash
      overlay), as entries of a log, next to the [localStorage] writes.
      What the HUD, the upgrade menu and the plane's meshes show is a
      function of the globals ([updateHUD], [renderUpgradeMenu],
      [updatePlaneVisuals]); the calls that place the obstacles are a list
      ([createObstacles]).
    - The first version of the game, [src/unnamed/part_000], is embedded
      over the same globals in the module [Simplified]. *)

From Stdlib Require Import Reals Lra ZArith Lia List String Bool DecimalString.
From Stdlib Require SpecFloat.
Import ListNotations.

Set Warnings "-register-all".

Open Scope string_scope.
Open Scope R_scope.

(** ** Numbers *)

Definition Rltb (x y : R) : bool := if Rlt_dec x y then true else false.
Definition Rleb (x y : R) : bool := if Rle_dec x y then true else false.
Definition Reqb (x y : R) : bool := if Req_dec_T x y then true else false.

Infix "<?" := Rltb (at level 70, no associativity) : R_scope.
Infix "<=?" := Rleb (at level 70, no associativity) : R_scope.
Infix "=?" := Reqb (at level 70, no associativity) : R_scope.

(** [Math.floor], [Math.max], [Math.min], [Math.abs]. *)
Definition Math_floor (x : R) : Z := Int_part x.
Definition Math_max : R -> R -> R := Rmax.
Definition Math_min : R -> R -> R := Rmin.
Definition Math_abs : R -> R := Rabs.

(** ** Coins in binary64 *)

(** [coins], [coinsEarned] and the costs are JavaScript numbers that hold
    integers.  A double holds every integer up to 2^53 and, beyond, the
    multiples of the unit in the last place of their magnitude. *)
Definition ulp (a : Z) : Z := (2 ^ Z.max 0 (Z.log2 a - 52))%Z.

(** The multiple of [u] nearest to [a], the one with the even quotient when
    [a] is half way between two. *)
Definition nearestEven (u a : Z) : Z :=
  let q := (a / u)%Z in
  let r := (a mod u)%Z in
  if (2 * r <? u)%Z then (q * u)%Z
  else if (u <? 2 * r)%Z then ((q + 1) * u)%Z
  else if Z.even q then (q * u)%Z else ((q + 1) * u)%Z.

(** The double that [+] and [-] return for the exact integer result [z]:
    round to nearest, ties to even, on 53 significant bits. *)
Definition round64 (z : Z) : Z :=
  (Z.sgn z * nearestEven (ulp (Z.abs z)) (Z.abs z))%Z.

(** An integer that a double holds. *)
Definition binary64 (z : Z) : Prop := round64 z = z.
Arguments round64 : simpl never.

(** The same sum and difference by the Standard Library's specification of
    IEEE 754 arithmetic ([SpecFloat]), at the precision 53 and the exponent
    bound 1024 of binary64, to compare [round64] with; [None] for a result
    that is not a finite integer. *)
Definition toBinary64 (z : Z) : SpecFloat.spec_float :=
  SpecFloat.binary_normalize 53 1024 z 0 false.

Definition ofBinary64 (f : SpecFloat.spec_float) : option Z :=
  match f with
  | SpecFloat.S754_zero _ => Some 0%Z
  | SpecFloat.S754_finite s m e =>
      let sign := if s then (-1)%Z else 1%Z in
      if (0 <=? e)%Z then Some (sign * Z.pos m * 2 ^ e)%Z
      else if (Z.pos m mod 2 ^ (- e) =? 0)%Z
           then Some (sign * (Z.pos m / 2 ^ (- e)))%Z
           else None
  | _ => None
  end.

Definition plus64 (a b : Z) : option Z :=
  ofBinary64 (SpecFloat.SFadd 53 1024 (toBinary64 a) (toBinary64 b)).

Definition minus64 (a b : Z) : option Z :=
  ofBinary64 (SpecFloat.SFsub 53 1024 (toBinary64 a) (toBinary64 b)).

(** ** THREE.Vector2, THREE.Vector3, THREE.Box3 *)

Record Vector2 := vec2 { x2 : R; y2 : R }.

Record Vector3 := vec3 { vx : R; vy : R; vz : R }.

Definition set_x (a : R) (v : Vector3) : Vector3 := vec3 a (vy v) (vz v).
Definition set_y (a : R) (v : Vector3) : Vector3 := vec3 (vx v) a (vz v).
Definition set_z (a : R) (v : Vector3) : Vector3 := vec3 (vx v) (vy v) a.

(** [v.add(w)], [v.multiplyScalar(s)], [v.length()]. *)
Definition add (v w : Vector3) : Vector3 :=
  vec3 (vx v + vx w) (vy v + vy w) (vz v + vz w).
Definition multiplyScalar (v : Vector3) (s : R) : Vector3 :=
  vec3 (vx v * s) (vy v * s) (vz v * s).
Definition length (v : Vector3) : R :=
  sqrt (vx v * vx v + vy v * vy v + vz v * vz v).
(** [v.normalize()] is [v.divideScalar(v.length() || 1)]. *)
Definition normalize (v : Vector3) : Vector3 :=
  multiplyScalar v (/ (if length v =? 0 then 1 else length v)).

Record Box3 := box3 { bmin : Vector3; bmax : Vector3 }.

(** [a.intersectsBox(b)]: the six comparisons of three.js, on the three axes. *)
Definition intersectsBox (a b : Box3) : bool :=
  negb ((vx (bmax b) <? vx (bmin a)) || (vx (bmax a) <? vx (bmin b)) ||
        (vy (bmax b) <? vy (bmin a)) || (vy (bmax a) <? vy (bmin b)) ||
        (vz (bmax b) <? vz (bmin a)) || (vz (bmax a) <? vz (bmin b))).

(** ** constants.ts *)

Definition GRAVITY : R := -20.
Definition BASE_DRAG : R := 0.02.
Definition GROUND_FRICTION : R := 0.05.
Definition BOUNCE_DAMPING : R := 0.6.
Definition TUMBLE_SLOWDOWN : R := 0.98.

Definition MIN_PULL_DISTANCE : R := 0.5.
Definition MAX_PULL_DISTANCE : R := 10.
Definition LAUNCH_POWER_MULTIPLIER : R := 8.

Definition PLANE_WIDTH : R := 1.
Definition PLANE_HEIGHT : R := 0.3.
Definition PLANE_LENGTH : R := 2.

Inductive Zone := runway | city | desert | forest.

Record ZoneDef := { zone_start : R; zone_end : R }.

Definition ZONES (z : Zone) : ZoneDef :=
  match z with
  | runway => {| zone_start := 0; zone_end := 100 |}
  | city => {| zone_start := 100; zone_end := 1000 |}
  | desert => {| zone_start := 1000; zone_end := 3000 |}
  | forest => {| zone_start := 3000; zone_end := 6000 |}
  end.

Inductive GameState := ready | pulling | flying | crashed.

Definition GameState_eqb (a b : GameState) : bool :=
  match a, b with
  | ready, ready | pulling, pulling | flying, flying | crashed, crashed => true
  | _, _ => false
  end.

(** ** upgradeData.ts *)

(** An [UpgradeTier] is [{ cost, [key]: number }]: a cost and named effects. *)
Record UpgradeTier := tier { cost : Z; effects : list (string * R) }.
Arguments tier cost%_Z effects.

Inductive UpgradeKey := wings | wheels | tail | aerodynamic | slingshot | boosters.

Definition UpgradeKey_eqb (a b : UpgradeKey) : bool :=
  match a, b with
  | wings, wings | wheels, wheels | tail, tail | aerodynamic, aerodynamic
  | slingshot, slingshot | boosters, boosters => true
  | _, _ => false
  end.

Record UpgradeDefinition := {
  name : string;
  maxTier : nat;
  tiers : list UpgradeTier;
  requires : option UpgradeKey
}.

Fixpoint lookup {A : Type} (k : string) (l : list (string * A)) : option A :=
  match l with
  | [] => None
  | (k', v) :: l' => if String.eqb k k' then Some v else lookup k l'
  end.

(** [t.key] for an effect of a tier.  Every access of the game names an effect
    its table has ([UPGRADES_effects_present] below), so the value read for an
    absent key (JavaScript's [undefined]) never matters. *)
Definition effect (k : string) (t : UpgradeTier) : R :=
  match lookup k (effects t) with Some v => v | None => 0 end.

Definition UPGRADES (k : UpgradeKey) : UpgradeDefinition :=
  match k with
  | wings =>
      {| name := "Wings"; maxTier := 10; requires := None;
         tiers := [
           tier 100 [("lift", 0.1); ("control", 0.1)];
           tier 250 [("lift", 0.15); ("control", 0.15)];
           tier 500 [("lift", 0.2); ("control", 0.2)];
           tier 800 [("lift", 0.25); ("control", 0.25)];
           tier 1200 [("lift", 0.3); ("control", 0.3)];
           tier 1800 [("lift", 0.35); ("control", 0.35)];
           tier 2500 [("lift", 0.4); ("control", 0.4)];
           tier 3500 [("lift", 0.45); ("control", 0.45)];
           tier 5000 [("lift", 0.5); ("control", 0.5)];
           tier 7500 [("lift", 0.6); ("control", 0.6)] ] |}
  | wheels =>
      {| name := "Wheels"; maxTier := 10; requires := Some wings;
         tiers := [
           tier 150 [("friction", 0.9)];
           tier 350 [("friction", 0.85)];
           tier 600 [("friction", 0.8)];
           tier 900 [("friction", 0.75)];
           tier 1300 [("friction", 0.7)];
           tier 1900 [("friction", 0.65)];
           tier 2700 [("friction", 0.6)];
           tier 3800 [("friction", 0.55)];
           tier 5200 [("friction", 0.5)];
           tier 7000 [("friction", 0.45)] ] |}
  | tail =>
      {| name := "Tail"; maxTier := 10; requires := Some wings;
         tiers := [
           tier 200 [("stability", 0.1); ("pitch", 0.1)];
           tier 400 [("stability", 0.15); ("pitch", 0.15)];
           tier 700 [("stability", 0.2); ("pitch", 0.2)];
           tier 1100 [("stability", 0.25); ("pitch", 0.25)];
           tier 1600 [("stability", 0.3); ("pitch", 0.3)];
           tier 2200 [("stability", 0.35); ("pitch", 0.35)];
           tier 3000 [("stability", 0.4); ("pitch", 0.4)];
           tier 4000 [("stability", 0.45); ("pitch", 0.45)];
           tier 5500 [("stability", 0.5); ("pitch", 0.5)];
           tier 7500 [("stability", 0.6); ("pitch", 0.6)] ] |}
  | aerodynamic =>
      {| name := "Aerodynamic"; maxTier := 10; requires := Some wings;
         tiers := [
           tier 100 [("dragReduction", 0.05)];
           tier 200 [("dragReduction", 0.1)];
           tier 400 [("dragReduction", 0.15)];
           tier 700 [("dragReduction", 0.2)];
           tier 1100 [("dragReduction", 0.25)];
           tier 1600 [("dragReduction", 0.3)];
           tier 2200 [("dragReduction", 0.35)];
           tier 3000 [("dragReduction", 0.4)];
           tier 4000 [("dragReduction", 0.45)];
           tier 5500 [("dragReduction", 0.5)] ] |}
  | slingshot =>
      {| name := "Slingshot"; maxTier := 10; requires := None;
         tiers := [
           tier 50 [("power", 1.1)];
           tier 120 [("power", 1.2)];
           tier 250 [("power", 1.35)];
           tier 450 [("power", 1.5)];
           tier 750 [("power", 1.7)];
           tier 1100 [("power", 1.9)];
           tier 1600 [("power", 2.1)];
           tier 2300 [("power", 2.4)];
           tier 3200 [("power", 2.7)];
           tier 4500 [("power", 3.0)] ] |}
  | boosters =>
      {| name := "Boosters"; maxTier := 10; requires := Some wings;
         tiers := [
           tier 300 [("uses", 1); ("boost", 15)];
           tier 600 [("uses", 2); ("boost", 18)];
           tier 1000 [("uses", 3); ("boost", 21)];
           tier 1500 [("uses", 4); ("boost", 24)];
           tier 2200 [("uses", 5); ("boost", 27)];
           tier 3000 [("uses", 6); ("boost", 30)];
           tier 4000 [("uses", 7); ("boost", 33)];
           tier 5200 [("uses", 8); ("boost", 36)];
           tier 6800 [("uses", 9); ("boost", 39)];
           tier 9000 [("uses", 10); ("boost", 45)] ] |}
  end.

(** The string a key is spelled with in the saved blob. *)
Definition keyName (k : UpgradeKey) : string :=
  match k with
  | wings => "wings" | wheels => "wheels" | tail => "tail"
  | aerodynamic => "aerodynamic" | slingshot => "slingshot"
  | boosters => "boosters"
  end.

Definition zoneName (z : Zone) : string :=
  match z with
  | runway => "runway" | city => "city" | desert => "desert"
  | forest => "forest"
  end.

Definition allKeys : list UpgradeKey :=
  [wings; wheels; tail; aerodynamic; slingshot; boosters].

Definition allZones : list Zone := [runway; city; desert; forest].

(** ** JavaScript values and the stored blob *)

(** A value as [JSON.parse] returns it, and [undefined] for a property that
    is not there.  The fields of [JObj] are the own properties; the first
    binding of a key is the property's value. *)
Inductive jsval :=
| JUndefined
| JNull
| JBool (b : bool)
| JNum (x : R)
| JStr (s : string)
| JArr (items : list jsval)
| JObj (fields : list (string * jsval)).

(** What [localStorage] holds under the key "slingshotFlyer": a string that
    [JSON.parse] rejects with a SyntaxError ([NotJSON], the empty string
    among them), or the JSON text of a value. *)
Inductive Blob :=
| NotJSON (text : string)
| JSON (v : jsval).

Inductive Exn := TypeError | SyntaxError.

Inductive Outcome (A : Type) :=
| Returned (a : A)
| Thrown (e : Exn).
Arguments Returned {A} a.
Arguments Thrown {A} e.

(** ToBoolean, for [if (v)] and [v || w]. *)
Definition truthy (v : jsval) : bool :=
  match v with
  | JUndefined | JNull => false
  | JBool b => b
  | JNum x => negb (x =? 0)
  | JStr s => negb (String.eqb s EmptyString)
  | JArr _ | JObj _ => true
  end.

(** [if (saved)] for the result of [localStorage.getItem]: [null] and the
    empty string are falsy. *)
Definition truthyItem (saved : option Blob) : bool :=
  match saved with
  | None => false
  | Some (NotJSON s) => negb (String.eqb s EmptyString)
  | Some (JSON _) => true
  end.

Definition JSON_parse (b : Blob) : Outcome jsval :=
  match b with
  | NotJSON _ => Thrown SyntaxError
  | JSON v => Returned v
  end.

(** [data.k] for one of the keys the game reads ([coins], [upgrades],
    [checkpoints], [highestDistance]): a TypeError on [null] and [undefined],
    the own property of an object, [undefined] on anything else (none of the
    four is a property of a number, a string, a boolean or an array). *)
Definition getProp (k : string) (data : jsval) : Outcome jsval :=
  match data with
  | JUndefined | JNull => Thrown TypeError
  | JObj fs => Returned (match lookup k fs with Some v => v | None => JUndefined end)
  | _ => Returned JUndefined
  end.

(** [a || b]. *)
Definition orElse (a b : jsval) : jsval := if truthy a then a else b.

(** [o[k] = v] on an object kept as its list of own properties. *)
Fixpoint setProp (k : string) (v : jsval) (o : list (string * jsval))
  : list (string * jsval) :=
  match o with
  | [] => [(k, v)]
  | (k', v') :: o' =>
      if String.eqb k k' then (k, v) :: o' else (k', v') :: setProp k v o'
  end.

Definition indexName (i : nat) : string :=
  DecimalString.NilZero.string_of_uint (Nat.to_uint i).

Fixpoint indexed {A : Type} (i : nat) (l : list A) : list (string * A) :=
  match l with
  | [] => []
  | a :: l' => (indexName i, a) :: indexed (S i) l'
  end.

Fixpoint chars (s : string) : list jsval :=
  match s with
  | EmptyString => []
  | String c s' => JStr (String c EmptyString) :: chars s'
  end.

(** The own enumerable properties [Object.assign] copies from a source:
    the fields of an object, the elements of an array and the characters of
    a string under their indices, nothing for a number or a boolean. *)
Definition ownEntries (source : jsval) : list (string * jsval) :=
  match source with
  | JObj fs => fs
  | JArr l => indexed 0 l
  | JStr s => indexed 0 (chars s)
  | _ => []
  end.

Definition Object_assign (target : list (string * jsval)) (source : jsval)
  : list (string * jsval) :=
  fold_left (fun o kv => setProp (fst kv) (snd kv) o) (ownEntries source) target.

(** ToNumber of a stored value, for [Math.max(distance, saved)]; [None] is
    NaN.  Strings, arrays and objects go through ToPrimitive and the numeric
    string grammar in JavaScript; that conversion is not modelled and reads
    as NaN here.  No statement below is about such a blob. *)
Definition toNumber (v : jsval) : option R :=
  match v with
  | JUndefined => None
  | JNull => Some 0
  | JBool b => Some (if b then 1 else 0)
  | JNum x => Some x
  | JStr _ | JArr _ | JObj _ => None
  end.

(** A number as [JSON.stringify] writes it and [JSON.parse] reads it back:
    NaN becomes [null]. *)
Definition ofNumber (x : option R) : jsval :=
  match x with Some r => JNum r | None => JNull end.

(** ** The state of the game *)

(** What the player is shown or what is stored, in the order it happened
    (most recent first). *)
Inductive Effect :=
| SetItem (b : Blob)                          (* localStorage.setItem *)
| ConsoleLog (msg : string)                   (* console.log *)
| CrashOverlay (meters : Z) (coinsEarned : Z) (* crash(): the overlay's texts *)
| VictoryOverlay (coinsEarned : Z).           (* victory(): "VICTORY!" *)

Record Obstacle := {
  mesh_position : Vector3;
  boundingBox : Box3;     (* the world box of the mesh, as setFromObject gives it *)
  type : string
}.

Record Keys := {
  k_left : bool; k_right : bool; k_up : bool; k_down : bool; k_boost : bool
}.

Record Game := mkGame {
  gameState : GameState;
  coins : Z;
  distance : R;
  boosterUsesRemaining : R;
  upgrades : UpgradeKey -> nat;
  checkpoints : Zone -> bool;
  currentCheckpoint : Zone;
  highestDistanceThisRun : R;
  startingZ : R;
  keys : Keys;
  plane_position : Vector3;
  plane_rotation : Vector3;
  boosterActive : bool;
  boosterTimer : R;
  obstacles : list Obstacle;
  velocity : Vector3;
  angularVelocity : Vector3;
  isDragging : bool;
  pullDistance : R;
  launchAngle : R;
  pullStart : Vector2;
  pullCurrent : Vector2;
  slingshotPosition : Vector3;
  lastTime : R;
  localStorage : option Blob;
  log : list Effect
}.

(** Assignments to the globals: [set_f v g] is [g] after [f = v]. *)
Definition set_gameState (v : GameState) (g : Game) : Game :=
  mkGame v (coins g) (distance g) (boosterUsesRemaining g) (upgrades g)
    (checkpoints g) (currentCheckpoint g) (highestDistanceThisRun g)
    (startingZ g) (keys g) (plane_position g) (plane_rotation g)
    (boosterActive g) (boosterTimer g) (obstacles g) (velocity g)
    (angularVelocity g) (isDragging g) (pullDistance g) (launchAngle g)
    (pullStart g) (pullCurrent g) (slingshotPosition g) (lastTime g)
    (localStorage g) (log g).
Definition set_coins (v : Z) (g : Game) : Game :=
  mkGame (gameState g) v (distance g) (boosterUsesRemaining g) (upgrades g)
    (checkpoints g) (currentCheckpoint g) (highestDistanceThisRun g)
    (startingZ g) (keys g) (plane_position g) (plane_rotation g)
    (boosterActive g) (boosterTimer g) (obstacles g) (velocity g)
    (angularVelocity g) (isDragging g) (pullDistance g) (launchAngle g)
    (pullStart g) (pullCurrent g) (slingshotPosition g) (lastTime g)
    (localStorage g) (log g).
Definition set_distance (v : R) (g : Game) : Game :=
  mkGame (gameState g) (coins g) v (boosterUsesRemaining g) (upgrades g)
    (checkpoints g) (currentCheckpoint g) (highestDistanceThisRun g)
    (startingZ g) (keys g) (plane_position g) (plane_rotation g)
    (boosterActive g) (boosterTimer g) (obstacles g) (velocity g)
    (angularVelocity g) (isDragging g) (pullDistance g) (launchAngle g)
    (pullStart g) (pullCurrent g) (slingshotPosition g) (lastTime g)
    (localStorage g) (log g).
Definition set_boosterUsesRemaining (v : R) (g : Game) : Game :=
  mkGame (gameState g) (coins g) (distance g) v (upgrades g) (checkpoints g)
    (currentCheckpoint g) (highestDistanceThisRun g) (startingZ g) (keys g)
    (plane_position g) (plane_rotation g) (boosterActive g) (boosterTimer g)
    (obstacles g) (velocity g) (angularVelocity g) (isDragging g)
    (pullDistance g) (launchAngle g) (pullStart g) (pullCurrent g)
    (slingshotPosition g) (lastTime g) (localStorage g) (log g).
Definition set_upgrades (v : UpgradeKey -> nat) (g : Game) : Game :=
  mkGame (gameState g) (coins g) (distance g) (boosterUsesRemaining g) v
    (checkpoints g) (currentCheckpoint g) (highestDistanceThisRun g)
    (startingZ g) (keys g) (plane_position g) (plane_rotation g)
    (boosterActive g) (boosterTimer g) (obstacles g) (velocity g)
    (angularVelocity g) (isDragging g) (pullDistance g) (launchAngle g)
    (pullStart g) (pullCurrent g) (slingshotPosition g) (lastTime g)
    (localStorage g) (log g).
Definition set_checkpoints (v : Zone -> bool) (g : Game) : Game :=
  mkGame (gameState g) (coins g) (distance g) (boosterUsesRemaining g)
    (upgrades g) v (currentCheckpoint g) (highestDistanceThisRun g)
    (startingZ g) (keys g) (plane_position g) (plane_rotation g)
    (boosterActive g) (boosterTimer g) (obstacles g) (velocity g)
    (angularVelocity g) (isDragging g) (pullDistance g) (launchAngle g)
    (pullStart g) (pullCurrent g) (slingshotPosition g) (lastTime g)
    (localStorage g) (log g).
Definition set_currentCheckpoint (v : Zone) (g : Game) : Game :=
  mkGame (gameState g) (coins g) (distance g) (boosterUsesRemaining g)
    (upgrades g) (checkpoints g) v (highestDistanceThisRun g) (startingZ g)
    (keys g) (plane_position g) (plane_rotation g) (boosterActive g)
    (boosterTimer g) (obstacles g) (velocity g) (angularVelocity g)
    (isDragging g) (pullDistance g) (launchAngle g) (pullStart g)
    (pullCurrent g) (slingshotPosition g) (lastTime g) (localStorage g) (log
    g).
Definition set_highestDistanceThisRun (v : R) (g : Game) : Game :=
  mkGame (gameState g) (coins g) (distance g) (boosterUsesRemaining g)
    (upgrades g) (checkpoints g) (currentCheckpoint g) v (startingZ g) (keys
    g) (plane_position g) (plane_rotation g) (boosterActive g) (boosterTimer
    g) (obstacles g) (velocity g) (angularVelocity g) (isDragging g)
    (pullDistance g) (launchAngle g) (pullStart g) (pullCurrent g)
    (slingshotPosition g) (lastTime g) (localStorage g) (log g).
Definition set_startingZ (v : R) (g : Game) : Game :=
  mkGame (gameState g) (coins g) (distance g) (boosterUsesRemaining g)
    (upgrades g) (checkpoints g) (currentCheckpoint g)
    (highestDistanceThisRun g) v (keys g) (plane_position g) (plane_rotation
    g) (boosterActive g) (boosterTimer g) (obstacles g) (velocity g)
    (angularVelocity g) (isDragging g) (pullDistance g) (launchAngle g)
    (pullStart g) (pullCurrent g) (slingshotPosition g) (lastTime g)
    (localStorage g) (log g).
Definition set_keys (v : Keys) (g : Game) : Game :=
  mkGame (gameState g) (coins g) (distance g) (boosterUsesRemaining g)
    (upgrades g) (checkpoints g) (currentCheckpoint g)
    (highestDistanceThisRun g) (startingZ g) v (plane_position g)
    (plane_rotation g) (boosterActive g) (boosterTimer g) (obstacles g)
    (velocity g) (angularVelocity g) (isDragging g) (pullDistance g)
    (launchAngle g) (pullStart g) (pullCurrent g) (slingshotPosition g)
    (lastTime g) (localStorage g) (log g).
Definition set_plane_position (v : Vector3) (g : Game) : Game :=
  mkGame (gameState g) (coins g) (distance g) (boosterUsesRemaining g)
    (upgrades g) (checkpoints g) (currentCheckpoint g)
    (highestDistanceThisRun g) (startingZ g) (keys g) v (plane_rotation g)
    (boosterActive g) (boosterTimer g) (obstacles g) (velocity g)
    (angularVelocity g) (isDragging g) (pullDistance g) (launchAngle g)
    (pullStart g) (pullCurrent g) (slingshotPosition g) (lastTime g)
    (localStorage g) (log g).
Definition set_plane_rotation (v : Vector3) (g : Game) : Game :=
  mkGame (gameState g) (coins g) (distance g) (boosterUsesRemaining g)
    (upgrades g) (checkpoints g) (currentCheckpoint g)
    (highestDistanceThisRun g) (startingZ g) (keys g) (plane_position g) v
    (boosterActive g) (boosterTimer g) (obstacles g) (velocity g)
    (angularVelocity g) (isDragging g) (pullDistance g) (launchAngle g)
    (pullStart g) (pullCurrent g) (slingshotPosition g) (lastTime g)
    (localStorage g) (log g).
Definition set_boosterActive (v : bool) (g : Game) : Game :=
  mkGame (gameState g) (coins g) (distance g) (boosterUsesRemaining g)
    (upgrades g) (checkpoints g) (currentCheckpoint g)
    (highestDistanceThisRun g) (startingZ g) (keys g) (plane_position g)
    (plane_rotation g) v (boosterTimer g) (obstacles g) (velocity g)
    (angularVelocity g) (isDragging g) (pullDistance g) (launchAngle g)
    (pullStart g) (pullCurrent g) (slingshotPosition g) (lastTime g)
    (localStorage g) (log g).
Definition set_boosterTimer (v : R) (g : Game) : Game :=
  mkGame (gameState g) (coins g) (distance g) (boosterUsesRemaining g)
    (upgrades g) (checkpoints g) (currentCheckpoint g)
    (highestDistanceThisRun g) (startingZ g) (keys g) (plane_position g)
    (plane_rotation g) (boosterActive g) v (obstacles g) (velocity g)
    (angularVelocity g) (isDragging g) (pullDistance g) (launchAngle g)
    (pullStart g) (pullCurrent g) (slingshotPosition g) (lastTime g)
    (localStorage g) (log g).
Definition set_obstacles (v : list Obstacle) (g : Game) : Game :=
  mkGame (gameState g) (coins g) (distance g) (boosterUsesRemaining g)
    (upgrades g) (checkpoints g) (currentCheckpoint g)
    (highestDistanceThisRun g) (startingZ g) (keys g) (plane_position g)
    (plane_rotation g) (boosterActive g) (boosterTimer g) v (velocity g)
    (angularVelocity g) (isDragging g) (pullDistance g) (launchAngle g)
    (pullStart g) (pullCurrent g) (slingshotPosition g) (lastTime g)
    (localStorage g) (log g).
Definition set_velocity (v : Vector3) (g : Game) : Game :=
  mkGame (gameState g) (coins g) (distance g) (boosterUsesRemaining g)
    (upgrades g) (checkpoints g) (currentCheckpoint g)
    (highestDistanceThisRun g) (startingZ g) (keys g) (plane_position g)
    (plane_rotation g) (boosterActive g) (boosterTimer g) (obstacles g) v
    (angularVelocity g) (isDragging g) (pullDistance g) (launchAngle g)
    (pullStart g) (pullCurrent g) (slingshotPosition g) (lastTime g)
    (localStorage g) (log g).
Definition set_angularVelocity (v : Vector3) (g : Game) : Game :=
  mkGame (gameState g) (coins g) (distance g) (boosterUsesRemaining g)
    (upgrades g) (checkpoints g) (currentCheckpoint g)
    (highestDistanceThisRun g) (startingZ g) (keys g) (plane_position g)
    (plane_rotation g) (boosterActive g) (boosterTimer g) (obstacles g)
    (velocity g) v (isDragging g) (pullDistance g) (launchAngle g)
    (pullStart g) (pullCurrent g) (slingshotPosition g) (lastTime g)
    (localStorage g) (log g).
Definition set_isDragging (v : bool) (g : Game) : Game :=
  mkGame (gameState g) (coins g) (distance g) (boosterUsesRemaining g)
    (upgrades g) (checkpoints g) (currentCheckpoint g)
    (highestDistanceThisRun g) (startingZ g) (keys g) (plane_position g)
    (plane_rotation g) (boosterActive g) (boosterTimer g) (obstacles g)
    (velocity g) (angularVelocity g) v (pullDistance g) (launchAngle g)
    (pullStart g) (pullCurrent g) (slingshotPosition g) (lastTime g)
    (localStorage g) (log g).
Definition set_pullDistance (v : R) (g : Game) : Game :=
  mkGame (gameState g) (coins g) (distance g) (boosterUsesRemaining g)
    (upgrades g) (checkpoints g) (currentCheckpoint g)
    (highestDistanceThisRun g) (startingZ g) (keys g) (plane_position g)
    (plane_rotation g) (boosterActive g) (boosterTimer g) (obstacles g)
    (velocity g) (angularVelocity g) (isDragging g) v (launchAngle g)
    (pullStart g) (pullCurrent g) (slingshotPosition g) (lastTime g)
    (localStorage g) (log g).
Definition set_launchAngle (v : R) (g : Game) : Game :=
  mkGame (gameState g) (coins g) (distance g) (boosterUsesRemaining g)
    (upgrades g) (checkpoints g) (currentCheckpoint g)
    (highestDistanceThisRun g) (startingZ g) (keys g) (plane_position g)
    (plane_rotation g) (boosterActive g) (boosterTimer g) (obstacles g)
    (velocity g) (angularVelocity g) (isDragging g) (pullDistance g) v
    (pullStart g) (pullCurrent g) (slingshotPosition g) (lastTime g)
    (localStorage g) (log g).
Definition set_pullStart (v : Vector2) (g : Game) : Game :=
  mkGame (gameState g) (coins g) (distance g) (boosterUsesRemaining g)
    (upgrades g) (checkpoints g) (currentCheckpoint g)
    (highestDistanceThisRun g) (startingZ g) (keys g) (plane_position g)
    (plane_rotation g) (boosterActive g) (boosterTimer g) (obstacles g)
    (velocity g) (angularVelocity g) (isDragging g) (pullDistance g)
    (launchAngle g) v (pullCurrent g) (slingshotPosition g) (lastTime g)
    (localStorage g) (log g).
Definition set_pullCurrent (v : Vector2) (g : Game) : Game :=
  mkGame (gameState g) (coins g) (distance g) (boosterUsesRemaining g)
    (upgrades g) (checkpoints g) (currentCheckpoint g)
    (highestDistanceThisRun g) (startingZ g) (keys g) (plane_position g)
    (plane_rotation g) (boosterActive g) (boosterTimer g) (obstacles g)
    (velocity g) (angularVelocity g) (isDragging g) (pullDistance g)
    (launchAngle g) (pullStart g) v (slingshotPosition g) (lastTime g)
    (localStorage g) (log g).
Definition set_slingshotPosition (v : Vector3) (g : Game) : Game :=
  mkGame (gameState g) (coins g) (distance g) (boosterUsesRemaining g)
    (upgrades g) (checkpoints g) (currentCheckpoint g)
    (highestDistanceThisRun g) (startingZ g) (keys g) (plane_position g)
    (plane_rotation g) (boosterActive g) (boosterTimer g) (obstacles g)
    (velocity g) (angularVelocity g) (isDragging g) (pullDistance g)
    (launchAngle g) (pullStart g) (pullCurrent g) v (lastTime g)
    (localStorage g) (log g).
Definition set_lastTime (v : R) (g : Game) : Game :=
  mkGame (gameState g) (coins g) (distance g) (boosterUsesRemaining g)
    (upgrades g) (checkpoints g) (currentCheckpoint g)
    (highestDistanceThisRun g) (startingZ g) (keys g) (plane_position g)
    (plane_rotation g) (boosterActive g) (boosterTimer g) (obstacles g)
    (velocity g) (angularVelocity g) (isDragging g) (pullDistance g)
    (launchAngle g) (pullStart g) (pullCurrent g) (slingshotPosition g) v
    (localStorage g) (log g).
Definition set_localStorage (v : option Blob) (g : Game) : Game :=
  mkGame (gameState g) (coins g) (distance g) (boosterUsesRemaining g)
    (upgrades g) (checkpoints g) (currentCheckpoint g)
    (highestDistanceThisRun g) (startingZ g) (keys g) (plane_position g)
    (plane_rotation g) (boosterActive g) (boosterTimer g) (obstacles g)
    (velocity g) (angularVelocity g) (isDragging g) (pullDistance g)
    (launchAngle g) (pullStart g) (pullCurrent g) (slingshotPosition g)
    (lastTime g) v (log g).
Definition set_log (v : list Effect) (g : Game) : Game :=
  mkGame (gameState g) (coins g) (distance g) (boosterUsesRemaining g)
    (upgrades g) (checkpoints g) (currentCheckpoint g)
    (highestDistanceThisRun g) (startingZ g) (keys g) (plane_position g)
    (plane_rotation g) (boosterActive g) (boosterTimer g) (obstacles g)
    (velocity g) (angularVelocity g) (isDragging g) (pullDistance g)
    (launchAngle g) (pullStart g) (pullCurrent g) (slingshotPosition g)
    (lastTime g) (localStorage g) v.

(** ** State and exceptions *)

Definition M (A : Type) : Type := Game -> Outcome A * Game.

Definition ret {A : Type} (a : A) : M A := fun g => (Returned a, g).

Definition bind {A B : Type} (m : M A) (k : A -> M B) : M B :=
  fun g =>
    match m g with
    | (Returned a, g') => k a g'
    | (Thrown e, g') => (Thrown e, g')
    end.

Definition throw {A : Type} (e : Exn) : M A := fun g => (Thrown e, g).
Definition get : M Game := fun g => (Returned g, g).
Definition modify (f : Game -> Game) : M unit := fun g => (Returned tt, f g).
Definition emit (e : Effect) : M unit :=
  modify (fun g => set_log (e :: log g) g).

(** An expression that may throw, evaluated inside a function body. *)
Definition lift {A : Type} (o : Outcome A) : M A := fun g => (o, g).

Declare Scope monad_scope.
Delimit Scope monad_scope with monad.
Notation "x <- m ;; k" := (bind m (fun x => k))
  (at level 61, m at next level, right associativity) : monad_scope.
Notation "m ;; k" := (bind m (fun _ => k))
  (at level 61, right associativity) : monad_scope.
Open Scope monad_scope.

(** [if (c) { body }]. *)
Definition when (c : bool) (body : M unit) : M unit := if c then body else ret tt.

(** Read-modify-write of one global or of one component of a vector. *)
Definition over_velocity (f : Vector3 -> Vector3) (g : Game) : Game :=
  set_velocity (f (velocity g)) g.
Definition over_angularVelocity (f : Vector3 -> Vector3) (g : Game) : Game :=
  set_angularVelocity (f (angularVelocity g)) g.
Definition over_position (f : Vector3 -> Vector3) (g : Game) : Game :=
  set_plane_position (f (plane_position g)) g.
Definition over_rotation (f : Vector3 -> Vector3) (g : Game) : Game :=
  set_plane_rotation (f (plane_rotation g)) g.

Definition map_x (f : R -> R) (v : Vector3) : Vector3 := set_x (f (vx v)) v.
Definition map_y (f : R -> R) (v : Vector3) : Vector3 := set_y (f (vy v)) v.
Definition map_z (f : R -> R) (v : Vector3) : Vector3 := set_z (f (vz v)) v.

(** ** Progress store *)

(** [getSavedHighestDistance]: declared to return a number, it returns
    whatever [data.highestDistance || 0] is. *)
Definition getSavedHighestDistance : M jsval :=
  g <- get;;
  match localStorage g with
  | Some saved =>
      if truthyItem (Some saved) then
        data <- lift (JSON_parse saved);;
        h <- lift (getProp "highestDistance" data);;
        ret (orElse h (JNum 0))
      else ret (JNum 0)
  | None => ret (JNum 0)
  end.

(** [Math.max(distance, saved)]: NaN when [saved] does not convert. *)
Definition maxWithSaved (d : R) (saved : jsval) : option R :=
  match toNumber saved with
  | Some h => Some (Math_max d h)
  | None => None
  end.

(** The object [saveProgress] serialises. *)
Definition saveData (g : Game) (highestDistance : jsval) : jsval :=
  JObj [ ("coins", JNum (IZR (coins g)));
         ("highestDistance", highestDistance);
         ("upgrades",
           JObj (map (fun k => (keyName k, JNum (INR (upgrades g k)))) allKeys));
         ("checkpoints",
           JObj (map (fun z => (zoneName z, JBool (checkpoints g z))) allZones)) ].

(** [saveProgress].  The store is taken to have room: [setItem] does not
    throw. *)
Definition saveProgress : M unit :=
  g <- get;;
  saved <- getSavedHighestDistance;;
  let blob := JSON (saveData g (ofNumber (maxWithSaved (distance g) saved))) in
  modify (set_localStorage (Some blob));;
  emit (SetItem blob).

(** The three globals [loadProgress] writes, as the untyped values they are
    at run time: whatever the blob holds ends up in them. *)
Record PlayerProgress := {
  pp_coins : jsval;
  pp_upgrades : list (string * jsval);
  pp_checkpoints : list (string * jsval)
}.

(** The initial values of [coins], [upgrades] and [checkpoints]. *)
Definition defaultProgress : PlayerProgress :=
  {| pp_coins := JNum 0;
     pp_upgrades := map (fun k => (keyName k, JNum 0)) allKeys;
     pp_checkpoints :=
       [("runway", JBool true); ("city", JBool false);
        ("desert", JBool false); ("forest", JBool false)] |}.

(** [loadProgress], on the result of [localStorage.getItem] and the three
    globals.  Nothing is caught: an exception of [JSON.parse] or of the
    property access reaches the caller ([init]). *)
Definition loadProgress (saved : option Blob) (p : PlayerProgress)
  : Outcome unit * PlayerProgress :=
  match saved with
  | Some blob =>
      if truthyItem saved then
        match JSON_parse blob with
        | Thrown e => (Thrown e, p)
        | Returned data =>
            match getProp "coins" data with
            | Thrown e => (Thrown e, p)
            | Returned c =>
                let p1 := {| pp_coins := orElse c (JNum 0);
                             pp_upgrades := pp_upgrades p;
                             pp_checkpoints := pp_checkpoints p |} in
                match getProp "upgrades" data with
                | Thrown e => (Thrown e, p1)
                | Returned u =>
                    let p2 :=
                      if truthy u
                      then {| pp_coins := pp_coins p1;
                              pp_upgrades := Object_assign (pp_upgrades p1) u;
                              pp_checkpoints := pp_checkpoints p1 |}
                      else p1 in
                    match getProp "checkpoints" data with
                    | Thrown e => (Thrown e, p2)
                    | Returned c' =>
                        (Returned tt,
                         if truthy c'
                         then {| pp_coins := pp_coins p2;
                                 pp_upgrades := pp_upgrades p2;
                                 pp_checkpoints :=
                                   Object_assign (pp_checkpoints p2) c' |}
                         else p2)
                    end
                end
            end
        end
      else (Returned tt, p)
  | None => (Returned tt, p)
  end.

(** ** Checkpoints *)

Definition Zone_eqb (a b : Zone) : bool :=
  match a, b with
  | runway, runway | city, city | desert, desert | forest, forest => true
  | _, _ => false
  end.

(** [checkpoints.z = true]. *)
Definition unlock (z : Zone) (c : Zone -> bool) : Zone -> bool :=
  fun z' => if Zone_eqb z' z then true else c z'.

Definition selectCheckpoint (checkpoint : Zone) (g : Game) : Game :=
  if negb (checkpoints g checkpoint) then g
  else set_currentCheckpoint checkpoint g.

Definition getCheckpointStartPosition (g : Game) : R :=
  match currentCheckpoint g with
  | city => zone_start (ZONES city)
  | desert => zone_start (ZONES desert)
  | forest => zone_start (ZONES forest)
  | runway => 0
  end.

(** One of the three [if (absolutePosition >= ZONES.z.start && !checkpoints.z)]
    blocks, on the pair of the local [unlocked] and the globals. *)
Definition unlockAt (z : Zone) (absolutePosition : R) (s : bool * Game)
  : bool * Game :=
  if (zone_start (ZONES z) <=? absolutePosition) && negb (checkpoints (snd s) z)
  then (true, set_checkpoints (unlock z (checkpoints (snd s))) (snd s))
  else s.

Definition checkAndUnlockCheckpoints : M unit :=
  g <- get;;
  let absolutePosition := startingZ g + distance g in
  let s := unlockAt forest absolutePosition
             (unlockAt desert absolutePosition
                (unlockAt city absolutePosition (false, g))) in
  modify (fun _ => snd s);;
  when (fst s) saveProgress.

(** ** Settlement *)

(** [crash] and [victory]; [coins += coinsEarned] and
    [Math.floor(distance) + 10000] are sums of doubles. *)
Definition crash : M unit :=
  modify (set_gameState crashed);;
  g <- get;;
  let coinsEarned := Math_floor (distance g) in
  modify (set_coins (round64 (coins g + coinsEarned)));;
  saveProgress;;
  emit (CrashOverlay (Math_floor (distance g)) coinsEarned).

Definition victory : M unit :=
  modify (set_gameState crashed);;
  g <- get;;
  let coinsEarned := round64 (Math_floor (distance g) + 10000) in
  modify (set_coins (round64 (coins g + coinsEarned)));;
  saveProgress;;
  emit (VictoryOverlay coinsEarned).

Definition handleCollision (obstacle : Obstacle) : M unit :=
  emit (ConsoleLog ("Crashed into " ++ type obstacle ++ "!"));;
  crash.

(** ** Slingshot input and launch *)

Definition slingshotHeight : R := 3.
Definition slingshotWidth : R := 4.
Definition BOOSTER_DURATION : R := 0.5.

Definition resetPlanePosition (g : Game) : Game :=
  let g := set_plane_position
             (vec3 (vx (slingshotPosition g)) (slingshotHeight - 0.5)
                   (vz (slingshotPosition g))) g in
  set_pullDistance 0 g.

Definition resetGame (g : Game) : Game :=
  let g := set_gameState ready g in
  let g := set_distance 0 g in
  let g := set_highestDistanceThisRun 0 g in
  let g := set_startingZ 0 g in
  let startZ := getCheckpointStartPosition g in
  let g := set_slingshotPosition (set_z startZ (slingshotPosition g)) g in
  let g := set_startingZ startZ g in
  let g := resetPlanePosition g in
  let g := set_plane_rotation (vec3 0 0 0) g in
  let g := set_velocity (vec3 0 0 0) g in
  set_angularVelocity (vec3 0 0 0) g.

Definition onMouseDown (clientX clientY : R) (g : Game) : Game :=
  if negb (GameState_eqb (gameState g) ready) then g else
  let g := set_isDragging true g in
  let g := set_gameState pulling g in
  let g := set_pullStart (vec2 clientX clientY) g in
  set_pullCurrent (pullStart g) g.

Definition onMouseMove (clientX clientY : R) (g : Game) : Game :=
  if negb (isDragging g) || negb (GameState_eqb (gameState g) pulling) then g else
  let g := set_pullCurrent (vec2 clientX clientY) g in
  let deltaX := x2 (pullCurrent g) - x2 (pullStart g) in
  let deltaY := y2 (pullCurrent g) - y2 (pullStart g) in
  let totalDrag := sqrt (deltaX * deltaX + deltaY * deltaY) in
  let g := set_pullDistance
             (Math_min MAX_PULL_DISTANCE (Math_max 0 (totalDrag / 20))) g in
  let g :=
    if 10 <? totalDrag then
      let angleInfluence := Math_max (-1) (Math_min 1 (- deltaX / 200)) in
      set_launchAngle (0.5 + angleInfluence * 0.4) g
    else g in
  let startZ := getCheckpointStartPosition g in
  let g := over_position (set_z (startZ - pullDistance g * 1.2)) g in
  let g := over_position
             (set_y (slingshotHeight - pullDistance g * 0.15 + launchAngle g * 0.5)) g in
  over_rotation (set_x (- (launchAngle g - 0.5) * 0.5)) g.

(** [UPGRADES.k.tiers[level - 1].stat]: a TypeError when the tier is not in
    the table. *)
Definition tierStat (k : UpgradeKey) (level : nat) (stat : string) : Outcome R :=
  match nth_error (tiers (UPGRADES k)) (level - 1) with
  | Some t => Returned (effect stat t)
  | None => Thrown TypeError
  end.

(** The angle, in degrees, [launch] converts to radians; also what
    [onMouseMove] displays (rounded). *)
Definition angleDegrees (launchAngle : R) : R := 15 + launchAngle * 50.

(** [launch]; [rnd] is the value of its [Math.random()]. *)
Definition launch (rnd : R) : M unit :=
  modify (set_gameState flying);;
  g <- get;;
  slingshotMultiplier <-
    (if (0 <? upgrades g slingshot)%nat
     then lift (tierStat slingshot (upgrades g slingshot) "power")
     else ret 1);;
  let minPower := 20 in
  let basePower := pullDistance g * LAUNCH_POWER_MULTIPLIER in
  let power := Math_max minPower basePower * slingshotMultiplier in
  let actualAngle := angleDegrees (launchAngle g) * (PI / 180) in
  let startZ := getCheckpointStartPosition g in
  modify (set_startingZ startZ);;
  modify (set_plane_position (vec3 0 slingshotHeight startZ));;
  modify (set_plane_rotation (vec3 0 0 0));;
  modify (set_velocity (vec3 0 (sin actualAngle * power) (cos actualAngle * power)));;
  let tumbleMultiplier := if (0 <? upgrades g wings)%nat then 0.1 else 0.5 in
  modify (set_angularVelocity (vec3 ((rnd - 0.5) * tumbleMultiplier) 0 0));;
  (if (0 <? upgrades g boosters)%nat
   then uses <- lift (tierStat boosters (upgrades g boosters) "uses");;
        modify (set_boosterUsesRemaining uses)
   else ret tt);;
  modify (set_highestDistanceThisRun 0);;
  modify (set_launchAngle 0.5).

Definition onMouseUp (rnd : R) : M unit :=
  g <- get;;
  if negb (isDragging g) || negb (GameState_eqb (gameState g) pulling) then ret tt
  else
    modify (set_isDragging false);;
    g <- get;;
    if pullDistance g <? MIN_PULL_DISTANCE then
      modify resetPlanePosition;;
      modify (set_gameState ready)
    else launch rnd.

(** ** Boosters *)

Definition activateBooster : M unit :=
  g <- get;;
  if negb (GameState_eqb (gameState g) flying) then ret tt else
  if (upgrades g boosters =? 0)%nat then ret tt else
  if boosterUsesRemaining g <=? 0 then ret tt else
  if boosterActive g then ret tt else
  modify (set_boosterUsesRemaining (boosterUsesRemaining g - 1));;
  boostPower <- lift (tierStat boosters (upgrades g boosters) "boost");;
  let forward := normalize (vec3 0 0.3 1) in
  modify (over_velocity (fun v => add v (multiplyScalar forward boostPower)));;
  modify (set_boosterActive true);;
  modify (set_boosterTimer BOOSTER_DURATION).

(** [updateBoosterEffect], without the particles: they exist exactly while
    [boosterActive] holds. *)
Definition updateBoosterEffect (deltaTime : R) (g : Game) : Game :=
  if negb (boosterActive g) then g else
  let g := set_boosterTimer (boosterTimer g - deltaTime) g in
  if boosterTimer g <=? 0 then set_boosterActive false g else g.

(** ** Keyboard *)

(** [event.code], as far as the handlers tell codes apart. *)
Inductive Code :=
| ArrowLeft | KeyA | ArrowRight | KeyD | ArrowUp | KeyW | ArrowDown | KeyS
| Space | OtherCode.

Definition set_k_left (b : bool) (k : Keys) : Keys :=
  {| k_left := b; k_right := k_right k; k_up := k_up k; k_down := k_down k;
     k_boost := k_boost k |}.
Definition set_k_right (b : bool) (k : Keys) : Keys :=
  {| k_left := k_left k; k_right := b; k_up := k_up k; k_down := k_down k;
     k_boost := k_boost k |}.
Definition set_k_up (b : bool) (k : Keys) : Keys :=
  {| k_left := k_left k; k_right := k_right k; k_up := b; k_down := k_down k;
     k_boost := k_boost k |}.
Definition set_k_down (b : bool) (k : Keys) : Keys :=
  {| k_left := k_left k; k_right := k_right k; k_up := k_up k; k_down := b;
     k_boost := k_boost k |}.
Definition set_k_boost (b : bool) (k : Keys) : Keys :=
  {| k_left := k_left k; k_right := k_right k; k_up := k_up k;
     k_down := k_down k; k_boost := b |}.

Definition over_keys (f : Keys -> Keys) (g : Game) : Game :=
  set_keys (f (keys g)) g.

Definition onKeyDown (code : Code) : M unit :=
  match code with
  | ArrowLeft | KeyA => modify (over_keys (set_k_left true))
  | ArrowRight | KeyD => modify (over_keys (set_k_right true))
  | ArrowUp | KeyW => modify (over_keys (set_k_up true))
  | ArrowDown | KeyS => modify (over_keys (set_k_down true))
  | Space =>
      g <- get;;
      if negb (k_boost (keys g)) then
        modify (over_keys (set_k_boost true));;
        activateBooster
      else ret tt
  | OtherCode => ret tt
  end.

Definition onKeyUp (code : Code) (g : Game) : Game :=
  match code with
  | ArrowLeft | KeyA => over_keys (set_k_left false) g
  | ArrowRight | KeyD => over_keys (set_k_right false) g
  | ArrowUp | KeyW => over_keys (set_k_up false) g
  | ArrowDown | KeyS => over_keys (set_k_down false) g
  | Space => over_keys (set_k_boost false) g
  | OtherCode => g
  end.

(** ** The upgrade shop *)

(** [upgrades[key]++]. *)
Definition increment (key : UpgradeKey) (u : UpgradeKey -> nat) : UpgradeKey -> nat :=
  fun k => if UpgradeKey_eqb k key then S (u k) else u k.

(** [purchaseUpgrade]; [coins -= cost] is a difference of doubles.  The
    display updates after the save ([updateCoinDisplay],
    [renderUpgradeMenu], [updatePlaneVisuals]) change no global of the
    model. *)
Definition purchaseUpgrade (key : UpgradeKey) : M unit :=
  g <- get;;
  let upgrade := UPGRADES key in
  let currentTier := upgrades g key in
  if (maxTier upgrade <=? currentTier)%nat then ret tt else
  match nth_error (tiers upgrade) currentTier with
  | None => throw TypeError
  | Some next =>
      if (coins g <? cost next)%Z then ret tt else
      if match requires upgrade with
         | Some requiredUpgrade => (upgrades g requiredUpgrade =? 0)%nat
         | None => false
         end
      then ret tt else
      modify (set_coins (round64 (coins g - cost next)));;
      modify (fun g => set_upgrades (increment key (upgrades g)) g);;
      saveProgress
  end.

(** ** The per-tick physics update *)

(** [upgrades.k > 0 ? UPGRADES.k.tiers[upgrades.k - 1] : null]; a tier
    outside the table reads as [undefined], which every use below treats as
    [null] does. *)
Definition stats (k : UpgradeKey) (g : Game) : option UpgradeTier :=
  if (0 <? upgrades g k)%nat
  then nth_error (tiers (UPGRADES k)) (upgrades g k - 1)
  else None.

Definition has (k : UpgradeKey) (g : Game) : bool := (0 <? upgrades g k)%nat.

(** "Apply player controls": left/right, then up/down. *)
Definition applyControls (deltaTime : R) (g : Game) : Game :=
  let baseControl := 0.5 in
  let wingControl :=
    match stats wings g with Some w => effect "control" w * 20 | None => 0 end in
  let lateralControl := baseControl + wingControl in
  let g :=
    if k_left (keys g) then
      let g := over_velocity (map_x (fun x => x + lateralControl * deltaTime)) g in
      over_rotation (map_z (fun z => Math_max (z - 2 * deltaTime) (-0.3))) g
    else g in
  let g :=
    if k_right (keys g) then
      let g := over_velocity (map_x (fun x => x - lateralControl * deltaTime)) g in
      over_rotation (map_z (fun z => Math_min (z + 2 * deltaTime) 0.3)) g
    else g in
  match stats tail g with
  | Some t =>
      if has wings g && has tail g then
        let pitchControl := effect "pitch" t * 15 in
        let g :=
          if k_up (keys g) then
            let g := over_velocity (map_y (fun y => y + pitchControl * deltaTime)) g in
            over_rotation (map_x (fun x => Math_max (x - deltaTime) (-0.5))) g
          else g in
        if k_down (keys g) then
          let g := over_velocity
                     (map_y (fun y => y - pitchControl * deltaTime * 0.5)) g in
          over_rotation (map_x (fun x => Math_min (x + deltaTime) 0.5)) g
        else g
      else g
  | None => g
  end.

(** "Apply gravity". *)
Definition applyGravity (deltaTime : R) (g : Game) : Game :=
  over_velocity (map_y (fun y => y + GRAVITY * deltaTime)) g.

(** "Apply lift (if has wings and moving forward)". *)
Definition applyLift (deltaTime : R) (g : Game) : Game :=
  match stats wings g with
  | Some w =>
      if has wings g && (5 <? vz (velocity g)) then
        let liftForce := effect "lift" w * vz (velocity g) * 0.5 in
        over_velocity (map_y (fun y => y + liftForce * deltaTime)) g
      else g
  | None => g
  end.

(** The factor the drag step multiplies the velocity by. *)
Definition dragFactor (aeroStats : option UpgradeTier) (deltaTime : R)
  (v : Vector3) : R :=
  let dragReduction :=
    match aeroStats with Some a => effect "dragReduction" a | None => 0 end in
  let effectiveDrag := BASE_DRAG * (1 - dragReduction) in
  let speed := length v in
  let dragForce := speed * speed * effectiveDrag in
  1 - dragForce * deltaTime.

(** "Apply drag (reduced by aerodynamic upgrade)", on the velocity. *)
Definition dragStep (aeroStats : option UpgradeTier) (deltaTime : R)
  (v : Vector3) : Vector3 :=
  if 0 <? length v
  then multiplyScalar v (dragFactor aeroStats deltaTime v)
  else v.

Definition applyDrag (deltaTime : R) (g : Game) : Game :=
  over_velocity (dragStep (stats aerodynamic g) deltaTime) g.

(** "Update position" and "Clamp X position to keep plane on screen". *)
Definition updatePosition (deltaTime : R) (g : Game) : Game :=
  let g := over_position
             (fun p => add p (multiplyScalar (velocity g) deltaTime)) g in
  over_position (map_x (fun x => Math_max (-50) (Math_min 50 x))) g.

(** "Update rotation (tumbling) - reduced if has wings". *)
Definition updateRotation (deltaTime : R) (g : Game) : Game :=
  if negb (has wings g) then
    let g := over_rotation
               (map_x (fun x => x + vx (angularVelocity g) * deltaTime)) g in
    over_rotation (map_z (fun z => z + vz (angularVelocity g) * deltaTime)) g
  else
    let g := over_angularVelocity (fun a => multiplyScalar a 0.95) g in
    let g := over_rotation
               (map_x (fun x => x + vx (angularVelocity g) * deltaTime * 0.3)) g in
    if negb (k_left (keys g)) && negb (k_right (keys g))
    then over_rotation (map_z (fun z => z * 0.95)) g
    else g.

(** "Ground collision"; [rnd] is the value of the [Math.random()] of a hard
    landing without wheels. *)
Definition groundCollision (rnd : R) (g : Game) : Game :=
  if vy (plane_position g) <=? PLANE_HEIGHT / 2 then
    let g := over_position (set_y (PLANE_HEIGHT / 2)) g in
    if vy (velocity g) <? -1 then
      let g := over_velocity (map_y (fun y => - y * BOUNCE_DAMPING)) g in
      match stats wheels g with
      | Some w =>
          let g := over_velocity (map_z (fun z => z * effect "friction" w)) g in
          let g := set_angularVelocity (vec3 0 0 0) g in
          let g := over_rotation (set_x 0) g in
          over_rotation (set_z 0) g
      | None =>
          let g := over_velocity (map_z (fun z => z * TUMBLE_SLOWDOWN)) g in
          over_angularVelocity (map_x (fun x => x + (rnd - 0.5) * 3)) g
      end
    else
      let g := over_velocity (set_y 0) g in
      match stats wheels g with
      | Some _ => over_velocity (map_z (fun z => z * 0.995)) g
      | None => over_velocity (map_z (fun z => z * 0.98)) g
      end
  else g.

(** "Update distance". *)
Definition updateDistance (g : Game) : Game :=
  let distanceFromStart := vz (plane_position g) - startingZ g in
  let g := set_distance (Math_max 0 distanceFromStart) g in
  set_highestDistanceThisRun
    (Math_max (highestDistanceThisRun g) (vz (plane_position g))) g.

(** Everything [updatePhysics] does to position and velocity, in its order:
    controls, gravity, lift, drag, translation, tumble, ground, distance. *)
Definition integrate (deltaTime rnd : R) (g : Game) : Game :=
  updateDistance
    (groundCollision rnd
       (updateRotation deltaTime
          (updatePosition deltaTime
             (applyDrag deltaTime
                (applyLift deltaTime
                   (applyGravity deltaTime
                      (applyControls deltaTime g))))))).

(** The loop of [checkObstacleCollisions]: obstacles farther than 50 along
    z are skipped, the first one whose box meets the plane's ends it. *)
Fixpoint firstHit (planeBox : Box3) (planeZ : R) (obs : list Obstacle)
  : option Obstacle :=
  match obs with
  | [] => None
  | obstacle :: rest =>
      if 50 <? Math_abs (vz (mesh_position obstacle) - planeZ)
      then firstHit planeBox planeZ rest
      else if intersectsBox planeBox (boundingBox obstacle)
           then Some obstacle
           else firstHit planeBox planeZ rest
  end.

(** The stop test at the end of [updatePhysics]. *)
Definition stopped (g : Game) : bool :=
  (length (velocity g) <? 0.5) &&
  (vy (plane_position g) <=? PLANE_HEIGHT / 2 + 0.1).

Section Simulation.

(** [new THREE.Box3().setFromObject(plane)]: the world box of the plane
    group, which its position, its rotation and the meshes of the owned
    upgrades determine. *)
Variable planeBounds : Vector3 -> Vector3 -> (UpgradeKey -> nat) -> Box3.

Definition planeBox (g : Game) : Box3 :=
  planeBounds (plane_position g) (plane_rotation g) (upgrades g).

Definition checkObstacleCollisions : M unit :=
  g <- get;;
  if negb (GameState_eqb (gameState g) flying) then ret tt else
  match firstHit (planeBox g) (vz (plane_position g)) (obstacles g) with
  | Some obstacle => handleCollision obstacle
  | None => ret tt
  end.

(** [updatePhysics]; [updateHUD], which ends it, only displays. *)
Definition updatePhysics (deltaTime rnd : R) : M unit :=
  g <- get;;
  if negb (GameState_eqb (gameState g) flying) then ret tt else
  modify (integrate deltaTime rnd);;
  checkAndUnlockCheckpoints;;
  checkObstacleCollisions;;
  g <- get;;
  if 6000 <=? vz (plane_position g) then victory
  else
    g <- get;;
    when (stopped g) crash.

(** The time step [animate] passes on. *)
Definition clampedDelta (time lastTime : R) : R :=
  Math_min ((time - lastTime) / 1000) 0.1.

(** [animate(time)], without the camera and the renderer. *)
Definition animate (time rnd : R) : M unit :=
  g <- get;;
  let deltaTime := clampedDelta time (lastTime g) in
  modify (set_lastTime time);;
  updatePhysics deltaTime rnd;;
  modify (updateBoosterEffect deltaTime).

End Simulation.

(** ** Events *)

(** What [init] registers a handler for: the mouse, the keyboard, the
    animation frame, the buy buttons of the upgrade menu, the continue
    button and the checkpoint buttons. *)
Inductive Event :=
| MouseDown (clientX clientY : R)
| MouseMove (clientX clientY : R)
| MouseUp (rnd : R)
| KeyDown (code : Code)
| KeyUp (code : Code)
| Frame (time rnd : R)
| Buy (key : UpgradeKey)
| Continue
| Select (checkpoint : Zone).

(** The globals after the handler of an event; an exception ends the
    handler and leaves them as they are at that point. *)
Definition handle
  (planeBounds : Vector3 -> Vector3 -> (UpgradeKey -> nat) -> Box3)
  (e : Event) (g : Game) : Game :=
  match e with
  | MouseDown x y => onMouseDown x y g
  | MouseMove x y => onMouseMove x y g
  | MouseUp rnd => snd (onMouseUp rnd g)
  | KeyDown code => snd (onKeyDown code g)
  | KeyUp code => onKeyUp code g
  | Frame time rnd => snd (animate planeBounds time rnd g)
  | Buy key => snd (purchaseUpgrade key g)
  | Continue => resetGame g
  | Select checkpoint =>
      if checkpoints g checkpoint then selectCheckpoint checkpoint g else g
  end.

Definition play
  (planeBounds : Vector3 -> Vector3 -> (UpgradeKey -> nat) -> Box3)
  (events : list Event) (g : Game) : Game :=
  fold_left (fun g e => handle planeBounds e g) events g.

(** ** A plane and a worker, for the examples *)

(** The box of the bare plane when it is level: the fuselage, the nose cone
    in front and the tail fin behind and above, around the position. *)
Definition barePlaneBounds (position rotation : Vector3)
  (levels : UpgradeKey -> nat) : Box3 :=
  box3 (add position (vec3 (-0.2) (-0.18) (-1.3)))
       (add position (vec3 0.2 0.45 1.6)).

(** A worker on the runway, as [createPerson(0, 51.855, ...)] makes one. *)
Definition worker : Obstacle :=
  {| mesh_position := vec3 0 0 51.855;
     boundingBox := box3 (vec3 (-0.25) 0 51.605) (vec3 0.25 2 52.105);
     type := "person" |}.

(** ** The game at start-up *)

(** The initial values of the module's variables, with an empty store and
    the obstacles [createObstacles] placed. *)
Definition initialGame (obs : list Obstacle) : Game :=
  {| gameState := ready;
     coins := 0;
     distance := 0;
     boosterUsesRemaining := 0;
     upgrades := fun _ => 0%nat;
     checkpoints := fun z => Zone_eqb z runway;
     currentCheckpoint := runway;
     highestDistanceThisRun := 0;
     startingZ := 0;
     keys := {| k_left := false; k_right := false; k_up := false;
                k_down := false; k_boost := false |};
     plane_position := vec3 0 1 0;
     plane_rotation := vec3 0 0 0;
     boosterActive := false;
     boosterTimer := 0;
     obstacles := obs;
     velocity := vec3 0 0 0;
     angularVelocity := vec3 0 0 0;
     isDragging := false;
     pullDistance := 0;
     launchAngle := 0.5;
     pullStart := vec2 0 0;
     pullCurrent := vec2 0 0;
     slingshotPosition := vec3 0 0 0;
     lastTime := 0;
     localStorage := None;
     log := [] |}.

(** A bare plane rolling on the ground at half a meter per second, [z]
    meters into a run that started at the runway, with an empty store. *)
Definition rollingAt (z : R) (obs : list Obstacle) : Game :=
  set_velocity (vec3 0 0 0.5)
    (set_plane_position (vec3 0 0.15 z)
       (set_distance z
          (set_gameState flying (initialGame obs)))).

(** 50 m into the run, the nose of the plane 5 mm short of the worker. *)
Definition rollingIntoWorker : Game := rollingAt 50 [worker].

(** A run distance of 3.369170114610953e31, which is a double and an
    integer (7481060470240115 * 2^52).  A bare plane launched at full pull
    is that far when a tick first finds it past 6000, the sixth at 60 frames
    a second, in the arithmetic of doubles: the drag step has multiplied the
    velocity by a factor below -1 in each of the six ticks. *)
Definition farAway : Z := 33691701146109529494419186647040%Z.

(** ** Vocabulary of the statements *)

(** The store can be read back: [getSavedHighestDistance] does not throw.
    It holds of an empty store and is kept by every save. *)
Definition readable (s : option Blob) : bool :=
  match s with
  | None => true
  | Some (NotJSON t) => String.eqb t EmptyString
  | Some (JSON JNull) | Some (JSON JUndefined) => false
  | Some (JSON _) => true
  end.

(** The globals after a [saveProgress] that read [saved] back from the store. *)
Definition afterSave (saved : jsval) (g : Game) : Game :=
  let blob := JSON (saveData g (ofNumber (maxWithSaved (distance g) saved))) in
  set_log (SetItem blob :: log g) (set_localStorage (Some blob) g).

(** The number stored as [highestDistance], when the blob holds one. *)
Definition storedHighestDistance (s : option Blob) : option R :=
  match s with
  | Some (JSON (JObj fs)) =>
      match lookup "highestDistance" fs with
      | Some (JNum h) => Some h
      | _ => None
      end
  | _ => None
  end.



(** Successive saves, one at each run distance of the list. *)
Fixpoint savesAt (ds : list R) (g : Game) : Game :=
  match ds with
  | [] => g
  | d :: ds' => savesAt ds' (snd (saveProgress (set_distance d g)))
  end.

(** [nextCost(key, level)] of the catalogue: the cost of the tier after
    [level], none at the last tier. *)
Definition nextCost (key : UpgradeKey) (level : nat) : option Z :=
  option_map cost (nth_error (tiers (UPGRADES key)) level).

Definition cannotAfford (key : UpgradeKey) (g : Game) : Prop :=
  exists c, nextCost key (upgrades g key) = Some c /\ (coins g < c)%Z.

Definition requiresUnmet (key : UpgradeKey) (g : Game) : Prop :=
  exists r, requires (UPGRADES key) = Some r /\ upgrades g r = 0%nat.

Definition atMaxTier (key : UpgradeKey) (g : Game) : Prop :=
  upgrades g key = maxTier (UPGRADES key).

(** Every level is one of its upgrade's tiers or 0, as the data model has it. *)
Definition levelsInRange (g : Game) : Prop :=
  forall k, (upgrades g k <= maxTier (UPGRADES k))%nat.

(** The number of [localStorage.setItem] calls so far. *)
Definition saves (g : Game) : nat :=
  List.length (filter (fun e => match e with SetItem _ => true | _ => false end) (log g)).

(** The globals after [crash] and after [victory], for a store that read
    [saved] back. *)
Definition afterCrash (saved : jsval) (g : Game) : Game :=
  let coinsEarned := Math_floor (distance g) in
  let g := afterSave saved
             (set_coins (round64 (coins g + coinsEarned))
                (set_gameState crashed g)) in
  set_log (CrashOverlay coinsEarned coinsEarned :: log g) g.

Definition afterVictory (saved : jsval) (g : Game) : Game :=
  let coinsEarned := round64 (Math_floor (distance g) + 10000) in
  let g := afterSave saved
             (set_coins (round64 (coins g + coinsEarned))
                (set_gameState crashed g)) in
  set_log (VictoryOverlay coinsEarned :: log g) g.

(** Position, velocity and run distance are the same in two states. *)
Definition sameMotion (g g' : Game) : Prop :=
  distance g' = distance g /\
  plane_position g' = plane_position g /\
  velocity g' = velocity g /\
  plane_rotation g' = plane_rotation g /\
  angularVelocity g' = angularVelocity g.

(** The settlements shown so far, most recent first. *)
Definition settlements (g : Game) : list Effect :=
  filter (fun e => match e with
                   | CrashOverlay _ _ | VictoryOverlay _ => true
                   | _ => false
                   end) (log g).

(** What the integration of a tick leaves alone. *)
Definition sameProgress (g g' : Game) : Prop :=
  gameState g' = gameState g /\
  coins g' = coins g /\
  upgrades g' = upgrades g /\
  checkpoints g' = checkpoints g /\
  obstacles g' = obstacles g /\
  startingZ g' = startingZ g /\
  localStorage g' = localStorage g /\
  log g' = log g /\
  launchAngle g' = launchAngle g /\
  isDragging g' = isDragging g /\
  pullDistance g' = pullDistance g.

(** The store is empty or holds a non-negative [highestDistance]. *)
Definition storeOK (s : option Blob) : Prop :=
  s = None \/ exists h, storedHighestDistance s = Some h /\ 0 <= h.

(** What holds of the globals after any sequence of events, from the start
    of the game with an empty store. *)
Record Inv (g : Game) : Prop := {
  inv_angle : 0.1 <= launchAngle g <= 0.9;
  inv_dragging : gameState g = pulling -> isDragging g = true;
  inv_levels : levelsInRange g;
  inv_store : storeOK (localStorage g);
  inv_distance : 0 <= distance g;
  inv_coins : (0 <= coins g)%Z;
  inv_double : binary64 (coins g)
}.

(** The stored [highestDistance] has not decreased from [g] to [g']. *)
Definition storedLe (g g' : Game) : Prop :=
  forall h,
    storedHighestDistance (localStorage g) = Some h ->
    exists h', storedHighestDistance (localStorage g') = Some h' /\ h <= h'.

(** From [g] to [g']: the invariant holds, the stored [highestDistance] and
    the coins have not decreased. *)
Definition advances (g g' : Game) : Prop :=
  Inv g' /\ storedLe g g' /\ (coins g <= coins g')%Z.

(** A computation that, from globals that satisfy the invariant, returns
    without an exception on globals that advance. *)
Definition runs (m : M unit) : Prop :=
  forall g, Inv g -> exists g', m g = (Returned tt, g') /\ advances g g'.

(** ** The display *)

(** What [updateHUD] writes: the meters of the distance display (the text
    is the number followed by "m"), the zone name, and the booster count,
    absent while the booster display is hidden. *)
Record HUD := {
  distanceDisplay : Z;
  zoneDisplay : string;
  boosterCount : option R
}.

Definition updateHUD (g : Game) : HUD :=
  let absolutePosition := startingZ g + distance g in
  let zoneName :=
    if zone_start (ZONES forest) <=? absolutePosition then "Forest"
    else if zone_start (ZONES desert) <=? absolutePosition then "Desert"
    else if zone_start (ZONES city) <=? absolutePosition then "City"
    else "Runway" in
  {| distanceDisplay := Math_floor (distance g);
     zoneDisplay := zoneName;
     boosterCount :=
       if (0 <? upgrades g boosters)%nat
       then Some (boosterUsesRemaining g)
       else None |}.

(** The name [updateHUD] shows for a zone. *)
Definition zoneTitle (z : Zone) : string :=
  match z with
  | runway => "Runway" | city => "City" | desert => "Desert"
  | forest => "Forest"
  end.

(** ** Vocabulary of the reachable states *)

(** The coins the first [level] tiers of an upgrade cost, and the coins all
    the levels owned cost. *)
Definition paid (key : UpgradeKey) (level : nat) : Z :=
  fold_right Z.add 0%Z (map cost (firstn level (tiers (UPGRADES key)))).

Definition spent (u : UpgradeKey -> nat) : Z :=
  fold_right Z.add 0%Z (map (fun k => paid k (u k)) allKeys).

(** The coins the settlements of a log granted. *)
Definition granted (e : Effect) : Z :=
  match e with
  | CrashOverlay _ coinsEarned => coinsEarned
  | VictoryOverlay coinsEarned => coinsEarned
  | _ => 0%Z
  end.

Definition earned (l : list Effect) : Z :=
  fold_right Z.add 0%Z (map granted l).

(** The values of [coins], [upgrades] and [checkpoints], as [loadProgress]
    holds them. *)
Definition progressOf (g : Game) : PlayerProgress :=
  {| pp_coins := JNum (IZR (coins g));
     pp_upgrades := map (fun k => (keyName k, JNum (INR (upgrades g k)))) allKeys;
     pp_checkpoints :=
       map (fun z => (zoneName z, JBool (checkpoints g z))) allZones |}.

(** Every zone that starts at or before the plane's absolute position is
    unlocked. *)
Definition reached (g : Game) : Prop :=
  forall z,
    zone_start (ZONES z) <= startingZ g + distance g -> checkpoints g z = true.

(** What holds of the globals, besides [Inv], after any sequence of events
    from the start of the game with an empty store. *)
Record Consistent (g : Game) : Prop := {
  con_requires :
    forall k r, requires (UPGRADES k) = Some r ->
      (0 < upgrades g k)%nat -> (0 < upgrades g r)%nat;
  con_balance :
    (earned (log g) <= 2 ^ 53)%Z ->
    (coins g + spent (upgrades g) = earned (log g))%Z;
  con_runway : checkpoints g runway = true;
  con_current : checkpoints g (currentCheckpoint g) = true;
  con_closed :
    (checkpoints g forest = true -> checkpoints g desert = true) /\
    (checkpoints g desert = true -> checkpoints g city = true);
  con_idle : gameState g = ready \/ gameState g = pulling -> distance g = 0;
  con_start :
    exists z, checkpoints g z = true /\ startingZ g = zone_start (ZONES z);
  con_charges :
    exists n, boosterUsesRemaining g = INR n /\ (n <= upgrades g boosters)%nat;
  con_pull : 0 <= pullDistance g <= MAX_PULL_DISTANCE;
  con_stored :
    loadProgress (localStorage g) defaultProgress = (Returned tt, progressOf g)
}.

(** From [g] to [g']: the run is the same (its start and its distance), no
    checkpoint is locked again, and levels and obstacles are the same. *)
Definition sameRun (g g' : Game) : Prop :=
  startingZ g' = startingZ g /\
  distance g' = distance g /\
  (forall z, checkpoints g z = true -> checkpoints g' z = true) /\
  upgrades g' = upgrades g /\
  obstacles g' = obstacles g.

(** A computation that, from consistent globals, returns without an
    exception on consistent globals of the same run. *)
Definition settles (m : M unit) : Prop :=
  forall g, Inv g -> Consistent g ->
    exists g', m g = (Returned tt, g') /\ Inv g' /\ Consistent g' /\ sameRun g g'.

(** From [g] to [g']: no level has decreased, no checkpoint is locked
    again, the obstacles are the same. *)
Definition grows (g g' : Game) : Prop :=
  (forall k, (upgrades g k <= upgrades g' k)%nat) /\
  (forall z, checkpoints g z = true -> checkpoints g' z = true) /\
  obstacles g' = obstacles g.

(** The state of the game after an event, as the state machine allows it. *)
Definition legal (s : GameState) (e : Event) (s' : GameState) : Prop :=
  s' = s \/
  match e with
  | MouseDown _ _ => s = ready /\ s' = pulling
  | MouseUp _ => s = pulling /\ (s' = ready \/ s' = flying)
  | Frame _ _ => s = flying /\ s' = crashed
  | Continue => s' = ready
  | _ => False
  end.
(** The globals the integration of a tick never writes, besides those of
    [sameProgress]. *)
Definition sameSettings (g g' : Game) : Prop :=
  currentCheckpoint g' = currentCheckpoint g /\
  boosterUsesRemaining g' = boosterUsesRemaining g /\
  boosterActive g' = boosterActive g /\
  boosterTimer g' = boosterTimer g /\
  keys g' = keys g /\
  slingshotPosition g' = slingshotPosition g /\
  lastTime g' = lastTime g.
(** A computation that keeps a property of the globals however it ends,
    with a result or with an exception. *)
Definition preserves (P : Game -> Prop) {A : Type} (m : M A) : Prop :=
  forall g, P g -> P (snd (m g)).

(** The flight is on or over. *)
Definition launched (g : Game) : Prop :=
  gameState g = flying \/ gameState g = crashed.
(** The booster effect after the frames of the given durations. *)
Definition burn (dts : list R) (g : Game) : Game :=
  fold_left (fun g dt => updateBoosterEffect dt g) dts g.

(** The sum of the durations. *)
Definition total (dts : list R) : R := fold_right Rplus 0 dts.
(** ** The upgrade menu *)

(** The cost a card shows: "MAX", or the cost of the next tier followed by
    " coins" ([None] where the tier is not in the table and the text reads
    "undefined coins"). *)
Inductive CostAmount :=
| CostMax
| CostCoins (c : option Z).

(** One card of the upgrade menu, as far as it depends on the globals. *)
Record Card := {
  data_upgrade : UpgradeKey;    (* the button's data-upgrade *)
  locked : bool;                (* the card's class "locked" *)
  maxed : bool;                 (* the card's and the button's class "maxed" *)
  upgrade_name : string;
  tierPips : list bool;         (* a pip per tier, filled or not *)
  cost_amount : CostAmount;
  disabled : bool;              (* the button's attribute *)
  button : string;              (* the button's label *)
  requires_note : option string
}.

Definition upgradeOrder : list UpgradeKey :=
  [wings; slingshot; wheels; tail; aerodynamic; boosters].

(** The body of the loop of [renderUpgradeMenu]. *)
Definition renderCard (g : Game) (key : UpgradeKey) : Card :=
  let upgrade := UPGRADES key in
  let currentTier := upgrades g key in
  let isMaxed := (maxTier upgrade <=? currentTier)%nat in
  let nextTier := if isMaxed then None else nth_error (tiers upgrade) currentTier in
  let requiresMet :=
    match requires upgrade with
    | None => true
    | Some required => (0 <? upgrades g required)%nat
    end in
  let canAfford :=
    match nextTier with
    | Some next => (cost next <=? coins g)%Z
    | None => false
    end in
  let isLocked := negb requiresMet in
  {| data_upgrade := key;
     locked := isLocked;
     maxed := isMaxed;
     upgrade_name := name upgrade;
     tierPips := map (fun i => (i <? currentTier)%nat) (seq 0 (maxTier upgrade));
     cost_amount :=
       if isMaxed then CostMax else CostCoins (option_map cost nextTier);
     disabled := isMaxed || isLocked || negb canAfford;
     button :=
       if isMaxed then "MAXED"
       else if isLocked then "LOCKED"
       else if canAfford then "BUY" else "NEED COINS";
     requires_note :=
       if isLocked
       then match requires upgrade with
            | Some required => Some ("Requires: " ++ name (UPGRADES required))
            | None => None
            end
       else None |}.

Definition renderUpgradeMenu (g : Game) : list Card :=
  map (renderCard g) upgradeOrder.

(** The buttons [renderUpgradeMenu] gives a click handler: those that are
    not disabled; a click buys the upgrade of the button. *)
Definition buyButtons (g : Game) : list UpgradeKey :=
  map data_upgrade (filter (fun c => negb (disabled c)) (renderUpgradeMenu g)).

(** ** The plane's upgrade meshes *)

(** The meshes [updatePlaneVisuals] adds to the plane, with what varies. *)
Inductive Part :=
| WingsMesh (wingSpan : R)
| Stabilizer
| Wheel (position : Vector3)
| LeftBooster
| RightBooster
| Rocket.

Definition updatePlaneVisuals (g : Game) : list Part :=
  ((if (0 <? upgrades g wings)%nat
    then [WingsMesh (1 + INR (upgrades g wings) * 0.2)]
    else []) ++
   (if (0 <? upgrades g tail)%nat then [Stabilizer] else []) ++
   (if (0 <? upgrades g wheels)%nat
    then [Wheel (vec3 (-0.3) (- PLANE_HEIGHT / 2) 0.3);
          Wheel (vec3 0.3 (- PLANE_HEIGHT / 2) 0.3);
          Wheel (vec3 0 (- PLANE_HEIGHT / 2) (-0.5))]
    else []) ++
   (if (0 <? upgrades g boosters)%nat
    then (if (0 <? upgrades g wings)%nat then [LeftBooster; RightBooster] else [])
         ++ (if (10 <=? upgrades g boosters)%nat then [Rocket] else [])
    else []))%list.
(** ** The first version of the game *)

(** The game before upgrades, obstacles, checkpoints and controls were
    added (the second main file of the repository).  Its globals are among
    those of [Game]; what it does not have it does not touch.  Its
    [onMouseDown], [resetPlanePosition] and [getSavedHighestDistance] are,
    word for word, the functions above. *)
Module Simplified.

Definition LAUNCH_ANGLE : R := 20 * (PI / 180).

Definition onMouseMove (clientX clientY : R) (g : Game) : Game :=
  if negb (isDragging g) || negb (GameState_eqb (gameState g) pulling) then g else
  let g := set_pullCurrent (vec2 clientX clientY) g in
  let deltaY := y2 (pullCurrent g) - y2 (pullStart g) in
  let g := set_pullDistance
             (Math_min MAX_PULL_DISTANCE (Math_max 0 (deltaY / 50))) g in
  let g := over_position (set_z (vz (slingshotPosition g) - pullDistance g)) g in
  over_position (set_y (slingshotHeight - pullDistance g * 0.3)) g.

(** [launch]; [rnd1] and [rnd2] are the values of its two [Math.random()]. *)
Definition launch (rnd1 rnd2 : R) (g : Game) : Game :=
  let g := set_gameState flying g in
  let power := pullDistance g * LAUNCH_POWER_MULTIPLIER in
  let g := set_velocity
             (vec3 0 (sin LAUNCH_ANGLE * power) (cos LAUNCH_ANGLE * power)) g in
  set_angularVelocity (vec3 ((rnd1 - 0.5) * 2) 0 ((rnd2 - 0.5) * 0.5)) g.

Definition onMouseUp (rnd1 rnd2 : R) (g : Game) : Game :=
  if negb (isDragging g) || negb (GameState_eqb (gameState g) pulling) then g else
  let g := set_isDragging false g in
  if pullDistance g <? MIN_PULL_DISTANCE then
    set_gameState ready (resetPlanePosition g)
  else launch rnd1 rnd2 g.

(** The object [saveProgress] serialises: no checkpoints, no levels. *)
Definition saveData (g : Game) (highestDistance : jsval) : jsval :=
  JObj [ ("coins", JNum (IZR (coins g)));
         ("highestDistance", highestDistance);
         ("upgrades", JObj (map (fun k => (keyName k, JNum 0)) allKeys)) ].

Definition saveProgress : M unit :=
  g <- get;;
  saved <- getSavedHighestDistance;;
  let blob := JSON (saveData g (ofNumber (maxWithSaved (distance g) saved))) in
  modify (set_localStorage (Some blob));;
  emit (SetItem blob).

(** [loadProgress], on the result of [localStorage.getItem] and the global
    [coins] as the untyped value it is at run time. *)
Definition loadProgress (saved : option Blob) (coins : jsval)
  : Outcome unit * jsval :=
  match saved with
  | Some blob =>
      if truthyItem saved then
        match JSON_parse blob with
        | Thrown e => (Thrown e, coins)
        | Returned data =>
            match getProp "coins" data with
            | Thrown e => (Thrown e, coins)
            | Returned c => (Returned tt, orElse c (JNum 0))
            end
        end
      else (Returned tt, coins)
  | None => (Returned tt, coins)
  end.

Definition crash : M unit :=
  modify (set_gameState crashed);;
  g <- get;;
  let coinsEarned := Math_floor (distance g) in
  modify (set_coins (round64 (coins g + coinsEarned)));;
  saveProgress;;
  emit (CrashOverlay (Math_floor (distance g)) coinsEarned).

(** "Apply drag". *)
Definition applyDrag (deltaTime : R) (g : Game) : Game :=
  let speed := length (velocity g) in
  let dragForce := speed * speed * BASE_DRAG in
  if 0 <? speed
  then over_velocity (fun v => multiplyScalar v (1 - dragForce * deltaTime)) g
  else g.

(** "Update position". *)
Definition updatePosition (deltaTime : R) (g : Game) : Game :=
  over_position (fun p => add p (multiplyScalar (velocity g) deltaTime)) g.

(** "Update rotation (tumbling)". *)
Definition updateRotation (deltaTime : R) (g : Game) : Game :=
  let g := over_rotation
             (map_x (fun x => x + vx (angularVelocity g) * deltaTime)) g in
  over_rotation (map_z (fun z => z + vz (angularVelocity g) * deltaTime)) g.

(** "Ground collision"; [rnd] is the value of the [Math.random()] of a
    bounce. *)
Definition groundCollision (rnd : R) (g : Game) : Game :=
  if vy (plane_position g) <=? PLANE_HEIGHT / 2 then
    let g := over_position (set_y (PLANE_HEIGHT / 2)) g in
    if vy (velocity g) <? -1 then
      let g := over_velocity (map_y (fun y => - y * BOUNCE_DAMPING)) g in
      let g := over_velocity (map_z (fun z => z * TUMBLE_SLOWDOWN)) g in
      over_angularVelocity (map_x (fun x => x + (rnd - 0.5) * 3)) g
    else
      let g := over_velocity (set_y 0) g in
      over_velocity (map_z (fun z => z * 0.98)) g
  else g.

(** "Update distance". *)
Definition updateDistance (g : Game) : Game :=
  set_distance (Math_max 0 (vz (plane_position g))) g.

(** Everything [updatePhysics] does to position and velocity, in its order:
    gravity (as in [applyGravity]), drag, translation, tumble, ground,
    distance. *)
Definition integrate (deltaTime rnd : R) (g : Game) : Game :=
  updateDistance
    (groundCollision rnd
       (updateRotation deltaTime
          (updatePosition deltaTime
             (applyDrag deltaTime (applyGravity deltaTime g))))).

(** [updatePhysics]; [updateHUD], which ends it, only displays. *)
Definition updatePhysics (deltaTime rnd : R) : M unit :=
  g <- get;;
  if negb (GameState_eqb (gameState g) flying) then ret tt else
  modify (integrate deltaTime rnd);;
  g <- get;;
  when (stopped g) crash.

Definition resetGame (g : Game) : Game :=
  let g := set_gameState ready g in
  let g := set_distance 0 g in
  let g := resetPlanePosition g in
  let g := set_plane_rotation (vec3 0 0 0) g in
  let g := set_velocity (vec3 0 0 0) g in
  set_angularVelocity (vec3 0 0 0) g.

(** [animate(time)], without the camera and the renderer. *)
Definition animate (time rnd : R) : M unit :=
  g <- get;;
  let deltaTime := clampedDelta time (lastTime g) in
  modify (set_lastTime time);;
  updatePhysics deltaTime rnd.

End Simplified.

(** A plane without upgrades, with no key held, on a run from the runway,
    on the centre line and not moving sideways. *)
Definition barePlane (g : Game) : Prop :=
  (forall k, upgrades g k = 0%nat) /\
  keys g = {| k_left := false; k_right := false; k_up := false;
              k_down := false; k_boost := k_boost (keys g) |} /\
  startingZ g = 0 /\
  vx (velocity g) = 0 /\
  -50 <= vx (plane_position g) <= 50.
(** ** Placing the obstacles *)

(** The calls [createObstacles] makes, with the arguments that say where
    and how large; the meshes and their boxes are three.js's, and the
    colours, with the draws that choose them, are left out. *)
Inductive Placement :=
| Person (x z : R)
| Vehicle (x z width height length : R)
| Building (x z width height depth : R)
| Cactus (x z : R)
| Rock (x z : R)
| Tree (x z : R)
| Elk (x z : R).

(** [for (let z = start; z < stop; z += step + Math.random() * spread) body].
    Of each pair of [draws], the first component holds the values of the
    [Math.random()] of the body and the second the value of the one of the
    increment; the result is [None] when [draws] runs out before the loop
    ends. *)
Fixpoint scatter {D : Type} (body : D -> R -> Placement)
  (draws : list (D * R)) (z stop step spread : R) : option (list Placement) :=
  match draws with
  | [] => if z <? stop then None else Some []
  | (d, r) :: rest =>
      if z <? stop
      then option_map (cons (body d z))
             (scatter body rest (z + (step + r * spread)) stop step spread)
      else Some []
  end.

(** The values of [Math.random()] in [createObstacles], loop by loop; the
    loops of the runway run a fixed number of times and draw by index. *)
Record Draws := {
  workers : nat -> R * R;                      (* x, z *)
  vehicles : nat -> R * R * R;                 (* side, x, z *)
  buildings : list ((R * R * R * R * R) * R);  (* side, x, height, width, depth *)
  street : list ((R * R) * R);                 (* x, vehicle or person *)
  cacti : list (R * R);
  rocks : list (R * R);
  trees : list (R * R);
  elks : list (R * R)
}.

Definition createRunwayObstacles (d : Draws) : list Placement :=
  (map (fun i => let '(rx, rz) := workers d i in
                 Person ((rx - 0.5) * 16) (20 + rz * 70))
       (seq 0 5)
   ++ map (fun i => let '(side, rx, rz) := vehicles d i in
                    Vehicle ((if 0.5 <? side then 1 else -1) * (5 + rx * 3))
                      (30 + rz * 60) 2 1.5 4)
        (seq 0 3))%list.

Definition orElseNone {A : Type} (a b : option (list A)) : option (list A) :=
  match a, b with
  | Some l, Some l' => Some (l ++ l')%list
  | _, _ => None
  end.

Definition createCityObstacles (d : Draws) : option (list Placement) :=
  orElseNone
    (scatter (fun '(side, rx, rh, rw, rd) z =>
                Building ((if 0.5 <? side then 1 else -1) * (15 + rx * 20)) z
                  (8 + rw * 12) (10 + rh * 40) (8 + rd * 12))
       (buildings d) 120 1000 40 30)
    (scatter (fun '(rx, kind) z =>
                if 0.5 <? kind
                then Vehicle ((rx - 0.5) * 20) z 2 1.2 4
                else Person ((rx - 0.5) * 20) z)
       (street d) 110 1000 15 20).

Definition createDesertObstacles (d : Draws) : option (list Placement) :=
  orElseNone
    (scatter (fun rx z => Cactus ((rx - 0.5) * 80) z) (cacti d) 1050 3000 20 40)
    (scatter (fun rx z => Rock ((rx - 0.5) * 60) z) (rocks d) 1100 3000 100 100).

Definition createForestObstacles (d : Draws) : option (list Placement) :=
  orElseNone
    (scatter (fun rx z => Tree ((rx - 0.5) * 100) z) (trees d) 3050 6000 10 20)
    (scatter (fun rx z => Elk ((rx - 0.5) * 40) z) (elks d) 3200 6000 200 300).

Definition createObstacles (d : Draws) : option (list Placement) :=
  orElseNone (Some (createRunwayObstacles d))
    (orElseNone (createCityObstacles d)
       (orElseNone (createDesertObstacles d) (createForestObstacles d))).

(** A value of [Math.random()]. *)
Definition drawn (r : R) : Prop := 0 <= r < 1.

(** Every draw is a value of [Math.random()]. *)
Definition unitDraws (d : Draws) : Prop :=
  (forall i, drawn (fst (workers d i)) /\ drawn (snd (workers d i))) /\
  (forall i, drawn (snd (fst (vehicles d i))) /\ drawn (snd (vehicles d i))) /\
  Forall (fun '((side, rx, rh, rw, rd), r) =>
            drawn rx /\ drawn rh /\ drawn rw /\ drawn rd /\ drawn r) (buildings d) /\
  Forall (fun '((rx, kind), r) => drawn rx /\ drawn r) (street d) /\
  Forall (fun '(rx, r) => drawn rx /\ drawn r) (cacti d) /\
  Forall (fun '(rx, r) => drawn rx /\ drawn r) (rocks d) /\
  Forall (fun '(rx, r) => drawn rx /\ drawn r) (trees d) /\
  Forall (fun '(rx, r) => drawn rx /\ drawn r) (elks d).

(** Draws enough for each loop to reach its end. *)
Definition enoughDraws (d : Draws) : Prop :=
  (22 <= List.length (buildings d))%nat /\
  (60 <= List.length (street d))%nat /\
  (98 <= List.length (cacti d))%nat /\
  (19 <= List.length (rocks d))%nat /\
  (295 <= List.length (trees d))%nat /\
  (14 <= List.length (elks d))%nat.

(** Where each kind of obstacle may be. *)
Definition wellPlaced (p : Placement) : Prop :=
  match p with
  | Person x z => 20 <= z < 1000 /\ -10 <= x <= 10
  | Vehicle x z _ _ _ => 30 <= z < 1000 /\ -10 <= x <= 10
  | Building x z width height _ =>
      120 <= z < 1000 /\ 15 <= Math_abs x < 35 /\
      5 < Math_abs x - width / 2 /\ 10 <= height < 50
  | Cactus x z => 1050 <= z < 3000 /\ -40 <= x <= 40
  | Rock x z => 1100 <= z < 3000 /\ -30 <= x <= 30
  | Tree x z => 3050 <= z < 6000 /\ -50 <= x <= 50
  | Elk x z => 3200 <= z < 6000 /\ -20 <= x <= 20
  end.

(** Every draw one half, with the draws each loop needs at most. *)
Definition evenDraws : Draws :=
  {| workers := fun _ => (0.5, 0.5);
     vehicles := fun _ => (0.5, 0.5, 0.5);
     buildings := repeat ((0.5, 0.5, 0.5, 0.5, 0.5), 0.5) 22;
     street := repeat ((0.5, 0.5), 0.5) 60;
     cacti := repeat (0.5, 0.5) 98;
     rocks := repeat (0.5, 0.5) 19;
     trees := repeat (0.5, 0.5) 295;
     elks := repeat (0.5, 0.5) 14 |}.

(** ** Basic facts *)

Lemma ulp_pos (a : Z) : (0 < ulp a)%Z.
Proof. unfold ulp. apply Z.pow_pos_nonneg; lia. Qed.

Lemma ulp_small (a : Z) : (a < 2 ^ 53)%Z -> ulp a = 1%Z.
Proof.
  intros H. unfold ulp.
  destruct (Z.le_gt_cases a 0) as [Hle | Hpos].
  - rewrite (Z.log2_nonpos a Hle). reflexivity.
  - assert (Z.log2 a < 53)%Z by (apply Z.log2_lt_pow2; lia).
    rewrite Z.max_l by lia. reflexivity.
Qed.

(** The rounded value is one of the two multiples of [u] around [a]. *)
Lemma nearestEven_cases (u a : Z) :
  (0 < u)%Z ->
  (a mod u = 0 /\ nearestEven u a = a)%Z \/
  (0 < a mod u /\
   (nearestEven u a = (a / u) * u \/ nearestEven u a = (a / u + 1) * u))%Z.
Proof.
  intros Hu. unfold nearestEven.
  pose proof (Z.mod_pos_bound a u Hu) as Hr.
  pose proof (Z.div_mod a u ltac:(lia)) as Hd.
  destruct (Z.eq_dec (a mod u) 0) as [E | Hne].
  - left. split; [exact E | ]. rewrite E.
    destruct (Z.ltb_spec (2 * 0) u); lia.
  - right. split; [lia | ].
    destruct (Z.ltb_spec (2 * (a mod u)) u); [left; reflexivity | ].
    destruct (Z.ltb_spec u (2 * (a mod u))); [right; reflexivity | ].
    destruct (Z.even (a / u)); [left | right]; reflexivity.
Qed.

Lemma nearestEven_multiple (u m : Z) :
  (0 < u)%Z -> nearestEven u (m * u) = (m * u)%Z.
Proof.
  intros Hu. destruct (nearestEven_cases u (m * u) Hu) as [[_ E] | [H _]];
    [exact E | ].
  rewrite Z.mod_mul in H by lia. lia.
Qed.

(** Rounding does not cross a multiple of the unit. *)
Lemma nearestEven_above (u m a : Z) :
  (0 < u)%Z -> (m * u <= a)%Z -> (m * u <= nearestEven u a)%Z.
Proof.
  intros Hu H.
  assert (Hq : (m <= a / u)%Z) by (apply Z.div_le_lower_bound; lia).
  destruct (nearestEven_cases u a Hu) as [[_ E] | [_ [E | E]]]; rewrite E; nia.
Qed.

Lemma nearestEven_below (u m a : Z) :
  (0 < u)%Z -> (a <= m * u)%Z -> (nearestEven u a <= m * u)%Z.
Proof.
  intros Hu H.
  pose proof (Z.mod_pos_bound a u Hu) as Hr.
  pose proof (Z.div_mod a u ltac:(lia)) as Hd.
  destruct (nearestEven_cases u a Hu) as [[_ E] | [Hpos [E | E]]]; rewrite E;
    [exact H | | ];
    assert (a / u < m)%Z by nia; nia.
Qed.

Lemma nearestEven_monotone (u a b : Z) :
  (0 < u)%Z -> (a <= b)%Z -> (nearestEven u a <= nearestEven u b)%Z.
Proof.
  intros Hu H.
  pose proof (Z.mod_pos_bound a u Hu) as Hra.
  pose proof (Z.mod_pos_bound b u Hu) as Hrb.
  pose proof (Z.div_mod a u ltac:(lia)) as Hda.
  pose proof (Z.div_mod b u ltac:(lia)) as Hdb.
  assert (Hq : (a / u <= b / u)%Z) by (apply Z.div_le_mono; lia).
  destruct (Z.eq_dec (a / u) (b / u)) as [E | Hne].
  - assert (Hr : (a mod u <= b mod u)%Z) by nia.
    unfold nearestEven. rewrite E.
    destruct (Z.ltb_spec (2 * (a mod u)) u), (Z.ltb_spec (2 * (b mod u)) u),
      (Z.ltb_spec u (2 * (a mod u))), (Z.ltb_spec u (2 * (b mod u)));
      destruct (Z.even (b / u)); nia.
  - apply Z.le_trans with ((a / u + 1) * u)%Z.
    + apply nearestEven_below; [exact Hu | nia].
    + apply nearestEven_above; [exact Hu | nia].
Qed.

(** Up to 2^53 every integer is a double. *)
Lemma round64_small (z : Z) : (Z.abs z <= 2 ^ 53)%Z -> round64 z = z.
Proof.
  intros H. unfold round64.
  destruct (Z.eq_dec (Z.abs z) (2 ^ 53)) as [E | Hne].
  - rewrite E.
    change (nearestEven (ulp (2 ^ 53)) (2 ^ 53)) with (2 ^ 53)%Z.
    rewrite <- E. rewrite Z.mul_comm. apply Z.abs_sgn.
  - rewrite ulp_small by lia.
    replace (nearestEven 1 (Z.abs z)) with (Z.abs z).
    + rewrite Z.mul_comm. apply Z.abs_sgn.
    + rewrite <- (Z.mul_1_r (Z.abs z)) at 2.
      rewrite nearestEven_multiple by lia. lia.
Qed.

Lemma round64_nonneg (z : Z) : (0 <= z)%Z -> (0 <= round64 z)%Z.
Proof.
  intros H. unfold round64.
  pose proof (nearestEven_above (ulp (Z.abs z)) 0 (Z.abs z) (ulp_pos _)) as Hn.
  destruct (Z.eq_dec z 0) as [-> | Hne]; [cbn; lia | ].
  rewrite Z.sgn_pos by lia. lia.
Qed.

Lemma round64_opp (z : Z) : round64 (- z) = (- round64 z)%Z.
Proof. unfold round64. rewrite Z.sgn_opp, Z.abs_opp. lia. Qed.

Lemma ulp_monotone (a b : Z) : (a <= b)%Z -> (ulp a <= ulp b)%Z.
Proof.
  intros H. unfold ulp. apply Z.pow_le_mono_r; [lia | ].
  pose proof (Z.log2_le_mono a b H). lia.
Qed.

(** Sums and differences are rounded in order. *)
Lemma round64_monotone_nonneg (a b : Z) :
  (0 <= a <= b)%Z -> (round64 a <= round64 b)%Z.
Proof.
  intros [Ha H].
  destruct (Z.eq_dec a 0) as [-> | Hapos].
  { change (round64 0) with 0%Z. apply round64_nonneg. lia. }
  unfold round64. rewrite !Z.sgn_pos, !Z.abs_eq, !Z.mul_1_l by lia.
  destruct (Z.eq_dec (Z.log2 a) (Z.log2 b)) as [E | Hne].
  - unfold ulp. rewrite E. apply nearestEven_monotone; [ | exact H].
    apply Z.pow_pos_nonneg; lia.
  - pose proof (Z.log2_le_mono a b H) as Hl.
    pose proof (Z.log2_nonneg a) as Hla.
    assert (Hb : (2 ^ Z.log2 b <= b)%Z) by (apply Z.log2_spec; lia).
    assert (Hlt : (a < 2 ^ Z.log2 b)%Z).
    { apply Z.lt_le_trans with (2 ^ Z.succ (Z.log2 a))%Z.
      - apply Z.log2_spec. lia.
      - apply Z.pow_le_mono_r; lia. }
    apply Z.le_trans with (2 ^ Z.log2 b)%Z.
    + unfold ulp.
      set (e := Z.max 0 (Z.log2 a - 52)).
      assert (He : (0 <= e <= Z.log2 b)%Z) by (unfold e; lia).
      replace (2 ^ Z.log2 b)%Z with (2 ^ (Z.log2 b - e) * 2 ^ e)%Z
        by (rewrite <- Z.pow_add_r by lia; f_equal; lia).
      apply nearestEven_below; [apply Z.pow_pos_nonneg; lia | ].
      rewrite <- Z.pow_add_r by lia.
      replace (Z.log2 b - e + e)%Z with (Z.log2 b) by lia. lia.
    + unfold ulp.
      set (e := Z.max 0 (Z.log2 b - 52)).
      assert (He : (0 <= e <= Z.log2 b)%Z) by (unfold e; lia).
      replace (2 ^ Z.log2 b)%Z with (2 ^ (Z.log2 b - e) * 2 ^ e)%Z
        by (rewrite <- Z.pow_add_r by lia; f_equal; lia).
      apply nearestEven_above; [apply Z.pow_pos_nonneg; lia | ].
      rewrite <- Z.pow_add_r by lia.
      replace (Z.log2 b - e + e)%Z with (Z.log2 b) by lia. exact Hb.
Qed.

Lemma round64_monotone (a b : Z) : (a <= b)%Z -> (round64 a <= round64 b)%Z.
Proof.
  intros H.
  destruct (Z.le_gt_cases 0 a) as [Ha | Ha].
  - apply round64_monotone_nonneg. lia.
  - destruct (Z.le_gt_cases 0 b) as [Hb | Hb].
    + apply Z.le_trans with 0%Z; [ | apply round64_nonneg; exact Hb].
      pose proof (round64_nonneg (- a) ltac:(lia)) as Hn.
      rewrite round64_opp in Hn. lia.
    + pose proof (round64_monotone_nonneg (- b) (- a) ltac:(lia)) as Hm.
      rewrite !round64_opp in Hm. lia.
Qed.

(** The result of a rounding is a double. *)
Lemma round64_binary64 (z : Z) : binary64 (round64 z).
Proof.
  unfold binary64.
  assert (Hpos : forall a, (0 < a)%Z -> round64 (round64 a) = round64 a).
  { intros a Ha.
    destruct (Z.le_gt_cases a (2 ^ 53)) as [Hs | Hbig].
    { rewrite !(round64_small a) by lia. reflexivity. }
    assert (Hk : (53 <= Z.log2 a)%Z) by (apply Z.log2_le_pow2; lia).
    pose proof (Z.log2_spec a Ha) as [Hlo Hhi].
    set (k := Z.log2 a) in *.
    set (e := (k - 52)%Z).
    assert (Eu : ulp a = (2 ^ e)%Z).
    { unfold ulp. fold k. rewrite Z.max_r by lia. reflexivity. }
    assert (Hu : (0 < 2 ^ e)%Z) by (apply Z.pow_pos_nonneg; lia).
    assert (E52 : (2 ^ k = 2 ^ 52 * 2 ^ e)%Z).
    { rewrite <- Z.pow_add_r by lia. f_equal. lia. }
    assert (E53 : (2 ^ Z.succ k = 2 ^ 53 * 2 ^ e)%Z).
    { rewrite <- Z.pow_add_r by lia. f_equal. lia. }
    assert (Ev : round64 a = nearestEven (2 ^ e) a).
    { unfold round64. rewrite Z.sgn_pos, Z.abs_eq, Eu by lia. lia. }
    assert (Hvlo : (2 ^ 52 * 2 ^ e <= round64 a)%Z).
    { rewrite Ev. apply nearestEven_above; [exact Hu | lia]. }
    assert (Hvhi : (round64 a <= 2 ^ 53 * 2 ^ e)%Z).
    { rewrite Ev. apply nearestEven_below; [exact Hu | lia]. }
    assert (Hm : exists m, round64 a = (m * 2 ^ e)%Z).
    { rewrite Ev.
      destruct (nearestEven_cases (2 ^ e) a Hu) as [[Hr E] | [_ [E | E]]].
      - exists (a / 2 ^ e)%Z. rewrite E at 1.
        pose proof (Z.div_mod a (2 ^ e) ltac:(lia)). lia.
      - eexists; exact E.
      - eexists; exact E. }
    destruct Hm as [m Em].
    set (v := round64 a) in *.
    assert (Hv : (0 < v)%Z) by lia.
    destruct (Z.eq_dec v (2 ^ 53 * 2 ^ e)) as [Etop | Hne].
    - assert (El : Z.log2 v = Z.succ k).
      { rewrite Etop, <- E53. apply Z.log2_pow2. lia. }
      unfold round64 at 1. rewrite Z.sgn_pos, Z.abs_eq by lia.
      unfold ulp. rewrite El, Z.max_r by lia.
      replace v with (2 ^ 52 * 2 ^ (Z.succ k - 52))%Z at 1 2.
      + rewrite nearestEven_multiple by (apply Z.pow_pos_nonneg; lia). lia.
      + rewrite Etop, <- !Z.pow_add_r by lia. f_equal. lia.
    - assert (El : Z.log2 v = k).
      { apply Z.log2_unique; [lia | ]. rewrite E52, E53. lia. }
      unfold round64 at 1. rewrite Z.sgn_pos, Z.abs_eq by lia.
      unfold ulp. rewrite El, Z.max_r by lia. fold e.
      rewrite Em at 1 2.
      rewrite nearestEven_multiple by exact Hu. lia. }
  destruct (Z.lt_trichotomy z 0) as [Hneg | [-> | Hp]].
  - pose proof (Hpos (- z)%Z ltac:(lia)) as H.
    rewrite !round64_opp in H. lia.
  - reflexivity.
  - apply Hpos. exact Hp.
Qed.

(** A balance that is a double does not grow by a subtraction nor shrink by
    an addition. *)
Lemma round64_add_le (c e : Z) :
  binary64 c -> (0 <= e)%Z -> (c <= round64 (c + e))%Z.
Proof.
  intros Hc He. unfold binary64 in Hc. rewrite <- Hc at 1.
  apply round64_monotone. lia.
Qed.

Lemma round64_sub_le (c e : Z) :
  binary64 c -> (0 <= e)%Z -> (round64 (c - e) <= c)%Z.
Proof.
  intros Hc He. unfold binary64 in Hc. rewrite <- Hc at 2.
  apply round64_monotone. lia.
Qed.

(** A double is a multiple of its unit in the last place. *)
Lemma binary64_multiple (y : Z) :
  (0 <= y)%Z -> binary64 y -> exists m, y = (m * ulp y)%Z.
Proof.
  intros Hy Hd. unfold binary64, round64 in Hd.
  destruct (Z.eq_dec y 0) as [-> | Hne]; [exists 0%Z; reflexivity | ].
  rewrite Z.sgn_pos, Z.abs_eq, Z.mul_1_l in Hd by lia.
  destruct (nearestEven_cases (ulp y) y (ulp_pos y)) as [[Hr _] | [_ [E | E]]].
  - exists (y / ulp y)%Z.
    pose proof (Z.div_mod y (ulp y)) as Hdm.
    pose proof (ulp_pos y). lia.
  - eexists. rewrite <- Hd at 1. exact E.
  - eexists. rewrite <- Hd at 1. exact E.
Qed.

(** The doubles are the integers of at most 53 significant bits. *)
Lemma binary64_iff (z : Z) :
  binary64 z <->
  exists m e, (z = m * 2 ^ e /\ Z.abs m < 2 ^ 53 /\ 0 <= e)%Z.
Proof.
  assert (Hpos : forall a, (0 < a)%Z ->
            binary64 a <-> exists m e, (a = m * 2 ^ e /\ 0 < m < 2 ^ 53 /\ 0 <= e)%Z).
  { intros a Ha. split.
    - intros Hd.
      destruct (Z.le_gt_cases (2 ^ 53) a) as [Hbig | Hsmall];
        [ | exists a, 0%Z; lia].
      destruct (binary64_multiple a ltac:(lia) Hd) as [m Em].
      assert (Hk : (53 <= Z.log2 a)%Z) by (apply Z.log2_le_pow2; lia).
      pose proof (Z.log2_spec a Ha) as [Hlo Hhi].
      unfold ulp in Em. rewrite Z.max_r in Em by lia.
      set (e := (Z.log2 a - 52)%Z) in *.
      assert (Hu : (0 < 2 ^ e)%Z) by (apply Z.pow_pos_nonneg; lia).
      assert (E53 : (2 ^ Z.succ (Z.log2 a) = 2 ^ 53 * 2 ^ e)%Z).
      { rewrite <- Z.pow_add_r by lia. f_equal. lia. }
      exists m, e. split; [exact Em | ]. split; [nia | lia].
    - intros (m & e & Em & Hm & He).
      unfold binary64, round64.
      rewrite Z.sgn_pos, Z.abs_eq, Z.mul_1_l by lia.
      assert (Hp : (0 < 2 ^ e)%Z) by (apply Z.pow_pos_nonneg; lia).
      assert (Hl : (Z.log2 a < 53 + e)%Z).
      { apply Z.log2_lt_pow2; [lia | ].
        rewrite Z.pow_add_r by lia. nia. }
      unfold ulp.
      set (d := Z.max 0 (Z.log2 a - 52)).
      assert (Hd : (0 <= d <= e)%Z) by (unfold d; lia).
      replace a with (m * 2 ^ (e - d) * 2 ^ d)%Z at 1 2.
      + rewrite nearestEven_multiple by (apply Z.pow_pos_nonneg; lia).
        rewrite <- Z.mul_assoc, <- Z.pow_add_r by lia.
        replace (e - d + d)%Z with e by lia.
        first [reflexivity | symmetry; exact Em].
      + rewrite <- Z.mul_assoc, <- Z.pow_add_r by lia.
        replace (e - d + d)%Z with e by lia.
        first [reflexivity | symmetry; exact Em]. }
  destruct (Z.lt_trichotomy z 0) as [Hneg | [-> | Hp]].
  - unfold binary64. specialize (Hpos (- z)%Z ltac:(lia)).
    unfold binary64 in Hpos. rewrite round64_opp in Hpos. split.
    + intros Hd. destruct (proj1 Hpos ltac:(lia)) as (m & e & Em & Hm & He).
      exists (- m)%Z, e. split; [lia | split; lia].
    + intros (m & e & Em & Hm & He).
      assert (Hp : (0 < 2 ^ e)%Z) by (apply Z.pow_pos_nonneg; lia).
      assert (E : (- round64 z = - z)%Z).
      { apply Hpos. exists (- m)%Z, e. split; [lia | split; [nia | lia]]. }
      lia.
  - split; [intros _; exists 0%Z, 0%Z; lia | intros _; reflexivity].
  - rewrite (Hpos z Hp). split; intros (m & e & Em & Hm & He); exists m, e;
      (split; [exact Em | split; [lia | exact He]]).
Qed.

(** No double lies between an integer and what it is rounded to. *)
Lemma round64_faithful (z y : Z) :
  binary64 y ->
  ((y <= z)%Z -> (y <= round64 z)%Z) /\ ((z <= y)%Z -> (round64 z <= y)%Z).
Proof.
  intros Hy. unfold binary64 in Hy. split; intros H.
  - rewrite <- Hy. apply round64_monotone. exact H.
  - rewrite <- Hy. apply round64_monotone. exact H.
Qed.
(** The rounded value is no farther from [a] than either multiple of [u]
    around it. *)
Lemma nearestEven_error (u a : Z) :
  (0 < u)%Z ->
  (Z.abs (nearestEven u a - a) <= a mod u)%Z /\
  (Z.abs (nearestEven u a - a) <= u - a mod u)%Z.
Proof.
  intros Hu. unfold nearestEven.
  pose proof (Z.mod_pos_bound a u Hu) as Hr.
  pose proof (Z.div_mod a u ltac:(lia)) as Hd.
  destruct (Z.ltb_spec (2 * (a mod u)) u);
    [ | destruct (Z.ltb_spec u (2 * (a mod u)));
        [ | destruct (Z.even (a / u))]]; nia.
Qed.

(** No double is nearer to an integer than what it is rounded to. *)
Lemma round64_nearest (z y : Z) :
  binary64 y -> (Z.abs (round64 z - z) <= Z.abs (y - z))%Z.
Proof.
  assert (Hpos : forall a b, (0 < a)%Z -> binary64 b ->
            (Z.abs (round64 a - a) <= Z.abs (b - a))%Z).
  { intros a b Ha Hb.
    destruct (Z.le_gt_cases a (2 ^ 53)) as [Hs | Hbig].
    { rewrite round64_small by lia. lia. }
    assert (Hk : (53 <= Z.log2 a)%Z) by (apply Z.log2_le_pow2; lia).
    pose proof (Z.log2_spec a Ha) as [Hlo Hhi].
    set (k := Z.log2 a) in *.
    set (e := (k - 52)%Z).
    assert (Hu : (0 < 2 ^ e)%Z) by (apply Z.pow_pos_nonneg; lia).
    assert (E52 : (2 ^ k = 2 ^ 52 * 2 ^ e)%Z).
    { rewrite <- Z.pow_add_r by lia. f_equal. lia. }
    assert (Ev : round64 a = nearestEven (2 ^ e) a).
    { unfold round64, ulp. rewrite Z.sgn_pos, Z.abs_eq, Z.mul_1_l by lia.
      fold k. rewrite Z.max_r by lia. reflexivity. }
    rewrite Ev.
    destruct (nearestEven_error (2 ^ e) a Hu) as [Hlow Hup].
    pose proof (Z.mod_pos_bound a (2 ^ e) Hu) as Hr.
    pose proof (Z.div_mod a (2 ^ e) ltac:(lia)) as Hd.
    destruct (Z.lt_ge_cases b (2 ^ k)) as [Hbelow | Habove].
    - assert (Hq : (2 ^ 52 <= a / 2 ^ e)%Z) by (apply Z.div_le_lower_bound; lia).
      assert (2 ^ k <= 2 ^ e * (a / 2 ^ e))%Z by nia.
      lia.
    - assert (Hb0 : (0 < b)%Z) by lia.
      destruct (binary64_multiple b ltac:(lia) Hb) as [m Em].
      assert (Hlb : (k <= Z.log2 b)%Z).
      { apply Z.log2_le_pow2; [lia | exact Habove]. }
      unfold ulp in Em. rewrite Z.max_r in Em by lia.
      assert (En : exists n, b = (n * 2 ^ e)%Z).
      { exists (m * 2 ^ (Z.log2 b - 52 - e))%Z.
        rewrite <- Z.mul_assoc, <- Z.pow_add_r by lia.
        replace (Z.log2 b - 52 - e + e)%Z with (Z.log2 b - 52)%Z by lia.
        exact Em. }
      destruct En as [n En].
      set (u := (2 ^ e)%Z) in *. set (q := (a / u)%Z) in *.
      destruct (Z.le_gt_cases n q) as [Hn | Hn].
      + assert (n * u <= q * u)%Z by nia. lia.
      + assert ((q + 1) * u <= n * u)%Z by nia. lia. }
  intros Hy.
  destruct (Z.lt_trichotomy z 0) as [Hneg | [-> | Hp]].
  - assert (Hy' : binary64 (- y)%Z).
    { unfold binary64 in *. rewrite round64_opp, Hy. reflexivity. }
    pose proof (Hpos (- z)%Z (- y)%Z ltac:(lia) Hy') as H.
    rewrite round64_opp in H. lia.
  - change (round64 0) with 0%Z. lia.
  - apply Hpos; assumption.
Qed.

(** [round64] gives what binary64 addition and subtraction give by the
    Standard Library's specification, at the amounts of the examples below
    and around 2^53, where the rounding starts: half way between two doubles
    the result is the one with the even significand. *)
Lemma round64_SpecFloat :
  Forall (fun '(a, b) =>
            plus64 a b = Some (round64 (a + b)) /\
            minus64 a b = Some (round64 (a - b)))
    [ (0, 50); (50, 50); (200, 100); (100, 300); (12345, 10000);
      (2 ^ 53, 1); (2 ^ 53, 2); (2 ^ 53, 3); (2 ^ 53 + 2, 1);
      (2 ^ 53 - 1, 1); (2 ^ 53 - 1, 10000); (2 ^ 54, 1); (2 ^ 54, 3);
      (2 ^ 60, 10000); (2 ^ 66, 10000); (2 ^ 67, 10000); (2 ^ 80, 100);
      (7481060470240115 * 2 ^ 52, 10000); (7481060470240115 * 2 ^ 52, 100);
      (7481060470240115 * 2 ^ 52, 7481060470240115 * 2 ^ 52) ]%Z.
Proof.
  repeat (apply Forall_cons; [split; vm_compute; reflexivity | ]).
  apply Forall_nil.
Qed.

(** [farAway] is a double, and one on which a bonus of 10000 and a cost of
    100 are lost. *)
Lemma farAway_absorbs :
  farAway = (7481060470240115 * 2 ^ 52)%Z /\
  binary64 farAway /\
  round64 (farAway + 10000) = farAway /\
  round64 (farAway - 100) = farAway /\
  round64 (0 + farAway) = farAway.
Proof. repeat split; vm_compute; reflexivity. Qed.

Lemma Rltb_true (x y : R) : x < y -> (x <? y) = true.
Proof. intros H. unfold Rltb. destruct (Rlt_dec x y); [reflexivity | contradiction]. Qed.

Lemma Rltb_false (x y : R) : y <= x -> (x <? y) = false.
Proof. intros H. unfold Rltb. destruct (Rlt_dec x y); [lra | reflexivity]. Qed.

Lemma Rleb_true (x y : R) : x <= y -> (x <=? y) = true.
Proof. intros H. unfold Rleb. destruct (Rle_dec x y); [reflexivity | contradiction]. Qed.

Lemma Rleb_false (x y : R) : y < x -> (x <=? y) = false.
Proof. intros H. unfold Rleb. destruct (Rle_dec x y); [lra | reflexivity]. Qed.

Lemma Rltb_spec (x y : R) : reflect (x < y) (x <? y).
Proof.
  unfold Rltb. destruct (Rlt_dec x y); constructor; assumption.
Qed.

Lemma Rleb_spec (x y : R) : reflect (x <= y) (x <=? y).
Proof.
  unfold Rleb. destruct (Rle_dec x y); constructor; assumption.
Qed.

(** Tactics for goals over concrete reals. *)

Ltac constants :=
  unfold PLANE_HEIGHT, GRAVITY, BASE_DRAG, BOUNCE_DAMPING, TUMBLE_SLOWDOWN,
    MIN_PULL_DISTANCE, MAX_PULL_DISTANCE in *.

(** Settles the comparisons of the goal whose sides are known numbers. *)
Ltac compare_reals :=
  repeat match goal with
         | |- context [?a <? ?b] =>
             first [ rewrite (Rltb_true a b) by (constants; lra)
                   | rewrite (Rltb_false a b) by (constants; lra) ]
         | |- context [?a <=? ?b] =>
             first [ rewrite (Rleb_true a b) by (constants; lra)
                   | rewrite (Rleb_false a b) by (constants; lra) ]
         end.

(** Splits on the comparisons behind [Math.max] and [Math.min]. *)
Ltac rcases :=
  unfold Math_max, Math_min, Rmax, Rmin in *;
  repeat match goal with
         | |- context [Rle_dec ?a ?b] => destruct (Rle_dec a b)
         | H : context [Rle_dec ?a ?b] |- _ => destruct (Rle_dec a b)
         end.

Lemma Math_floor_spec (x : R) (z : Z) :
  IZR z <= x < IZR z + 1 -> Math_floor x = z.
Proof.
  intros [Hlo Hhi]. unfold Math_floor. symmetry.
  apply Int_part_spec. lra.
Qed.

Lemma Math_floor_bounds (x : R) :
  IZR (Math_floor x) <= x < IZR (Math_floor x) + 1.
Proof.
  unfold Math_floor. destruct (base_Int_part x) as [Hlo Hhi]. lra.
Qed.

Lemma Math_floor_nonneg (x : R) : 0 <= x -> (0 <= Math_floor x)%Z.
Proof.
  intros Hx. destruct (Math_floor_bounds x) as [_ Hhi].
  apply Z.lt_succ_r. apply lt_IZR. rewrite succ_IZR. lra.
Qed.

Lemma length_axis_z (z : R) : 0 <= z -> length (vec3 0 0 z) = z.
Proof.
  intros Hz. unfold length. cbn.
  replace (0 * 0 + 0 * 0 + z * z) with (z * z) by ring.
  apply sqrt_square. exact Hz.
Qed.

Lemma length_nonneg (v : Vector3) : 0 <= length v.
Proof. unfold length. apply sqrt_pos. Qed.

Lemma length_sqr (v : Vector3) :
  length v * length v = vx v * vx v + vy v * vy v + vz v * vz v.
Proof.
  unfold length. apply sqrt_sqrt. nra.
Qed.

(** The catalogue is well formed: [maxTier] tiers per upgrade. *)
Lemma UPGRADES_tiers_length (k : UpgradeKey) :
  List.length (tiers (UPGRADES k)) = maxTier (UPGRADES k).
Proof. destruct k; reflexivity. Qed.

Lemma UPGRADES_next_tier (k : UpgradeKey) (level : nat) :
  (level < maxTier (UPGRADES k))%nat ->
  exists next, nth_error (tiers (UPGRADES k)) level = Some next.
Proof.
  intros H. rewrite <- UPGRADES_tiers_length in H.
  apply nth_error_Some in H.
  destruct (nth_error (tiers (UPGRADES k)) level) as [next|]; [eauto | congruence].
Qed.

(** Every effect the game reads is in the table it reads it from. *)
Lemma UPGRADES_effects_present :
  forall k stat t,
    In (k, stat)
       [(wings, "lift"); (wings, "control"); (wheels, "friction");
        (tail, "pitch"); (aerodynamic, "dragReduction");
        (slingshot, "power"); (boosters, "uses"); (boosters, "boost")] ->
    In t (tiers (UPGRADES k)) ->
    exists v, lookup stat (effects t) = Some v.
Proof.
  intros k stat t Hk Ht. cbn in Hk.
  repeat (destruct Hk as [Hk | Hk]; [inversion Hk; subst; clear Hk | ]);
    try contradiction;
    cbn in Ht;
    repeat (destruct Ht as [Ht | Ht]; [subst t; cbn; eauto | ]);
    contradiction.
Qed.

(** ** The progress store *)

#[global] Arguments getSavedHighestDistance : simpl never.
#[global] Arguments saveProgress : simpl never.
#[global] Arguments crash : simpl never.
#[global] Arguments victory : simpl never.
#[global] Arguments handleCollision : simpl never.
#[global] Arguments checkAndUnlockCheckpoints : simpl never.
#[global] Arguments launch : simpl never.
#[global] Arguments tierStat : simpl never.
#[global] Arguments integrate : simpl never.

Ltac run := unfold bind, get, modify, ret, emit, lift, throw, when; cbn.

Lemma getSavedHighestDistance_readable (g : Game) :
  readable (localStorage g) = true ->
  exists saved, getSavedHighestDistance g = (Returned saved, g).
Proof.
  intros Hr. unfold getSavedHighestDistance. run.
  destruct (localStorage g) as [[t | v] | ]; cbn in *.
  - rewrite Hr. cbn. eauto.
  - destruct v; try discriminate; cbn; eauto.
  - eauto.
Qed.

Lemma saveProgress_readable (g : Game) :
  readable (localStorage g) = true ->
  exists saved, saveProgress g = (Returned tt, afterSave saved g).
Proof.
  intros Hr. destruct (getSavedHighestDistance_readable g Hr) as [saved Hs].
  exists saved. unfold saveProgress. run. rewrite Hs. reflexivity.
Qed.

(** An empty store and a store that holds a highest distance are readable. *)
Lemma storeOK_readable (s : option Blob) : storeOK s -> readable s = true.
Proof.
  intros [-> | (h & Hh & _)]; [reflexivity | ].
  destruct s as [[t | v] | ]; try discriminate.
  destruct v; try discriminate. reflexivity.
Qed.

Lemma afterSave_readable (saved : jsval) (g : Game) :
  readable (localStorage (afterSave saved g)) = true.
Proof. reflexivity. Qed.

Lemma getSavedHighestDistance_state (g : Game) :
  snd (getSavedHighestDistance g) = g.
Proof.
  unfold getSavedHighestDistance. run.
  destruct (localStorage g) as [[t | v] | ]; cbn.
  - destruct (negb (String.eqb t EmptyString)); reflexivity.
  - destruct (getProp "highestDistance" v); reflexivity.
  - reflexivity.
Qed.

(** A save changes the store and the log, and nothing else. *)
Lemma saveProgress_frame (g : Game) :
  let g' := snd (saveProgress g) in
  gameState g' = gameState g /\ coins g' = coins g /\
  distance g' = distance g /\ upgrades g' = upgrades g /\
  checkpoints g' = checkpoints g /\
  plane_position g' = plane_position g /\ velocity g' = velocity g /\
  plane_rotation g' = plane_rotation g /\
  angularVelocity g' = angularVelocity g /\ obstacles g' = obstacles g /\
  startingZ g' = startingZ g /\ pullDistance g' = pullDistance g /\
  launchAngle g' = launchAngle g.
Proof.
  unfold saveProgress. run.
  pose proof (getSavedHighestDistance_state g) as Hg.
  destruct (getSavedHighestDistance g) as [[saved | e] g1];
    cbn in Hg; subst g1; cbn; repeat split.
Qed.

(** One save: what it writes as [highestDistance]. *)
Lemma saveProgress_stored (g : Game) :
  (localStorage g = None ->
   saveProgress g = (Returned tt, afterSave (JNum 0) g) /\
   storedHighestDistance (localStorage (afterSave (JNum 0) g))
     = Some (Rmax (distance g) 0)) /\
  (forall h,
     storedHighestDistance (localStorage g) = Some h ->
     saveProgress g = (Returned tt, afterSave (JNum h) g) /\
     storedHighestDistance (localStorage (afterSave (JNum h) g))
       = Some (Rmax (distance g) h)).
Proof.
  split.
  - intros Hnone. split; [ | reflexivity].
    unfold saveProgress, getSavedHighestDistance. run. rewrite Hnone.
    reflexivity.
  - intros h Hh. split; [ | reflexivity].
    unfold storedHighestDistance in Hh.
    destruct (localStorage g) as [[t | v] | ] eqn:Hst; try discriminate.
    destruct v as [ | | | | | | fs]; try discriminate.
    destruct (lookup "highestDistance" fs) as [hv | ] eqn:Hl; try discriminate.
    destruct hv; try discriminate. injection Hh as ->.
    unfold saveProgress, getSavedHighestDistance. run. rewrite Hst. cbn.
    rewrite Hl. cbn. unfold orElse, truthy, Reqb.
    destruct (Req_dec_T h 0) as [-> | Hne]; reflexivity.
Qed.

(** Any number of saves, from a store that holds the number [h]: a number is
    stored afterwards, and it is not below [h]. *)
Lemma savesAt_monotone (ds : list R) :
  forall (g : Game) (h : R),
    storedHighestDistance (localStorage g) = Some h ->
    exists h',
      storedHighestDistance (localStorage (savesAt ds g)) = Some h' /\ h <= h'.
Proof.
  induction ds as [ | d ds IH]; intros g h Hh.
  - exists h. split; [exact Hh | lra].
  - cbn [savesAt].
    destruct (saveProgress_stored (set_distance d g)) as [_ Hsome].
    destruct (Hsome h Hh) as [E Hst]. rewrite E. cbn [snd].
    destruct (IH _ _ Hst) as (h' & Hh' & Hle).
    exists h'. split; [exact Hh' | ].
    apply Rle_trans with (Rmax d h); [apply Rmax_r | exact Hle].
Qed.

(** C9. What a save writes as [highestDistance] is the maximum of the
    current run distance and the value already stored (0 when nothing is
    stored); it is never below the stored value, and it is non-negative when
    nothing was stored, when the stored value was non-negative, or when the
    run distance is.  Over any number of saves the stored value never
    decreases. *)
Theorem saveProgress_highestDistance :
  forall g : Game,
    (localStorage g = None ->
     exists g',
       saveProgress g = (Returned tt, g') /\
       storedHighestDistance (localStorage g')
         = Some (Rmax (distance g) 0) /\
       0 <= Rmax (distance g) 0) /\
    (forall h,
       storedHighestDistance (localStorage g) = Some h ->
       (exists g',
          saveProgress g = (Returned tt, g') /\
          storedHighestDistance (localStorage g')
            = Some (Rmax (distance g) h) /\
          h <= Rmax (distance g) h /\
          (0 <= h \/ 0 <= distance g -> 0 <= Rmax (distance g) h)) /\
       (forall ds, exists h',
          storedHighestDistance (localStorage (savesAt ds g)) = Some h' /\
          h <= h')).
Proof.
  intros g. destruct (saveProgress_stored g) as [Hnone Hsome]. split.
  - intros Hn. destruct (Hnone Hn) as [E Hst].
    eexists. split; [exact E | split; [exact Hst | apply Rmax_r]].
  - intros h Hh. split.
    + destruct (Hsome h Hh) as [E Hst].
      eexists. split; [exact E | split; [exact Hst | split]].
      * apply Rmax_r.
      * intros [H0 | H0].
        -- apply Rle_trans with h; [exact H0 | apply Rmax_r].
        -- apply Rle_trans with (distance g); [exact H0 | apply Rmax_l].
    + intros ds. apply savesAt_monotone. exact Hh.
Qed.

(** Two runs of 120 m and 80 m saved in turn from an empty store: 120 is
    stored after the first save and after the second. *)
Lemma saveProgress_highestDistance_witness :
  exists g',
    saveProgress (set_distance 120 (initialGame [])) = (Returned tt, g') /\
    storedHighestDistance (localStorage g') = Some (Rmax 120 0) /\
    exists g'',
      saveProgress (set_distance 80 g') = (Returned tt, g'') /\
      storedHighestDistance (localStorage g'') = Some (Rmax 80 (Rmax 120 0)).
Proof.
  destruct (saveProgress_highestDistance (set_distance 120 (initialGame [])))
    as [Hnone _].
  destruct (Hnone eq_refl) as (g' & E & Hst & _).
  exists g'. split; [exact E | split; [exact Hst | ]].
  destruct (saveProgress_highestDistance (set_distance 80 g')) as [_ Hsome].
  destruct (Hsome (Rmax 120 0) Hst) as [(g'' & E' & Hst' & _) _].
  exists g''. split; [exact E' | exact Hst'].
Defined.

(** ** Checkpoints *)

Lemma unlockAt_locked (z : Zone) (a : R) (s : bool * Game) :
  (zone_start (ZONES z) <= a -> checkpoints (snd s) z = true) ->
  unlockAt z a s = s.
Proof.
  intros H. unfold unlockAt.
  destruct (Rleb_spec (zone_start (ZONES z)) a) as [Hle | Hgt]; cbn.
  - rewrite (H Hle). reflexivity.
  - reflexivity.
Qed.

(** [unlockAt] either leaves the pair alone or unlocks a locked checkpoint. *)
Lemma unlockAt_cases (z : Zone) (a : R) (s : bool * Game) :
  unlockAt z a s = s \/
  (checkpoints (snd s) z = false /\
   unlockAt z a s = (true, set_checkpoints (unlock z (checkpoints (snd s))) (snd s))).
Proof.
  unfold unlockAt.
  destruct (zone_start (ZONES z) <=? a); cbn; [ | left; reflexivity].
  destruct (checkpoints (snd s) z); cbn; [left | right]; auto.
Qed.

Lemma unlock_monotone (z z' : Zone) (c : Zone -> bool) :
  c z' = true -> unlock z c z' = true.
Proof. intros H. unfold unlock. destruct (Zone_eqb z' z); auto. Qed.

Lemma unlock_self (z : Zone) (c : Zone -> bool) : unlock z c z = true.
Proof. unfold unlock. destruct z; reflexivity. Qed.

(** The three unlock steps together: nothing happens, or [unlocked] is set
    and a checkpoint that was locked is unlocked. *)
Lemma unlockAt_chain (a : R) (g : Game) :
  let s := unlockAt forest a (unlockAt desert a (unlockAt city a (false, g))) in
  s = (false, g) \/
  (fst s = true /\
   exists z, checkpoints g z = false /\ checkpoints (snd s) z = true).
Proof.
  cbv zeta.
  destruct (unlockAt_cases city a (false, g)) as [E1 | [L1 E1]];
    rewrite E1; cbn in *;
    match goal with
    | |- context [unlockAt desert a ?s] =>
        destruct (unlockAt_cases desert a s) as [E2 | [L2 E2]]
    end;
    rewrite E2; cbn in *;
    match goal with
    | |- context [unlockAt forest a ?s] =>
        destruct (unlockAt_cases forest a s) as [E3 | [L3 E3]]
    end;
    rewrite E3; cbn in *;
    first
      [ left; reflexivity
      | right; split; [reflexivity | ];
        first
          [ exists city; split; [exact L1 | ]
          | exists desert; split; [exact L2 | ]
          | exists forest; split; [exact L3 | ] ];
        repeat first [apply unlock_self | apply unlock_monotone] ].
Qed.

(** With every crossed boundary unlocked, the check is the identity. *)
Lemma checkAndUnlockCheckpoints_nothing_to_unlock (g : Game) :
  (forall z, z <> runway ->
     zone_start (ZONES z) <= startingZ g + distance g ->
     checkpoints g z = true) ->
  checkAndUnlockCheckpoints g = (Returned tt, g).
Proof.
  intros H. unfold checkAndUnlockCheckpoints. run.
  rewrite (unlockAt_locked city), (unlockAt_locked desert),
    (unlockAt_locked forest); cbn; try reflexivity;
    intros Hle; apply H; try exact Hle; discriminate.
Qed.

(** C8. When every zone boundary the plane has crossed is already unlocked,
    the checkpoint check returns the globals as they were (coins, upgrade
    levels, checkpoints, the store and the log of saves included): nothing is
    saved.  Conversely, whenever the check saves, a checkpoint that was
    locked is unlocked afterwards. *)
Theorem checkAndUnlockCheckpoints_idempotent :
  forall g : Game,
    ((forall z, z <> runway ->
        zone_start (ZONES z) <= startingZ g + distance g ->
        checkpoints g z = true) ->
     checkAndUnlockCheckpoints g = (Returned tt, g)) /\
    (saves (snd (checkAndUnlockCheckpoints g)) <> saves g ->
     exists z, checkpoints g z = false /\
               checkpoints (snd (checkAndUnlockCheckpoints g)) z = true).
Proof.
  intros g. split.
  - apply checkAndUnlockCheckpoints_nothing_to_unlock.
  - unfold checkAndUnlockCheckpoints. run.
    destruct (unlockAt_chain (startingZ g + distance g) g)
      as [E | (Hfst & z & Hlocked & Hunlocked)]; cbv zeta in *.
    + rewrite E. cbn. intros Hs. contradiction Hs; reflexivity.
    + rewrite Hfst. intros _. exists z. split; [exact Hlocked | ].
      match goal with
      | |- checkpoints (snd (saveProgress ?s)) _ = _ =>
          destruct (saveProgress_frame s) as (_ & _ & _ & _ & Hc & _)
      end.
      rewrite Hc. exact Hunlocked.
Qed.

(** At 150 m with only the runway unlocked the check unlocks the city and
    saves once; run again on the result, it changes nothing. *)
Lemma checkAndUnlockCheckpoints_idempotent_witness :
  checkpoints (snd (checkAndUnlockCheckpoints (rollingAt 150 []))) city = true /\
  checkAndUnlockCheckpoints (snd (checkAndUnlockCheckpoints (rollingAt 150 [])))
    = (Returned tt, snd (checkAndUnlockCheckpoints (rollingAt 150 []))).
Proof.
  assert (E : checkAndUnlockCheckpoints (rollingAt 150 [])
              = (Returned tt,
                 afterSave (JNum 0)
                   (set_checkpoints (unlock city (checkpoints (rollingAt 150 [])))
                      (rollingAt 150 [])))).
  { unfold checkAndUnlockCheckpoints. run. unfold unlockAt. cbn.
    compare_reals. cbn. compare_reals. cbn.
    unfold saveProgress, getSavedHighestDistance. run. reflexivity. }
  rewrite E. cbn [snd]. split; [reflexivity | ].
  apply (checkAndUnlockCheckpoints_idempotent
           (afterSave (JNum 0)
              (set_checkpoints (unlock city (checkpoints (rollingAt 150 [])))
                 (rollingAt 150 [])))).
  intros z Hz. cbn. destruct z; cbn; try contradiction; try reflexivity; lra.
Defined.

(** ** The upgrade shop *)

Lemma purchaseUpgrade_blocked (key : UpgradeKey) (g : Game) :
  cannotAfford key g \/ requiresUnmet key g \/ atMaxTier key g ->
  purchaseUpgrade key g = (Returned tt, g).
Proof.
  intros H. unfold purchaseUpgrade. run.
  destruct (Nat.leb_spec (maxTier (UPGRADES key)) (upgrades g key)) as [Hmax | Hlt];
    [reflexivity | ].
  destruct (UPGRADES_next_tier key _ Hlt) as [next Hn]. rewrite Hn.
  destruct H as [(c & Hc & Hlow) | [(r & Hr & H0) | Hat]].
  - unfold nextCost in Hc. rewrite Hn in Hc. injection Hc as <-.
    apply Z.ltb_lt in Hlow. rewrite Hlow. reflexivity.
  - destruct (coins g <? cost next)%Z; [reflexivity | ].
    rewrite Hr, H0. reflexivity.
  - unfold atMaxTier in Hat. lia.
Qed.

(** When no guard returns, the purchase is the two assignments and a save. *)
Lemma purchaseUpgrade_bought (key : UpgradeKey) (g : Game) (next : UpgradeTier) :
  nth_error (tiers (UPGRADES key)) (upgrades g key) = Some next ->
  (upgrades g key < maxTier (UPGRADES key))%nat ->
  (cost next <= coins g)%Z ->
  (forall r, requires (UPGRADES key) = Some r -> upgrades g r <> 0%nat) ->
  purchaseUpgrade key g =
    saveProgress
      (set_upgrades (increment key (upgrades g))
         (set_coins (round64 (coins g - cost next)) g)).
Proof.
  intros Hn Hlt Hcost Hreq. unfold purchaseUpgrade. run.
  destruct (Nat.leb_spec (maxTier (UPGRADES key)) (upgrades g key)); [lia | ].
  rewrite Hn.
  destruct (Z.ltb_spec (coins g) (cost next)); [lia | ].
  destruct (requires (UPGRADES key)) as [r | ]; [ | reflexivity].
  destruct (Nat.eqb_spec (upgrades g r) 0) as [Hzero | _]; [ | reflexivity].
  exfalso. exact (Hreq r eq_refl Hzero).
Qed.

Lemma increment_self (key : UpgradeKey) (u : UpgradeKey -> nat) :
  increment key u key = S (u key).
Proof. unfold increment. destruct key; reflexivity. Qed.

Lemma increment_other (key k : UpgradeKey) (u : UpgradeKey -> nat) :
  k <> key -> increment key u k = u k.
Proof.
  intros Hne. unfold increment.
  destruct k, key; cbn; try reflexivity; contradiction Hne; reflexivity.
Qed.

(** Every tier of the catalogue has a positive cost. *)
Lemma UPGRADES_cost_pos (key : UpgradeKey) (i : nat) (next : UpgradeTier) :
  nth_error (tiers (UPGRADES key)) i = Some next -> (0 < cost next)%Z.
Proof.
  intros H. apply nth_error_In in H.
  destruct key; cbn in H;
    repeat (destruct H as [<- | H]; [cbn; lia | ]); contradiction.
Qed.

(** What a purchase leaves of a balance that covers the cost: the double
    nearest to the difference, which is the difference up to 2^53. *)
Lemma round64_purchase (c price : Z) :
  (0 < price <= c)%Z -> (c <= 2 ^ 53)%Z -> round64 (c - price) = (c - price)%Z.
Proof. intros H Hc. apply round64_small. lia. Qed.

(** C4. A purchase is a no-op when the coins are below the next tier's cost,
    when the required upgrade is at level 0, or at the last tier; in every
    other case (levels being tiers of the catalogue) it succeeds: it raises
    the tier and leaves as balance the double nearest to the coins less the
    cost, which is the coins less the cost up to 2^53, and it returns
    normally when the store can be read; a tier with a requirement leaves 0
    only when the required level is at least 1. *)
Theorem purchaseUpgrade_gating :
  forall (key : UpgradeKey) (g : Game),
    (cannotAfford key g \/ requiresUnmet key g \/ atMaxTier key g ->
     purchaseUpgrade key g = (Returned tt, g)) /\
    (levelsInRange g ->
     ~ (cannotAfford key g \/ requiresUnmet key g \/ atMaxTier key g) ->
     exists c,
       nextCost key (upgrades g key) = Some c /\
       coins (snd (purchaseUpgrade key g)) = round64 (coins g - c) /\
       ((coins g <= 2 ^ 53)%Z ->
        coins (snd (purchaseUpgrade key g)) = (coins g - c)%Z) /\
       upgrades (snd (purchaseUpgrade key g)) key = S (upgrades g key) /\
       (readable (localStorage g) = true ->
        fst (purchaseUpgrade key g) = Returned tt)) /\
    (forall r,
       requires (UPGRADES key) = Some r ->
       upgrades g key = 0%nat ->
       (0 < upgrades (snd (purchaseUpgrade key g)) key)%nat ->
       (1 <= upgrades g r)%nat).
Proof.
  intros key g. split; [apply purchaseUpgrade_blocked | split].
  - intros Hrange Hfree.
    assert (Hlt : (upgrades g key < maxTier (UPGRADES key))%nat).
    { specialize (Hrange key).
      assert (upgrades g key <> maxTier (UPGRADES key))
        by (intros E; apply Hfree; right; right; exact E).
      lia. }
    destruct (UPGRADES_next_tier key _ Hlt) as [next Hn].
    assert (Hcost : (cost next <= coins g)%Z).
    { destruct (Z.le_gt_cases (cost next) (coins g)) as [Hle | Hgt]; [exact Hle | ].
      exfalso. apply Hfree. left. exists (cost next). split; [ | lia].
      unfold nextCost. rewrite Hn. reflexivity. }
    assert (Hreq : forall r, requires (UPGRADES key) = Some r -> upgrades g r <> 0%nat).
    { intros r Hr Hzero. apply Hfree. right; left. exists r. split; assumption. }
    rewrite (purchaseUpgrade_bought key g next Hn Hlt Hcost Hreq).
    set (g1 := set_upgrades _ _).
    destruct (saveProgress_frame g1) as (_ & Hc & _ & Hu & _).
    exists (cost next). repeat split.
    + unfold nextCost. rewrite Hn. reflexivity.
    + rewrite Hc. reflexivity.
    + intros Hsmall. rewrite Hc. cbn.
      apply round64_purchase; [ | exact Hsmall].
      pose proof (UPGRADES_cost_pos key _ next Hn). lia.
    + rewrite Hu. cbn. apply increment_self.
    + intros Hr. destruct (saveProgress_readable g1 Hr) as [saved ->]. reflexivity.
  - intros r Hr H0 Hpos.
    unfold purchaseUpgrade in Hpos. revert Hpos. run.
    destruct (maxTier (UPGRADES key) <=? upgrades g key)%nat; cbn; [lia | ].
    destruct (nth_error (tiers (UPGRADES key)) (upgrades g key)) as [next | ];
      cbn; [ | lia].
    destruct (coins g <? cost next)%Z; cbn; [lia | ].
    rewrite Hr.
    destruct (Nat.eqb_spec (upgrades g r) 0); cbn; lia.
Qed.

(** C10, amended.  A purchase that passes the guards leaves as balance the
    double nearest to the coins less the cost of [tiers[level]], which is
    exactly the coins less the cost up to 2^53 and never more than the
    coins were; it raises exactly that key's tier by one, and leaves every
    other level, the checkpoints and the flight state (mode, position,
    velocity) as they were. *)
Theorem purchaseUpgrade_frame :
  forall (key : UpgradeKey) (g : Game) (next : UpgradeTier),
    nth_error (tiers (UPGRADES key)) (upgrades g key) = Some next ->
    (upgrades g key < maxTier (UPGRADES key))%nat ->
    (cost next <= coins g)%Z ->
    (forall r, requires (UPGRADES key) = Some r -> upgrades g r <> 0%nat) ->
    coins (snd (purchaseUpgrade key g)) = round64 (coins g - cost next) /\
    ((coins g <= 2 ^ 53)%Z ->
     coins (snd (purchaseUpgrade key g)) = (coins g - cost next)%Z) /\
    (binary64 (coins g) ->
     (coins (snd (purchaseUpgrade key g)) <= coins g)%Z) /\
    upgrades (snd (purchaseUpgrade key g)) key = S (upgrades g key) /\
    (forall k, k <> key ->
       upgrades (snd (purchaseUpgrade key g)) k = upgrades g k) /\
    checkpoints (snd (purchaseUpgrade key g)) = checkpoints g /\
    gameState (snd (purchaseUpgrade key g)) = gameState g /\
    plane_position (snd (purchaseUpgrade key g)) = plane_position g /\
    velocity (snd (purchaseUpgrade key g)) = velocity g.
Proof.
  intros key g next Hn Hlt Hcost Hreq.
  rewrite (purchaseUpgrade_bought key g next Hn Hlt Hcost Hreq).
  set (g1 := set_upgrades _ _).
  destruct (saveProgress_frame g1)
    as (Hs & Hc & _ & Hu & Hk & Hp & Hv & _).
  rewrite Hs, Hc, Hu, Hk, Hp, Hv. cbn.
  pose proof (UPGRADES_cost_pos key _ next Hn) as Hpos.
  repeat split.
  - intros Hsmall. apply round64_purchase; [lia | exact Hsmall].
  - intros Hd. apply round64_sub_le; [exact Hd | lia].
  - apply increment_self.
  - intros k Hne. apply increment_other. exact Hne.
Qed.

(** With 100 coins and nothing owned: the slingshot's first tier costs 50
    and is bought; the wheels, which require wings, are refused. *)
Lemma purchaseUpgrade_frame_witness :
  coins (snd (purchaseUpgrade slingshot (set_coins 100 (initialGame [])))) = 50%Z /\
  upgrades (snd (purchaseUpgrade slingshot (set_coins 100 (initialGame []))))
    slingshot = 1%nat /\
  gameState (snd (purchaseUpgrade slingshot (set_coins 100 (initialGame []))))
    = ready.
Proof.
  destruct (purchaseUpgrade_frame slingshot (set_coins 100 (initialGame []))
              (tier 50 [("power", 1.1)]))
    as (_ & Hc & _ & Hu & _ & _ & Hs & _).
  - reflexivity.
  - cbn. lia.
  - cbn. lia.
  - intros r Hr. discriminate Hr.
  - rewrite Hc, Hu, Hs by (cbn; lia). repeat split.
Defined.

Lemma purchaseUpgrade_gating_witness :
  purchaseUpgrade wheels (set_coins 200 (initialGame []))
    = (Returned tt, set_coins 200 (initialGame [])) /\
  coins (snd (purchaseUpgrade wings (set_coins 200 (initialGame [])))) = 100%Z.
Proof.
  split.
  - apply (purchaseUpgrade_gating wheels (set_coins 200 (initialGame []))).
    right; left. exists wings. split; reflexivity.
  - destruct (purchaseUpgrade_gating wings (set_coins 200 (initialGame [])))
      as (_ & Hbuy & _).
    destruct Hbuy as (c & Hc & _ & Hcoins & _).
    + intros k. destruct k; cbn; lia.
    + intros [(c & Hc & Hlow) | [(r & Hr & _) | Hmax]].
      * cbn in Hc. injection Hc as <-. cbn in Hlow. lia.
      * discriminate Hr.
      * discriminate Hmax.
    + cbn in Hc. injection Hc as <-. rewrite Hcoins by (cbn; lia).
      reflexivity.
Defined.

(** C10, as stated, fails: on the balance a victory at [farAway] leaves,
    the first tier of the wings, which costs 100, is bought and the balance
    is what it was. *)
Lemma purchase_cost_absorbed :
  nextCost wings (upgrades (set_coins farAway (initialGame [])) wings)
    = Some 100%Z /\
  upgrades (snd (purchaseUpgrade wings (set_coins farAway (initialGame []))))
    wings = 1%nat /\
  coins (snd (purchaseUpgrade wings (set_coins farAway (initialGame []))))
    = farAway /\
  coins (snd (purchaseUpgrade wings (set_coins farAway (initialGame []))))
    <> (farAway - 100)%Z.
Proof.
  destruct farAway_absorbs as (_ & _ & _ & Hsub & _).
  assert (E : coins (snd (purchaseUpgrade wings
                            (set_coins farAway (initialGame [])))) = farAway).
  { erewrite purchaseUpgrade_bought;
      [ | reflexivity | cbn; lia | cbn; unfold farAway; lia
        | intros r Hr; discriminate Hr].
    set (g1 := set_upgrades _ _).
    destruct (saveProgress_frame g1) as (_ & Hc & _).
    rewrite Hc. cbn. exact Hsub. }
  split; [reflexivity | ]. split.
  - erewrite purchaseUpgrade_bought;
      [ | reflexivity | cbn; lia | cbn; unfold farAway; lia
        | intros r Hr; discriminate Hr].
    set (g1 := set_upgrades _ _).
    destruct (saveProgress_frame g1) as (_ & _ & _ & Hu & _).
    rewrite Hu. reflexivity.
  - split; [exact E | rewrite E; lia].
Qed.

(** ** Loading *)






(** ** Slingshot input *)

Ltac case_tierStat :=
  repeat match goal with
         | |- context [tierStat ?k ?l ?s] => destruct (tierStat k l s); cbn
         end.

Lemma launch_gameState (rnd : R) (g : Game) :
  gameState (snd (launch rnd g)) = flying.
Proof.
  unfold launch. run.
  destruct (upgrades g slingshot), (upgrades g boosters); cbn;
    case_tierStat; reflexivity.
Qed.

Lemma tierStat_in_range (k : UpgradeKey) (level : nat) (stat : string) :
  (0 < level <= maxTier (UPGRADES k))%nat ->
  exists v, tierStat k level stat = Returned v.
Proof.
  intros H. unfold tierStat.
  destruct (UPGRADES_next_tier k (level - 1)) as [t Ht]; [lia | ].
  rewrite Ht. eauto.
Qed.

Lemma launch_returns (rnd : R) (g : Game) :
  levelsInRange g -> fst (launch rnd g) = Returned tt.
Proof.
  intros Hrange. unfold launch. run.
  pose proof (Hrange slingshot) as Hs. pose proof (Hrange boosters) as Hb.
  destruct (upgrades g slingshot) as [ | s] eqn:Es;
    destruct (upgrades g boosters) as [ | b] eqn:Eb; cbn;
    try (destruct (tierStat_in_range slingshot (S s) "power") as [v ->];
         [lia | cbn]);
    try (destruct (tierStat_in_range boosters (S b) "uses") as [u ->];
         [lia | cbn]);
    reflexivity.
Qed.

(** A release while pulling is the reset or [launch], by [pullDistance]. *)
Lemma onMouseUp_pulling (rnd : R) (g : Game) :
  gameState g = pulling ->
  isDragging g = true ->
  onMouseUp rnd g
  = if pullDistance g <? MIN_PULL_DISTANCE
    then (Returned tt,
          set_gameState ready (resetPlanePosition (set_isDragging false g)))
    else launch rnd (set_isDragging false g).
Proof.
  intros Hs Hd. unfold onMouseUp. run. rewrite Hs, Hd. cbn.
  destruct (pullDistance g <? MIN_PULL_DISTANCE); reflexivity.
Qed.

(** C5. Releasing the drag while pulling: with [pullDistance] at or above
    [MIN_PULL_DISTANCE] the release is [launch] and the state is flying;
    strictly below, the plane is put back, [pullDistance] is 0, the state is
    ready, and nothing of [launch] has happened. *)
Theorem onMouseUp_launch_minimum :
  forall (rnd : R) (g : Game),
    gameState g = pulling ->
    isDragging g = true ->
    (MIN_PULL_DISTANCE <= pullDistance g ->
     onMouseUp rnd g = launch rnd (set_isDragging false g) /\
     gameState (snd (onMouseUp rnd g)) = flying /\
     (levelsInRange g -> fst (onMouseUp rnd g) = Returned tt)) /\
    (pullDistance g < MIN_PULL_DISTANCE ->
     onMouseUp rnd g
       = (Returned tt,
          set_gameState ready (resetPlanePosition (set_isDragging false g))) /\
     gameState (snd (onMouseUp rnd g)) = ready /\
     pullDistance (snd (onMouseUp rnd g)) = 0 /\
     velocity (snd (onMouseUp rnd g)) = velocity g).
Proof.
  intros rnd g Hs Hd.
  pose proof (onMouseUp_pulling rnd g Hs Hd) as Hup. split.
  - intros Hge. rewrite Hup, (Rltb_false _ _ Hge).
    split; [reflexivity | split].
    + apply launch_gameState.
    + intros Hrange. apply launch_returns. exact Hrange.
  - intros Hlt. rewrite Hup, (Rltb_true _ _ Hlt).
    repeat split.
Qed.

(** A drag started on a fresh game: released at exactly
    [MIN_PULL_DISTANCE] it launches; released at 0.4 it resets. *)
Lemma onMouseUp_launch_minimum_witness :
  gameState (snd (onMouseUp 0.5
                    (set_pullDistance MIN_PULL_DISTANCE
                       (onMouseDown 400 300 (initialGame []))))) = flying /\
  gameState (snd (onMouseUp 0.5
                    (set_pullDistance 0.4
                       (onMouseDown 400 300 (initialGame []))))) = ready.
Proof.
  split.
  - apply (onMouseUp_launch_minimum 0.5
             (set_pullDistance MIN_PULL_DISTANCE
                (onMouseDown 400 300 (initialGame [])))).
    + reflexivity.
    + reflexivity.
    + cbn. lra.
  - apply (onMouseUp_launch_minimum 0.5
             (set_pullDistance 0.4 (onMouseDown 400 300 (initialGame [])))).
    + reflexivity.
    + reflexivity.
    + cbn. unfold MIN_PULL_DISTANCE. lra.
Defined.

(** The launch angle after a drag move: the old one when the drag is short
    or the move is ignored, else 0.5 plus 0.4 times the clamped horizontal
    influence. *)
Lemma onMouseMove_launchAngle (x y : R) (g : Game) :
  launchAngle (onMouseMove x y g) = launchAngle g \/
  exists influence,
    -1 <= influence <= 1 /\
    launchAngle (onMouseMove x y g) = 0.5 + influence * 0.4.
Proof.
  unfold onMouseMove.
  destruct (negb (isDragging g) || negb (GameState_eqb (gameState g) pulling));
    [left; reflexivity | ].
  cbn.
  match goal with
  | |- context [if ?c then _ else _] => destruct c
  end; cbn; [right | left; reflexivity].
  eexists. split; [ | reflexivity].
  rcases; lra.
Qed.

(** C6, amended.  Through any drag move the launch angle parameter stays
    within [0.1, 0.9]; the angle in degrees is [15 + launchAngle * 50]; it
    lies within [20, 60], hence within [15, 65]; and every angle of [20, 60]
    is reached by some drag. *)
Theorem onMouseMove_angle_range :
  forall (x y : R) (g : Game),
    0.1 <= launchAngle g <= 0.9 ->
    0.1 <= launchAngle (onMouseMove x y g) <= 0.9 /\
    angleDegrees (launchAngle (onMouseMove x y g))
      = 15 + launchAngle (onMouseMove x y g) * 50 /\
    20 <= angleDegrees (launchAngle (onMouseMove x y g)) <= 60 /\
    15 <= angleDegrees (launchAngle (onMouseMove x y g)) <= 65 /\
    (gameState g = pulling -> isDragging g = true ->
     forall theta, 20 <= theta <= 60 ->
       exists x' y', angleDegrees (launchAngle (onMouseMove x' y' g)) = theta).
Proof.
  intros x y g Hg.
  assert (Ha : 0.1 <= launchAngle (onMouseMove x y g) <= 0.9).
  { destruct (onMouseMove_launchAngle x y g) as [-> | (i & Hi & ->)]; lra. }
  unfold angleDegrees.
  split; [exact Ha | split; [reflexivity | split; [lra | split; [lra | ]]]].
  intros Hs Hd theta Ht.
  exists (x2 (pullStart g) - (theta - 40) * 10), (y2 (pullStart g) + 11).
  unfold onMouseMove. rewrite Hs, Hd. cbn.
  set (dx := x2 (pullStart g) - (theta - 40) * 10 - x2 (pullStart g)).
  set (dy := y2 (pullStart g) + 11 - y2 (pullStart g)).
  assert (Hdrag : 10 < sqrt (dx * dx + dy * dy)).
  { apply Rlt_le_trans with (sqrt (11 * 11)).
    - rewrite sqrt_square; lra.
    - apply sqrt_le_1_alt.
      assert (Hdy : dy = 11) by (unfold dy; lra).
      pose proof (Rle_0_sqr dx) as Hdx. unfold Rsqr in Hdx.
      rewrite Hdy. lra. }
  rewrite (Rltb_true _ _ Hdrag). cbn.
  subst dx. rcases; lra.
Qed.

Lemma onMouseMove_angle_range_witness :
  20 <= angleDegrees
          (launchAngle (onMouseMove 100 500 (onMouseDown 400 300 (initialGame []))))
     <= 60.
Proof.
  apply (onMouseMove_angle_range 100 500 (onMouseDown 400 300 (initialGame []))).
  cbn. lra.
Defined.

(** C6, as stated, fails in its last part: no drag gives an angle below 20
    or above 60 degrees, so 15 and 65 degrees are not achievable. *)
Lemma launch_angle_15_and_65_unreachable :
  ~ (exists x y g,
       0.1 <= launchAngle g <= 0.9 /\
       (angleDegrees (launchAngle (onMouseMove x y g)) = 15 \/
        angleDegrees (launchAngle (onMouseMove x y g)) = 65)).
Proof.
  intros (x & y & g & Hg & H).
  unfold angleDegrees in H.
  destruct (onMouseMove_launchAngle x y g) as [E | (i & Hi & E)];
    rewrite E in H; lra.
Qed.

(** ** Settlement *)

Lemma crash_readable (g : Game) :
  readable (localStorage g) = true ->
  exists saved, crash g = (Returned tt, afterCrash saved g).
Proof.
  intros Hr. unfold crash. run.
  set (g1 := set_coins _ _).
  destruct (saveProgress_readable g1 Hr) as [saved Hs].
  exists saved. rewrite Hs. reflexivity.
Qed.

Lemma victory_readable (g : Game) :
  readable (localStorage g) = true ->
  exists saved, victory g = (Returned tt, afterVictory saved g).
Proof.
  intros Hr. unfold victory. run.
  set (g1 := set_coins _ _).
  destruct (saveProgress_readable g1 Hr) as [saved Hs].
  exists saved. rewrite Hs. reflexivity.
Qed.

Lemma sameMotion_refl (g : Game) : sameMotion g g.
Proof. repeat split. Qed.

Lemma sameMotion_trans (g1 g2 g3 : Game) :
  sameMotion g1 g2 -> sameMotion g2 g3 -> sameMotion g1 g3.
Proof.
  unfold sameMotion. intros (A1 & A2 & A3 & A4 & A5) (B1 & B2 & B3 & B4 & B5).
  repeat split; congruence.
Qed.

Lemma afterSave_sameMotion (saved : jsval) (g : Game) :
  sameMotion g (afterSave saved g).
Proof. repeat split. Qed.

Lemma afterCrash_sameMotion (saved : jsval) (g : Game) :
  sameMotion g (afterCrash saved g).
Proof. repeat split. Qed.

Lemma afterVictory_sameMotion (saved : jsval) (g : Game) :
  sameMotion g (afterVictory saved g).
Proof. repeat split. Qed.

(** The checkpoint check, on a readable store: it returns, and changes only
    the checkpoints, the store and the log. *)
Lemma checkAndUnlockCheckpoints_readable (g : Game) :
  readable (localStorage g) = true ->
  exists g',
    checkAndUnlockCheckpoints g = (Returned tt, g') /\
    readable (localStorage g') = true /\
    sameMotion g g' /\
    gameState g' = gameState g /\ coins g' = coins g /\
    obstacles g' = obstacles g /\ upgrades g' = upgrades g /\
    settlements g' = settlements g.
Proof.
  intros Hr. unfold checkAndUnlockCheckpoints. run.
  set (a := startingZ g + distance g).
  set (s := unlockAt forest a (unlockAt desert a (unlockAt city a (false, g)))).
  assert (Hs : readable (localStorage (snd s)) = true /\
               sameMotion g (snd s) /\
               gameState (snd s) = gameState g /\ coins (snd s) = coins g /\
               obstacles (snd s) = obstacles g /\ upgrades (snd s) = upgrades g /\
               settlements (snd s) = settlements g).
  { subst s.
    destruct (unlockAt_cases city a (false, g)) as [E1 | [_ E1]];
      rewrite E1; cbn;
      match goal with
      | |- context [unlockAt desert a ?s] =>
          destruct (unlockAt_cases desert a s) as [E2 | [_ E2]]
      end;
      rewrite E2; cbn;
      match goal with
      | |- context [unlockAt forest a ?s] =>
          destruct (unlockAt_cases forest a s) as [E3 | [_ E3]]
      end;
      rewrite E3; cbn; repeat split; exact Hr. }
  destruct Hs as (Hr' & Hm & Hg & Hc & Ho & Hu & Hl).
  destruct (fst s).
  - destruct (saveProgress_readable (snd s) Hr') as [saved ->].
    exists (afterSave saved (snd s)). repeat split; try apply Hm; assumption.
  - exists (snd s). repeat split; try apply Hm; assumption.
Qed.

(** ** The tick *)

Lemma sameProgress_refl (g : Game) : sameProgress g g.
Proof. repeat split. Qed.

Lemma sameProgress_trans (g1 g2 g3 : Game) :
  sameProgress g1 g2 -> sameProgress g2 g3 -> sameProgress g1 g3.
Proof.
  unfold sameProgress.
  intros (A1 & A2 & A3 & A4 & A5 & A6 & A7 & A8 & A9 & A10 & A11)
         (B1 & B2 & B3 & B4 & B5 & B6 & B7 & B8 & B9 & B10 & B11).
  repeat split; congruence.
Qed.

Ltac split_ifs :=
  repeat match goal with
         | |- context [match ?c with _ => _ end] => destruct c
         end.

Lemma applyControls_sameProgress (dt : R) (g : Game) :
  sameProgress g (applyControls dt g).
Proof. unfold applyControls. split_ifs; repeat split. Qed.

Lemma applyLift_sameProgress (dt : R) (g : Game) :
  sameProgress g (applyLift dt g).
Proof. unfold applyLift. split_ifs; repeat split. Qed.

Lemma updateRotation_sameProgress (dt : R) (g : Game) :
  sameProgress g (updateRotation dt g).
Proof. unfold updateRotation. split_ifs; repeat split. Qed.

Lemma groundCollision_sameProgress (rnd : R) (g : Game) :
  sameProgress g (groundCollision rnd g).
Proof. unfold groundCollision. split_ifs; repeat split. Qed.

(** The integration moves the plane and touches nothing of the progress,
    the store or the log. *)
Lemma integrate_sameProgress (dt rnd : R) (g : Game) :
  sameProgress g (integrate dt rnd g).
Proof.
  unfold integrate.
  eapply sameProgress_trans; [apply applyControls_sameProgress | ].
  eapply sameProgress_trans; [apply sameProgress_refl | ].
  set (g1 := applyGravity dt _).
  assert (H1 : sameProgress (applyControls dt g) g1) by (repeat split).
  eapply sameProgress_trans; [exact H1 | ].
  eapply sameProgress_trans; [apply applyLift_sameProgress | ].
  set (g2 := applyDrag dt _).
  assert (H2 : sameProgress (applyLift dt g1) g2) by (repeat split).
  eapply sameProgress_trans; [exact H2 | ].
  set (g3 := updatePosition dt g2).
  assert (H3 : sameProgress g2 g3) by (repeat split).
  eapply sameProgress_trans; [exact H3 | ].
  eapply sameProgress_trans; [apply updateRotation_sameProgress | ].
  eapply sameProgress_trans; [apply groundCollision_sameProgress | ].
  repeat split.
Qed.

Section Tick.

Variable planeBounds : Vector3 -> Vector3 -> (UpgradeKey -> nat) -> Box3.

(** The checks that follow the integration, in the order of [updatePhysics]. *)
Lemma updatePhysics_flying (dt rnd : R) (g : Game) :
  gameState g = flying ->
  updatePhysics planeBounds dt rnd g =
    (checkAndUnlockCheckpoints;;
     checkObstacleCollisions planeBounds;;
     g' <- get;;
     if 6000 <=? vz (plane_position g') then victory
     else g'' <- get;; when (stopped g'') crash) (integrate dt rnd g).
Proof.
  intros Hs. unfold updatePhysics.
  unfold bind at 1. unfold get at 1. rewrite Hs. reflexivity.
Qed.

(** Once the state is not flying, a tick does nothing. *)
Lemma updatePhysics_not_flying (dt rnd : R) (g : Game) :
  gameState g <> flying ->
  updatePhysics planeBounds dt rnd g = (Returned tt, g).
Proof.
  intros Hs. unfold updatePhysics. run.
  destruct (gameState g); try reflexivity. contradiction Hs; reflexivity.
Qed.

(** The collision check on a readable store: it returns; either nothing was
    hit and the globals are as before, or the first obstacle hit is logged
    and [crash] has run. *)
Lemma checkObstacleCollisions_readable (g : Game) :
  readable (localStorage g) = true ->
  gameState g = flying ->
  match firstHit (planeBox planeBounds g) (vz (plane_position g)) (obstacles g) with
  | None => checkObstacleCollisions planeBounds g = (Returned tt, g)
  | Some obstacle =>
      exists saved,
        checkObstacleCollisions planeBounds g =
          (Returned tt,
           afterCrash saved
             (set_log (ConsoleLog ("Crashed into " ++ type obstacle ++ "!") :: log g) g))
  end.
Proof.
  intros Hr Hs. unfold checkObstacleCollisions. run. rewrite Hs. cbn.
  destruct (firstHit _ _ _) as [obstacle | ]; [ | reflexivity].
  unfold handleCollision. run.
  set (g1 := set_log _ g).
  destruct (crash_readable g1 Hr) as [saved Hc].
  exists saved. exact Hc.
Qed.

(** After the integration, the two checks that precede the victory test
    return on a readable store, keep it readable, and leave position,
    velocity and run distance alone. *)
Lemma checks_before_victory (g1 : Game) :
  readable (localStorage g1) = true ->
  gameState g1 = flying ->
  exists g2,
    (checkAndUnlockCheckpoints;; checkObstacleCollisions planeBounds) g1
      = (Returned tt, g2) /\
    readable (localStorage g2) = true /\
    sameMotion g1 g2.
Proof.
  intros Hr Hs.
  destruct (checkAndUnlockCheckpoints_readable g1 Hr)
    as (g1' & E & Hr' & Hm & Hs' & _).
  rewrite Hs in Hs'.
  pose proof (checkObstacleCollisions_readable g1' Hr' Hs') as Hc.
  unfold bind at 1. rewrite E.
  destruct (firstHit _ _ _) as [obstacle | ].
  - destruct Hc as [saved Hc]. rewrite Hc. eexists. split; [reflexivity | ].
    split; [reflexivity | ].
    eapply sameMotion_trans; [exact Hm | ]. repeat split.
  - rewrite Hc. exists g1'. repeat split; try apply Hm. exact Hr'.
Qed.

(** A tick that brings the flying plane to z >= 6000 ends in [victory], on
    the globals [g2] the checks have left of the integration; [crash] would
    return on them as well. *)
Lemma updatePhysics_victory (dt rnd : R) (g : Game) :
  gameState g = flying ->
  readable (localStorage g) = true ->
  6000 <= vz (plane_position (integrate dt rnd g)) ->
  exists g2 saved saved',
    updatePhysics planeBounds dt rnd g = (Returned tt, afterVictory saved g2) /\
    sameMotion (integrate dt rnd g) g2 /\
    crash g2 = (Returned tt, afterCrash saved' g2).
Proof.
  intros Hs Hr Hz.
  rewrite (updatePhysics_flying dt rnd g Hs).
  destruct (integrate_sameProgress dt rnd g)
    as (Hs1 & _ & _ & _ & _ & _ & Hst & _ & _).
  remember (integrate dt rnd g) as g1 eqn:Eg1. clear Eg1.
  rewrite Hs in Hs1. rewrite <- Hst in Hr.
  destruct (checks_before_victory g1 Hr Hs1) as (g2 & E & Hr2 & Hm).
  destruct (victory_readable g2 Hr2) as [saved Hv].
  destruct (crash_readable g2 Hr2) as [saved' Hc].
  exists g2, saved, saved'.
  assert (Hz2 : 6000 <= vz (plane_position g2)).
  { destruct Hm as (_ & Hp & _). rewrite Hp. exact Hz. }
  split; [ | split; [exact Hm | exact Hc]].
  unfold bind at 1. unfold bind at 1 in E.
  destruct (checkAndUnlockCheckpoints g1) as [[[] | e] g1'];
    [ | discriminate].
  unfold bind at 1. rewrite E.
  unfold bind, get. rewrite (Rleb_true _ _ Hz2). exact Hv.
Qed.

(** C7, amended.  A tick that brings the flying plane to z >= 6000 ends in
    [victory]: the state is crashed for good, the coins earned, shown on the
    overlay and added to the balance, are the double nearest to the floor
    of the run distance plus 10000; [crash] at the same run distance earns
    the floor alone.  Up to 2^53 the sum is exact and strictly more than
    the floor; beyond, the bonus may be lost in the rounding, and the coins
    earned are never less than the floor when the floor is a double. *)
Theorem victory_settlement :
  forall (dt rnd : R) (g : Game),
    gameState g = flying ->
    readable (localStorage g) = true ->
    6000 <= vz (plane_position (integrate dt rnd g)) ->
    exists g2 saved,
      updatePhysics planeBounds dt rnd g = (Returned tt, afterVictory saved g2) /\
      sameMotion (integrate dt rnd g) g2 /\
      gameState (afterVictory saved g2) = crashed /\
      (forall dt' rnd',
         updatePhysics planeBounds dt' rnd' (afterVictory saved g2)
           = (Returned tt, afterVictory saved g2)) /\
      coins (afterVictory saved g2)
        = round64 (coins g2 + round64 (Math_floor (distance g2) + 10000)) /\
      hd_error (log (afterVictory saved g2))
        = Some (VictoryOverlay (round64 (Math_floor (distance g2) + 10000))) /\
      (exists saved',
         crash g2 = (Returned tt, afterCrash saved' g2) /\
         coins (afterCrash saved' g2)
           = round64 (coins g2 + Math_floor (distance g2)) /\
         hd_error (log (afterCrash saved' g2))
           = Some (CrashOverlay (Math_floor (distance g2))
                     (Math_floor (distance g2)))) /\
      ((Math_floor (distance g2) + 10000 <= 2 ^ 53)%Z ->
       round64 (Math_floor (distance g2) + 10000)
         = (Math_floor (distance g2) + 10000)%Z /\
       (Math_floor (distance g2)
        < round64 (Math_floor (distance g2) + 10000))%Z) /\
      (binary64 (Math_floor (distance g2)) ->
       (Math_floor (distance g2)
        <= round64 (Math_floor (distance g2) + 10000))%Z).
Proof.
  intros dt rnd g Hs Hr Hz.
  destruct (updatePhysics_victory dt rnd g Hs Hr Hz)
    as (g2 & saved & saved' & E & Hm & Hc).
  assert (Hd : (0 <= Math_floor (distance g2))%Z).
  { apply Math_floor_nonneg. destruct Hm as (-> & _).
    unfold integrate, updateDistance. cbn. apply Rmax_l. }
  exists g2, saved.
  split; [exact E | ].
  split; [exact Hm | ].
  split; [reflexivity | ].
  split; [intros dt' rnd'; apply updatePhysics_not_flying; discriminate | ].
  split; [reflexivity | ].
  split; [reflexivity | ].
  split; [exists saved'; repeat split; exact Hc | ].
  split.
  - intros Hsmall. rewrite round64_small by lia. split; [reflexivity | lia].
  - intros Hdouble. apply round64_add_le; [exact Hdouble | lia].
Qed.

(** Where [updatePhysics] goes on after a collision: when the check has
    found an obstacle, the plane is short of 6000 and the stop test holds,
    [crash] runs a second time in the same tick. *)
Lemma collision_then_stop_check (dt rnd : R) (g : Game) (obstacle : Obstacle) :
  gameState g = flying ->
  readable (localStorage g) = true ->
  (forall z, z <> runway ->
     zone_start (ZONES z)
       <= startingZ (integrate dt rnd g) + distance (integrate dt rnd g) ->
     checkpoints (integrate dt rnd g) z = true) ->
  firstHit (planeBox planeBounds (integrate dt rnd g))
    (vz (plane_position (integrate dt rnd g)))
    (obstacles (integrate dt rnd g)) = Some obstacle ->
  vz (plane_position (integrate dt rnd g)) < 6000 ->
  stopped (integrate dt rnd g) = true ->
  exists saved saved',
    updatePhysics planeBounds dt rnd g =
      (Returned tt,
       afterCrash saved'
         (afterCrash saved
            (set_log (ConsoleLog ("Crashed into " ++ type obstacle ++ "!")
                        :: log (integrate dt rnd g))
               (integrate dt rnd g)))).
Proof.
  intros Hs Hr Hcp Hhit Hz Hstop.
  rewrite (updatePhysics_flying dt rnd g Hs).
  destruct (integrate_sameProgress dt rnd g)
    as (Hs1 & _ & _ & _ & _ & _ & Hst & _ & _).
  remember (integrate dt rnd g) as g1 eqn:Eg1. clear Eg1.
  rewrite Hs in Hs1. rewrite <- Hst in Hr.
  pose proof (checkAndUnlockCheckpoints_nothing_to_unlock g1) as Hsame.
  pose proof (checkObstacleCollisions_readable g1 Hr Hs1) as Hc.
  rewrite Hhit in Hc. destruct Hc as [saved Hc].
  set (g2 := afterCrash saved _) in Hc.
  destruct (crash_readable g2 eq_refl) as [saved' Hc'].
  exists saved, saved'.
  unfold bind at 1. rewrite (Hsame Hcp).
  unfold bind at 1. rewrite Hc.
  unfold bind, get, when.
  assert (Ez : vz (plane_position g2) = vz (plane_position g1)) by reflexivity.
  rewrite Ez, (Rleb_false _ _ Hz).
  assert (Es : stopped g2 = stopped g1) by reflexivity.
  rewrite Es, Hstop. exact Hc'.
Qed.

(** X3. What does hold after a collision: the tick returns in state
    crashed, with the position, the velocity and the run distance the
    integration left; one settlement has been added, or two. *)
Lemma collision_ends_flight (dt rnd : R) (g : Game) (obstacle : Obstacle) :
  gameState g = flying ->
  readable (localStorage g) = true ->
  firstHit (planeBox planeBounds (integrate dt rnd g))
    (vz (plane_position (integrate dt rnd g)))
    (obstacles (integrate dt rnd g)) = Some obstacle ->
  exists g',
    updatePhysics planeBounds dt rnd g = (Returned tt, g') /\
    gameState g' = crashed /\
    sameMotion (integrate dt rnd g) g' /\
    (List.length (settlements g')
     = S (List.length (settlements (integrate dt rnd g))) \/
     List.length (settlements g')
     = S (S (List.length (settlements (integrate dt rnd g))))).
Proof.
  intros Hs Hr Hhit.
  rewrite (updatePhysics_flying dt rnd g Hs).
  destruct (integrate_sameProgress dt rnd g)
    as (Hs1 & _ & _ & _ & _ & _ & Hst & _).
  remember (integrate dt rnd g) as g1 eqn:Eg1. clear Eg1.
  rewrite Hs in Hs1. rewrite <- Hst in Hr.
  destruct (checkAndUnlockCheckpoints_readable g1 Hr)
    as (g1' & E & Hr' & Hm & Hs' & _ & Hobs & Hup & Hset).
  rewrite Hs1 in Hs'.
  pose proof (checkObstacleCollisions_readable g1' Hr' Hs') as Hc.
  destruct Hm as (Hd & Hp & Hv & Hrot & Hav).
  unfold planeBox in Hc. rewrite Hp, Hrot, Hup, Hobs in Hc.
  unfold planeBox in Hhit. rewrite Hhit in Hc. destruct Hc as [saved Hc].
  set (g2 := afterCrash saved _) in Hc.
  destruct (victory_readable g2 eq_refl) as [sv Hvic].
  destruct (crash_readable g2 eq_refl) as [sc Hcr].
  unfold bind at 1. rewrite E. unfold bind at 1. rewrite Hc.
  unfold bind, get, when.
  assert (Hset2 : settlements g2
                  = CrashOverlay (Math_floor (distance g1')) (Math_floor (distance g1'))
                      :: settlements g1).
  { rewrite <- Hset. reflexivity. }
  destruct (6000 <=? vz (plane_position g2)); [ | destruct (stopped g2)].
  - rewrite Hvic. eexists. split; [reflexivity | ]. split; [reflexivity | ].
    split; [repeat split; assumption | ].
    right. unfold afterVictory, afterSave, settlements. cbn.
    fold (settlements g1'). rewrite Hset. reflexivity.
  - rewrite Hcr. eexists. split; [reflexivity | ]. split; [reflexivity | ].
    split; [repeat split; assumption | ].
    right. unfold afterCrash, afterSave, settlements. cbn.
    fold (settlements g1'). rewrite Hset. reflexivity.
  - eexists. split; [reflexivity | ]. split; [reflexivity | ].
    split; [repeat split; assumption | ].
    left. rewrite Hset2. reflexivity.
Qed.

End Tick.

(** ** A worked tick: the bare plane rolling on the ground *)

Ltac step_through :=
  cbv [integrate applyControls applyGravity applyLift applyDrag updatePosition
       updateRotation groundCollision updateDistance stats has
       over_velocity over_angularVelocity over_position over_rotation
       map_x map_y map_z set_x set_y set_z add multiplyScalar
       set_velocity set_plane_position set_distance set_gameState
       set_plane_rotation set_angularVelocity set_highestDistanceThisRun
       gameState coins distance boosterUsesRemaining upgrades checkpoints
       currentCheckpoint highestDistanceThisRun startingZ keys plane_position
       plane_rotation boosterActive boosterTimer obstacles velocity
       angularVelocity isDragging pullDistance launchAngle pullStart
       pullCurrent slingshotPosition lastTime localStorage log
       k_left k_right k_up k_down k_boost vx vy vz
       rollingIntoWorker rollingAt initialGame Nat.ltb Nat.leb negb andb orb].

(** Gravity and drag over 20 ms, from 0.5 m/s along z. *)
Lemma dragStep_rolling :
  dragStep None (1 / 50) (vec3 0 (0 + GRAVITY * (1 / 50)) 0.5)
  = vec3 0 (-0.3999344) 0.499918.
Proof.
  set (v := vec3 0 (0 + GRAVITY * (1 / 50)) 0.5).
  assert (Hl : length v * length v = 0.41).
  { rewrite length_sqr. cbn. constants. lra. }
  assert (Hp : 0 < length v).
  { pose proof (length_nonneg v). nra. }
  unfold dragStep. rewrite (Rltb_true _ _ Hp).
  unfold dragFactor. rewrite Hl. unfold multiplyScalar. cbn. constants.
  f_equal; lra.
Qed.

(** One tick of 20 ms: the plane stays on the ground, advances by a
    centimeter and slows to 0.49 m/s; nothing else changes. *)
Lemma integrate_rolling (z rnd : R) (obs : list Obstacle) :
  0 <= z ->
  velocity (integrate (1 / 50) rnd (rollingAt z obs)) = vec3 0 0 0.48991964 /\
  plane_position (integrate (1 / 50) rnd (rollingAt z obs))
    = vec3 0 0.15 (z + 0.00999836) /\
  plane_rotation (integrate (1 / 50) rnd (rollingAt z obs)) = vec3 0 0 0 /\
  distance (integrate (1 / 50) rnd (rollingAt z obs)) = z + 0.00999836.
Proof.
  intros Hz.
  repeat split; step_through; rewrite dragStep_rolling; compare_reals; cbn;
    constants; rcases; try (f_equal; lra); lra.
Qed.

Lemma Math_floor_rolling : Math_floor (50 + 0.00999836) = 50%Z.
Proof. apply Math_floor_spec. lra. Qed.

(** After that tick the nose of the plane is inside the worker's box. *)
Lemma rolling_hits_worker :
  firstHit (planeBox barePlaneBounds (integrate (1 / 50) 0 rollingIntoWorker))
    (vz (plane_position (integrate (1 / 50) 0 rollingIntoWorker)))
    (obstacles (integrate (1 / 50) 0 rollingIntoWorker)) = Some worker.
Proof.
  destruct (integrate_rolling 50 0 [worker]) as (_ & Hp & Hrot & _); [lra | ].
  destruct (integrate_sameProgress (1 / 50) 0 rollingIntoWorker)
    as (_ & _ & Hup & _ & Hobs & _).
  fold rollingIntoWorker in Hp, Hrot.
  unfold planeBox. rewrite Hp, Hrot, Hup, Hobs. cbn.
  replace (Math_abs (51.855 - (50 + 0.00999836))) with 1.84500164
    by (unfold Math_abs; rewrite Rabs_pos_eq; lra).
  unfold intersectsBox. cbn. compare_reals. reflexivity.
Qed.

(** C2, on the code: a plane that rolls into a worker while slower than the
    stop threshold is settled twice in that tick.  The collision check calls
    [crash], [updatePhysics] goes on to its stop test, and [crash] runs
    again: two overlays, two saves, 100 coins for a run of 50 m. *)
Theorem collision_does_not_end_the_tick :
  exists g',
    updatePhysics barePlaneBounds (1 / 50) 0 rollingIntoWorker = (Returned tt, g') /\
    gameState g' = crashed /\
    Math_floor (distance g') = 50%Z /\
    coins g' = 100%Z /\
    settlements g' = [CrashOverlay 50 50; CrashOverlay 50 50] /\
    saves g' = 2%nat.
Proof.
  destruct (integrate_rolling 50 0 [worker]) as (Hv & Hp & Hrot & Hd); [lra | ].
  destruct (integrate_sameProgress (1 / 50) 0 rollingIntoWorker)
    as (_ & Hcoins & Hup & Hcp & Hobs & Hsz & _ & Hlog & _).
  fold rollingIntoWorker in Hv, Hp, Hrot, Hd.
  destruct (collision_then_stop_check barePlaneBounds (1 / 50) 0
              rollingIntoWorker worker) as (saved & saved' & E).
  - reflexivity.
  - reflexivity.
  - intros z Hz. rewrite Hsz, Hd. destruct z; cbn; try contradiction; lra.
  - exact rolling_hits_worker.
  - rewrite Hp. cbn. lra.
  - unfold stopped. rewrite Hv, Hp, length_axis_z by lra. cbn.
    compare_reals. reflexivity.
  - eexists. split; [exact E | ].
    unfold afterCrash, afterSave, settlements, saves. cbn.
    rewrite Hd, Hcoins, Hlog, Math_floor_rolling. cbn.
    repeat split.
Qed.

(** The same tick, read through [collision_ends_flight]. *)
Lemma collision_ends_flight_witness :
  exists g',
    updatePhysics barePlaneBounds (1 / 50) 0 rollingIntoWorker = (Returned tt, g') /\
    gameState g' = crashed /\
    velocity g' = velocity (integrate (1 / 50) 0 rollingIntoWorker).
Proof.
  destruct (collision_ends_flight barePlaneBounds (1 / 50) 0 rollingIntoWorker
              worker eq_refl eq_refl rolling_hits_worker)
    as (g' & E & Hs & Hm & _).
  exists g'. split; [exact E | split; [exact Hs | apply Hm]].
Defined.

(** ** Drag *)

(** The coefficient the drag step uses: 0.02 without the aerodynamic
    upgrade, between 0.01 and 0.019 with one of its ten tiers. *)
Lemma effectiveDrag_range (a : UpgradeTier) :
  In a (tiers (UPGRADES aerodynamic)) ->
  0.01 <= BASE_DRAG * (1 - effect "dragReduction" a) <= 0.019.
Proof.
  intros Hin. cbn in Hin.
  repeat (destruct Hin as [<- | Hin]; [unfold effect; cbn; constants; lra | ]).
  contradiction.
Qed.

(** X4. Where the drag step behaves as drag: the factor is at most 1 for
    every velocity, time step and tier, and it is non-negative exactly when
    [speed^2 * effectiveDrag * deltaTime <= 1]. *)
Lemma dragFactor_range (aeroStats : option UpgradeTier) (dt : R) (v : Vector3) :
  match aeroStats with
  | Some a => In a (tiers (UPGRADES aerodynamic))
  | None => True
  end ->
  0 <= dt ->
  dragFactor aeroStats dt v <= 1 /\
  (0 <= dragFactor aeroStats dt v <->
   length v * length v
   * (BASE_DRAG * (1 - match aeroStats with
                        | Some a => effect "dragReduction" a
                        | None => 0
                        end)) * dt <= 1).
Proof.
  intros Ha Hdt. unfold dragFactor.
  set (c := BASE_DRAG * (1 - _)).
  assert (Hc : 0 <= c).
  { subst c. destruct aeroStats as [a | ].
    - pose proof (effectiveDrag_range a Ha). lra.
    - constants. lra. }
  pose proof (length_nonneg v) as Hl.
  assert (Hd : 0 <= length v * length v * c * dt).
  { clearbody c.
    apply Rmult_le_pos; [apply Rmult_le_pos; [apply Rmult_le_pos | ] | ];
      assumption. }
  split; [lra | split; lra].
Qed.

(** The velocity [launch] sets: [power] along the launch angle. *)
Lemma launch_velocity (rnd : R) (g : Game) :
  upgrades g slingshot = 0%nat ->
  velocity (snd (launch rnd g))
  = vec3 0
      (sin (angleDegrees (launchAngle g) * (PI / 180))
       * (Math_max 20 (pullDistance g * LAUNCH_POWER_MULTIPLIER) * 1))
      (cos (angleDegrees (launchAngle g) * (PI / 180))
       * (Math_max 20 (pullDistance g * LAUNCH_POWER_MULTIPLIER) * 1)).
Proof.
  intros Hs. unfold launch. run. rewrite Hs. cbn.
  destruct (upgrades g boosters); cbn; case_tierStat; reflexivity.
Qed.

(** X5. After a full pull without the slingshot upgrade the speed is 80,
    whatever the launch angle. *)
Lemma launch_full_pull_speed (rnd : R) (g : Game) :
  upgrades g slingshot = 0%nat ->
  pullDistance g = MAX_PULL_DISTANCE ->
  length (velocity (snd (launch rnd g))) = 80.
Proof.
  intros Hs Hp. rewrite (launch_velocity rnd g Hs), Hp.
  set (t := angleDegrees (launchAngle g) * (PI / 180)).
  replace (Math_max 20 (MAX_PULL_DISTANCE * LAUNCH_POWER_MULTIPLIER) * 1)
    with 80
    by (unfold MAX_PULL_DISTANCE, LAUNCH_POWER_MULTIPLIER; rcases; lra).
  unfold length. cbn.
  pose proof (sin2_cos2 t) as Hsc. unfold Rsqr in Hsc.
  replace (0 * 0 + sin t * 80 * (sin t * 80) + cos t * 80 * (cos t * 80))
    with (80 * 80) by nra.
  apply sqrt_square. lra.
Qed.

(** At 10 m/s and a tenth of a second the factor is 0.8. *)
Lemma dragFactor_range_witness :
  0 <= dragFactor None 0.1 (vec3 0 0 10) <= 1.
Proof.
  destruct (dragFactor_range None 0.1 (vec3 0 0 10)) as [Hle [_ Hge]].
  - exact I.
  - lra.
  - split; [ | exact Hle].
    apply Hge. rewrite length_axis_z by lra. constants. lra.
Defined.

Lemma launch_full_pull_speed_witness :
  length (velocity
            (snd (launch 0.5
                    (set_pullDistance MAX_PULL_DISTANCE
                       (onMouseDown 400 300 (initialGame []))))))
  = 80.
Proof.
  apply (launch_full_pull_speed 0.5
           (set_pullDistance MAX_PULL_DISTANCE
              (onMouseDown 400 300 (initialGame []))));
    reflexivity.
Defined.

(** C1, on the code: at the speed of a full pull (80) the drag step of a
    tick of a tenth of a second multiplies the velocity by -11.8, and by
    -17/15 at 60 frames a second: the plane flies backwards, faster than
    before.  So it is in the first tick after a full pull, whatever the
    launch angle: with the velocity [launch] sets and gravity applied, the
    factor is below -1 for every time step from 1/60 to 0.1. *)
Theorem dragStep_reverses_fast_plane :
  dragFactor None 0.1 (vec3 0 0 80) = -11.8 /\
  dragStep None 0.1 (vec3 0 0 80) = multiplyScalar (vec3 0 0 80) (-11.8) /\
  vz (dragStep None 0.1 (vec3 0 0 80)) = -944 /\
  length (dragStep None 0.1 (vec3 0 0 80)) = 944 /\
  dragFactor None (1 / 60) (vec3 0 0 80) = - (17 / 15) /\
  (forall theta dt,
     1 / 60 <= dt <= 0.1 ->
     dragFactor None dt
       (map_y (fun y => y + GRAVITY * dt)
          (vec3 0 (sin theta * 80) (cos theta * 80))) < -1).
Proof.
  assert (Hl : length (vec3 0 0 80) = 80) by (apply length_axis_z; lra).
  assert (Hf : dragFactor None 0.1 (vec3 0 0 80) = -11.8).
  { unfold dragFactor. rewrite Hl. constants. lra. }
  assert (Hs : dragStep None 0.1 (vec3 0 0 80)
               = multiplyScalar (vec3 0 0 80) (-11.8)).
  { unfold dragStep. rewrite Hl, Hf. compare_reals. reflexivity. }
  split; [exact Hf | split; [exact Hs | split; [ | split; [ | split]]]].
  - rewrite Hs. cbn. lra.
  - rewrite Hs. unfold length, multiplyScalar. cbn.
    replace (0 * -11.8 * (0 * -11.8) + 0 * -11.8 * (0 * -11.8)
             + 80 * -11.8 * (80 * -11.8)) with (944 * 944) by lra.
    apply sqrt_square. lra.
  - unfold dragFactor. rewrite Hl. constants. lra.
  - intros theta dt Hdt. unfold dragFactor. rewrite length_sqr. cbn.
    pose proof (sin2_cos2 theta) as Hsc. unfold Rsqr in Hsc.
    pose proof (SIN_bound theta) as [_ Hsin].
    constants. nra.
Qed.

Lemma victory_settlement_witness :
  exists g2 saved,
    updatePhysics barePlaneBounds (1 / 50) 0 (rollingAt 5999.995 [])
      = (Returned tt, afterVictory saved g2) /\
    distance g2 = 5999.995 + 0.00999836.
Proof.
  destruct (integrate_rolling 5999.995 0 []) as (_ & Hp & _ & Hd); [lra | ].
  destruct (victory_settlement barePlaneBounds (1 / 50) 0 (rollingAt 5999.995 []))
    as (g2 & saved & E & Hm & _).
  - reflexivity.
  - reflexivity.
  - rewrite Hp. cbn. lra.
  - exists g2, saved. split; [exact E | ].
    destruct Hm as (Hd2 & _). rewrite Hd2. exact Hd.
Defined.

(** C7, as stated, fails: a bare plane that rolls past z = [farAway] has won,
    and the coins the victory earns are the floor of the run distance with
    no bonus, those a crash at the same distance earns. *)
Lemma victory_bonus_absorbed :
  exists g2 saved saved',
    updatePhysics barePlaneBounds (1 / 50) 0 (rollingAt (IZR farAway) [])
      = (Returned tt, afterVictory saved g2) /\
    Math_floor (distance g2) = farAway /\
    hd_error (log (afterVictory saved g2)) = Some (VictoryOverlay farAway) /\
    crash g2 = (Returned tt, afterCrash saved' g2) /\
    hd_error (log (afterCrash saved' g2))
      = Some (CrashOverlay farAway farAway) /\
    coins (afterVictory saved g2) = coins (afterCrash saved' g2).
Proof.
  assert (Hfar : 0 <= IZR farAway) by (apply IZR_le; unfold farAway; lia).
  destruct (integrate_rolling (IZR farAway) 0 [] Hfar) as (_ & Hp & _ & Hd).
  destruct (updatePhysics_victory barePlaneBounds (1 / 50) 0
              (rollingAt (IZR farAway) []))
    as (g2 & saved & saved' & E & Hm & Hc).
  - reflexivity.
  - reflexivity.
  - rewrite Hp. cbn [vz]. unfold farAway in *. lra.
  - destruct farAway_absorbs as (_ & _ & Hadd & _).
    assert (Hfloor : Math_floor (distance g2) = farAway).
    { destruct Hm as (-> & _). rewrite Hd. apply Math_floor_spec. lra. }
    exists g2, saved, saved'.
    split; [exact E | ]. split; [exact Hfloor | ].
    split.
    { unfold afterVictory. cbn [log set_log hd_error].
      rewrite Hfloor, Hadd. reflexivity. }
    split; [exact Hc | ].
    split.
    { unfold afterCrash. cbn [log set_log hd_error].
      rewrite Hfloor. reflexivity. }
    unfold afterVictory, afterCrash, afterSave.
    cbn [coins set_log set_localStorage set_coins].
    rewrite Hfloor, Hadd. reflexivity.
Qed.

(** ** Reachable states *)

Lemma storedLe_refl (g : Game) : storedLe g g.
Proof. intros h Hh. exists h. split; [exact Hh | lra]. Qed.

Lemma storedLe_trans (g1 g2 g3 : Game) :
  storedLe g1 g2 -> storedLe g2 g3 -> storedLe g1 g3.
Proof.
  intros H12 H23 h Hh.
  destruct (H12 h Hh) as (h2 & Hh2 & Hle2).
  destruct (H23 h2 Hh2) as (h3 & Hh3 & Hle3).
  exists h3. split; [exact Hh3 | lra].
Qed.

Lemma storedLe_same (g g' : Game) :
  localStorage g' = localStorage g -> storedLe g g'.
Proof. intros E h Hh. exists h. rewrite E. split; [exact Hh | lra]. Qed.

(** The invariant reads seven globals. *)
Lemma Inv_same (g g' : Game) :
  launchAngle g' = launchAngle g ->
  isDragging g' = isDragging g ->
  gameState g' = gameState g ->
  upgrades g' = upgrades g ->
  localStorage g' = localStorage g ->
  distance g' = distance g ->
  coins g' = coins g ->
  Inv g -> Inv g'.
Proof.
  intros Ea Ed Es Eu El Edist Ec [Ha Hd Hl Hst Hdist Hc Hdbl].
  constructor.
  - rewrite Ea. exact Ha.
  - rewrite Es, Ed. exact Hd.
  - intros k. rewrite Eu. apply Hl.
  - rewrite El. exact Hst.
  - rewrite Edist. exact Hdist.
  - rewrite Ec. exact Hc.
  - rewrite Ec. exact Hdbl.
Qed.

Lemma advances_refl (g : Game) : Inv g -> advances g g.
Proof. intros H. split; [exact H | split; [apply storedLe_refl | lia]]. Qed.

Lemma advances_trans (g1 g2 g3 : Game) :
  advances g1 g2 -> advances g2 g3 -> advances g1 g3.
Proof.
  intros (_ & S12 & C12) (I3 & S23 & C23).
  split; [exact I3 | split; [eapply storedLe_trans; eassumption | lia]].
Qed.

(** A change of globals the invariant does not read. *)
Lemma advances_same (g g' : Game) :
  launchAngle g' = launchAngle g ->
  isDragging g' = isDragging g ->
  gameState g' = gameState g ->
  upgrades g' = upgrades g ->
  localStorage g' = localStorage g ->
  distance g' = distance g ->
  coins g' = coins g ->
  Inv g -> advances g g'.
Proof.
  intros Ea Ed Es Eu El Edist Ec H.
  split; [apply (Inv_same g g'); assumption | ].
  split; [apply storedLe_same; exact El | lia].
Qed.

Lemma runs_ret : runs (ret tt).
Proof. intros g H. exists g. split; [reflexivity | apply advances_refl, H]. Qed.

Lemma runs_bind (m k : M unit) : runs m -> runs k -> runs (m;; k).
Proof.
  intros Hm Hk g H.
  destruct (Hm g H) as (g1 & E1 & A1).
  destruct (Hk g1 (proj1 A1)) as (g2 & E2 & A2).
  exists g2. split.
  - unfold bind. rewrite E1. exact E2.
  - eapply advances_trans; eassumption.
Qed.

Lemma runs_get (k : Game -> M unit) :
  (forall g, Inv g -> exists g', k g g = (Returned tt, g') /\ advances g g') ->
  runs (g <- get;; k g).
Proof. intros Hk g H. unfold bind, get. apply Hk, H. Qed.

Lemma runs_modify (f : Game -> Game) :
  (forall g, Inv g -> advances g (f g)) -> runs (modify f).
Proof. intros Hf g H. exists (f g). split; [reflexivity | apply Hf, H]. Qed.

Lemma runs_when (c : bool) (m : M unit) : runs m -> runs (when c m).
Proof. intros Hm. destruct c; [exact Hm | apply runs_ret]. Qed.

Lemma runs_saveProgress : runs saveProgress.
Proof.
  intros g H. destruct (saveProgress_stored g) as [Hnone Hsome].
  destruct (inv_store g H) as [Hn | (h & Hh & H0)].
  - destruct (Hnone Hn) as [E Hst]. eexists. split; [exact E | ].
    split; [ | split; [ | reflexivity]].
    + destruct H as [Ha Hd Hl _ Hdist Hc]. constructor; try assumption.
      right. exists (Rmax (distance g) 0). split; [exact Hst | apply Rmax_r].
    + intros h Hh. rewrite Hn in Hh. discriminate Hh.
  - destruct (Hsome h Hh) as [E Hst]. eexists. split; [exact E | ].
    split; [ | split; [ | reflexivity]].
    + destruct H as [Ha Hd Hl _ Hdist Hc]. constructor; try assumption.
      right. exists (Rmax (distance g) h). split; [exact Hst | ].
      apply Rle_trans with h; [exact H0 | apply Rmax_r].
    + intros h1 Hh1. rewrite Hh in Hh1. injection Hh1 as <-.
      exists (Rmax (distance g) h). split; [exact Hst | apply Rmax_r].
Qed.

Lemma runs_emit (e : Effect) : runs (emit e).
Proof.
  apply runs_modify. intros g H. apply advances_same; try reflexivity. exact H.
Qed.

(** [crash] and [victory]: the state is no longer pulling, and the coins
    grow by the floor of a non-negative distance, rounded. *)
Lemma runs_crash : runs crash.
Proof.
  intros g H. unfold crash.
  assert (Hf := Math_floor_nonneg (distance g) (inv_distance g H)).
  set (g1 := set_coins (round64 (coins g + Math_floor (distance g)))
               (set_gameState crashed g)).
  assert (Hup : (coins g <= round64 (coins g + Math_floor (distance g)))%Z).
  { apply round64_add_le; [apply (inv_double g H) | exact Hf]. }
  assert (A1 : advances g g1).
  { split; [ | split; [apply storedLe_same; reflexivity | exact Hup]].
    destruct H as [Ha Hd Hl Hst Hdist Hc Hdbl]. constructor; cbn; try assumption.
    - discriminate.
    - lia.
    - apply round64_binary64. }
  destruct (runs_bind saveProgress
              (emit (CrashOverlay (Math_floor (distance g)) (Math_floor (distance g))))
              runs_saveProgress (runs_emit _) g1 (proj1 A1)) as (g2 & E & A2).
  exists g2. split.
  - unfold bind at 1. unfold modify at 1. unfold bind at 1. unfold get at 1.
    unfold bind at 1. unfold modify at 1. exact E.
  - eapply advances_trans; eassumption.
Qed.

Lemma runs_victory : runs victory.
Proof.
  intros g H. unfold victory.
  assert (Hf := Math_floor_nonneg (distance g) (inv_distance g H)).
  assert (He : (0 <= round64 (Math_floor (distance g) + 10000))%Z)
    by (apply round64_nonneg; lia).
  set (g1 := set_coins
               (round64 (coins g + round64 (Math_floor (distance g) + 10000)))
               (set_gameState crashed g)).
  assert (Hup : (coins g
                 <= round64 (coins g
                             + round64 (Math_floor (distance g) + 10000)))%Z).
  { apply round64_add_le; [apply (inv_double g H) | exact He]. }
  assert (A1 : advances g g1).
  { split; [ | split; [apply storedLe_same; reflexivity | exact Hup]].
    destruct H as [Ha Hd Hl Hst Hdist Hc Hdbl]. constructor; cbn; try assumption.
    - discriminate.
    - lia.
    - apply round64_binary64. }
  destruct (runs_bind saveProgress
              (emit (VictoryOverlay (round64 (Math_floor (distance g) + 10000))))
              runs_saveProgress (runs_emit _) g1 (proj1 A1)) as (g2 & E & A2).
  exists g2. split.
  - unfold bind at 1. unfold modify at 1. unfold bind at 1. unfold get at 1.
    unfold bind at 1. unfold modify at 1. exact E.
  - eapply advances_trans; eassumption.
Qed.

Lemma runs_handleCollision (obstacle : Obstacle) : runs (handleCollision obstacle).
Proof.
  unfold handleCollision. apply runs_bind; [apply runs_emit | apply runs_crash].
Qed.

Lemma unlockAt_advances (z : Zone) (a : R) (s : bool * Game) (g : Game) :
  advances g (snd s) -> advances g (snd (unlockAt z a s)).
Proof.
  intros A. destruct (unlockAt_cases z a s) as [E | [_ E]]; rewrite E;
    [exact A | ].
  eapply advances_trans; [exact A | ].
  apply advances_same; try reflexivity. exact (proj1 A).
Qed.

Lemma runs_checkAndUnlockCheckpoints : runs checkAndUnlockCheckpoints.
Proof.
  unfold checkAndUnlockCheckpoints. apply runs_get. intros g H.
  set (s := unlockAt forest _ _).
  assert (A : advances g (snd s)).
  { subst s. do 3 apply unlockAt_advances. apply advances_refl, H. }
  destruct (runs_when (fst s) saveProgress runs_saveProgress (snd s) (proj1 A))
    as (g' & E & A').
  exists g'. split.
  - unfold bind, modify. exact E.
  - eapply advances_trans; eassumption.
Qed.

Lemma integrate_advances (dt rnd : R) (g : Game) :
  Inv g -> advances g (integrate dt rnd g).
Proof.
  intros H.
  destruct (integrate_sameProgress dt rnd g)
    as (Es & Ec & Eu & _ & _ & _ & El & _ & Ea & Ed & _).
  split; [ | split; [apply storedLe_same; exact El | lia]].
  destruct H as [Ha Hd Hl Hst Hdist Hc Hdbl]. constructor.
  - rewrite Ea. exact Ha.
  - rewrite Es, Ed. exact Hd.
  - intros k. rewrite Eu. apply Hl.
  - rewrite El. exact Hst.
  - unfold integrate, updateDistance. cbn. apply Rmax_l.
  - rewrite Ec. exact Hc.
  - rewrite Ec. exact Hdbl.
Qed.

(** [launch], as [onMouseUp] calls it: after [isDragging = false]. *)
Lemma launch_after_release (rnd : R) (g : Game) :
  Inv g ->
  exists g',
    launch rnd (set_isDragging false g) = (Returned tt, g') /\ advances g g'.
Proof.
  intros H. unfold launch. run.
  pose proof (inv_levels g H slingshot) as Hs.
  pose proof (inv_levels g H boosters) as Hb.
  destruct H as [Ha Hd Hl Hst Hdist Hc Hdbl].
  destruct (upgrades g slingshot) as [ | s] eqn:Es;
    destruct (upgrades g boosters) as [ | b] eqn:Eb; cbn;
    try (destruct (tierStat_in_range slingshot (S s) "power") as [v ->];
         [lia | cbn]);
    try (destruct (tierStat_in_range boosters (S b) "uses") as [u ->];
         [lia | cbn]);
    (eexists; split; [reflexivity | ];
     split; [ | split; [apply storedLe_same; reflexivity | cbn; lia]];
     constructor; cbn; try assumption; try discriminate; lra).
Qed.

Lemma runs_onMouseUp (rnd : R) : runs (onMouseUp rnd).
Proof.
  unfold onMouseUp. apply runs_get. intros g H.
  destruct (negb (isDragging g) || negb (GameState_eqb (gameState g) pulling));
    [apply runs_ret, H | ].
  unfold bind at 1. unfold modify at 1. unfold bind at 1. unfold get at 1.
  change (pullDistance (set_isDragging false g)) with (pullDistance g).
  destruct (pullDistance g <? MIN_PULL_DISTANCE).
  - eexists. split; [reflexivity | ].
    split; [ | split; [apply storedLe_same; reflexivity | cbn; lia]].
    destruct H as [Ha Hd Hl Hst Hdist Hc Hdbl].
    constructor; cbn; try assumption; discriminate.
  - apply launch_after_release, H.
Qed.

Lemma runs_activateBooster : runs activateBooster.
Proof.
  unfold activateBooster. apply runs_get. intros g H.
  destruct (negb (GameState_eqb (gameState g) flying)); [apply runs_ret, H | ].
  destruct (Nat.eqb_spec (upgrades g boosters) 0) as [E0 | Hne];
    [apply runs_ret, H | ].
  destruct (boosterUsesRemaining g <=? 0); [apply runs_ret, H | ].
  destruct (boosterActive g); [apply runs_ret, H | ].
  run.
  destruct (tierStat_in_range boosters (upgrades g boosters) "boost") as [v ->].
  { split; [lia | apply (inv_levels g H)]. }
  cbn. eexists. split; [reflexivity | ].
  apply advances_same; try reflexivity. exact H.
Qed.

Lemma runs_onKeyDown (code : Code) : runs (onKeyDown code).
Proof.
  destruct code; cbn;
    try (apply runs_modify; intros g H; apply advances_same;
         try reflexivity; exact H);
    try apply runs_ret.
  apply runs_get. intros g H.
  destruct (negb (k_boost (keys g))); [ | apply runs_ret, H].
  apply (runs_bind (modify (over_keys (set_k_boost true))) activateBooster);
    [ | apply runs_activateBooster | exact H].
  apply runs_modify. intros g0 H0. apply advances_same; try reflexivity. exact H0.
Qed.

Section Reachable.

Variable planeBounds : Vector3 -> Vector3 -> (UpgradeKey -> nat) -> Box3.

Lemma runs_checkObstacleCollisions : runs (checkObstacleCollisions planeBounds).
Proof.
  unfold checkObstacleCollisions. apply runs_get. intros g H.
  destruct (negb (GameState_eqb (gameState g) flying)); [apply runs_ret, H | ].
  destruct (firstHit _ _ _) as [obstacle | ];
    [apply runs_handleCollision, H | apply runs_ret, H].
Qed.

Lemma runs_updatePhysics (dt rnd : R) : runs (updatePhysics planeBounds dt rnd).
Proof.
  unfold updatePhysics. apply runs_get. intros g H.
  destruct (negb (GameState_eqb (gameState g) flying)); [apply runs_ret, H | ].
  revert g H.
  apply runs_bind; [apply runs_modify, integrate_advances | ].
  apply runs_bind; [apply runs_checkAndUnlockCheckpoints | ].
  apply runs_bind; [apply runs_checkObstacleCollisions | ].
  apply runs_get. intros g H.
  destruct (6000 <=? vz (plane_position g)); [apply runs_victory, H | ].
  apply runs_get; [ | exact H]. intros g0 H0.
  apply runs_when; [apply runs_crash | exact H0].
Qed.

Lemma runs_animate (time rnd : R) : runs (animate planeBounds time rnd).
Proof.
  unfold animate. apply runs_get. intros g H. cbv zeta.
  generalize (clampedDelta time (lastTime g)). intros dt. revert g H.
  change (runs (modify (set_lastTime time);;
                updatePhysics planeBounds dt rnd;;
                modify (updateBoosterEffect dt))).
  apply runs_bind.
  { apply runs_modify. intros g H. apply advances_same; try reflexivity. exact H. }
  apply runs_bind; [apply runs_updatePhysics | ].
  apply runs_modify. intros g H. apply advances_same; try exact H;
    unfold updateBoosterEffect; split_ifs; reflexivity.
Qed.

End Reachable.

Lemma onMouseDown_advances (x y : R) (g : Game) :
  Inv g -> advances g (onMouseDown x y g).
Proof.
  intros H. unfold onMouseDown.
  destruct (negb (GameState_eqb (gameState g) ready)); [apply advances_refl, H | ].
  split; [ | split; [apply storedLe_same; reflexivity | cbn; lia]].
  destruct H as [Ha Hd Hl Hst Hdist Hc Hdbl]. constructor; cbn; auto.
Qed.

Lemma onMouseMove_advances (x y : R) (g : Game) :
  Inv g -> advances g (onMouseMove x y g).
Proof.
  intros H.
  assert (Ha' : 0.1 <= launchAngle (onMouseMove x y g) <= 0.9).
  { pose proof (inv_angle g H).
    destruct (onMouseMove_launchAngle x y g) as [-> | (i & Hi & ->)]; lra. }
  revert Ha'. unfold onMouseMove.
  destruct (negb (isDragging g) || negb (GameState_eqb (gameState g) pulling));
    [intros _; apply advances_refl, H | ].
  cbn. intros Ha'.
  split; [ | split; [apply storedLe_same; split_ifs; reflexivity
                    | split_ifs; cbn; lia]].
  destruct H as [Ha Hd Hl Hst Hdist Hc Hdbl].
  constructor; [exact Ha' | | | | | | ];
    revert Ha'; split_ifs; cbn; intros; auto.
Qed.

Lemma onKeyUp_advances (code : Code) (g : Game) :
  Inv g -> advances g (onKeyUp code g).
Proof.
  intros H. destruct code; cbn;
    first [apply advances_refl, H | apply advances_same; try reflexivity; exact H].
Qed.

Lemma resetGame_advances (g : Game) : Inv g -> advances g (resetGame g).
Proof.
  intros H. unfold resetGame.
  split; [ | split; [apply storedLe_same; reflexivity | cbn; lia]].
  destruct H as [Ha Hd Hl Hst Hdist Hc Hdbl].
  constructor; cbn; try assumption; try discriminate; lra.
Qed.

Lemma selectCheckpoint_advances (z : Zone) (g : Game) :
  Inv g -> advances g (selectCheckpoint z g).
Proof.
  intros H. unfold selectCheckpoint.
  destruct (negb (checkpoints g z)); [apply advances_refl, H | ].
  apply advances_same; try reflexivity. exact H.
Qed.

(** A purchase keeps the invariant and the stored distance; it alone takes
    coins. *)
Lemma purchaseUpgrade_Inv (key : UpgradeKey) (g : Game) :
  Inv g ->
  Inv (snd (purchaseUpgrade key g)) /\ storedLe g (snd (purchaseUpgrade key g)).
Proof.
  intros H. unfold purchaseUpgrade. run.
  destruct (Nat.leb_spec (maxTier (UPGRADES key)) (upgrades g key)) as [ | Hlt];
    [split; [exact H | apply storedLe_refl] | ].
  destruct (nth_error (tiers (UPGRADES key)) (upgrades g key)) as [next | ];
    [ | split; [exact H | apply storedLe_refl]].
  destruct (Z.ltb_spec (coins g) (cost next)) as [ | Hcost];
    [split; [exact H | apply storedLe_refl] | ].
  match goal with
  | |- context [if ?c then _ else _] => destruct c
  end; [split; [exact H | apply storedLe_refl] | ].
  set (g1 := set_upgrades _ _).
  assert (H1 : Inv g1).
  { destruct H as [Ha Hd Hl Hst Hdist Hc Hdbl]. constructor; cbn; try assumption.
    - intros k. unfold increment. specialize (Hl k).
      destruct k, key; cbn in *; lia.
    - apply round64_nonneg. lia.
    - apply round64_binary64. }
  destruct (runs_saveProgress g1 H1) as (g' & E & Hi & Hs & _).
  rewrite E. cbn [snd]. split; [exact Hi | ].
  eapply storedLe_trans; [ | exact Hs]. apply storedLe_same. reflexivity.
Qed.

Lemma Inv_initialGame (obs : list Obstacle) : Inv (initialGame obs).
Proof.
  constructor; cbn.
  - lra.
  - discriminate.
  - intros k. cbn. lia.
  - left. reflexivity.
  - lra.
  - lia.
  - reflexivity.
Qed.

Section Play.

Variable planeBounds : Vector3 -> Vector3 -> (UpgradeKey -> nat) -> Box3.

(** One event: the invariant is kept and the stored distance does not
    decrease; the coins do not decrease either unless the event is a
    purchase. *)
Lemma handle_Inv (e : Event) (g : Game) :
  Inv g ->
  Inv (handle planeBounds e g) /\
  storedLe g (handle planeBounds e g) /\
  ((forall key, e <> Buy key) -> (coins g <= coins (handle planeBounds e g))%Z).
Proof.
  intros H.
  assert (Hadv : forall g', advances g g' ->
            Inv g' /\ storedLe g g' /\
            ((forall key, e <> Buy key) -> (coins g <= coins g')%Z)).
  { intros g' (A1 & A2 & A3). auto. }
  assert (Hruns : forall m, runs m ->
            Inv (snd (m g)) /\ storedLe g (snd (m g)) /\
            ((forall key, e <> Buy key) -> (coins g <= coins (snd (m g)))%Z)).
  { intros m Hm. destruct (Hm g H) as (g' & E & A). rewrite E. apply Hadv, A. }
  destruct e; cbn [handle].
  - apply Hadv, onMouseDown_advances, H.
  - apply Hadv, onMouseMove_advances, H.
  - apply Hruns, runs_onMouseUp.
  - apply Hruns, runs_onKeyDown.
  - apply Hadv, onKeyUp_advances, H.
  - apply Hruns, runs_animate.
  - destruct (purchaseUpgrade_Inv key g H) as [Hi Hs].
    split; [exact Hi | split; [exact Hs | ]].
    intros Hno. contradiction (Hno key). reflexivity.
  - apply Hadv, resetGame_advances, H.
  - destruct (checkpoints g checkpoint);
      [apply Hadv, selectCheckpoint_advances, H | apply Hadv, advances_refl, H].
Qed.

Lemma play_Inv (events : list Event) :
  forall g,
    Inv g ->
    Inv (play planeBounds events g) /\
    storedLe g (play planeBounds events g) /\
    ((forall key, ~ In (Buy key) events) ->
     (coins g <= coins (play planeBounds events g))%Z).
Proof.
  induction events as [ | e events IH]; intros g H.
  - cbn. split; [exact H | split; [apply storedLe_refl | lia]].
  - cbn [play fold_left].
    destruct (handle_Inv e g H) as (H1 & S1 & C1).
    destruct (IH _ H1) as (H2 & S2 & C2).
    split; [exact H2 | split; [eapply storedLe_trans; eassumption | ]].
    intros Hno.
    assert (coins g <= coins (handle planeBounds e g))%Z.
    { apply C1. intros key ->. apply (Hno key). left. reflexivity. }
    assert (coins (handle planeBounds e g)
            <= coins (play planeBounds events (handle planeBounds e g)))%Z.
    { apply C2. intros key Hin. apply (Hno key). right. exact Hin. }
    unfold play in *. lia.
Qed.

(** X1. Whatever the player does from the start of the game with an empty
    store: the launch angle parameter is within [0.1, 0.9], a pulling state
    has a drag in progress, every level is a tier of the catalogue, the
    store is empty or holds a non-negative highest distance, the run
    distance and the coins are non-negative, and the coins are a double. *)
Theorem reachable_states_invariant :
  forall (obs : list Obstacle) (events : list Event),
    Inv (play planeBounds events (initialGame obs)).
Proof.
  intros obs events. apply play_Inv, Inv_initialGame.
Qed.

(** X2. From any state reached from the start of the game with an empty
    store, whatever the player does next: the stored highest distance never
    decreases, and the coins never decrease as long as nothing is bought. *)
Theorem play_monotone :
  forall (obs : list Obstacle) (before after : list Event),
    storedLe (play planeBounds before (initialGame obs))
             (play planeBounds after (play planeBounds before (initialGame obs))) /\
    ((forall key, ~ In (Buy key) after) ->
     (coins (play planeBounds before (initialGame obs))
      <= coins (play planeBounds after
                  (play planeBounds before (initialGame obs))))%Z).
Proof.
  intros obs before after.
  apply (play_Inv after), (play_Inv before), Inv_initialGame.
Qed.

End Play.

(** ** Saving and loading *)

Lemma Reqb_spec (x y : R) : reflect (x = y) (x =? y).
Proof.
  unfold Reqb. destruct (Req_dec_T x y); constructor; assumption.
Qed.

(** [coins || 0] on a stored number of coins is that number. *)
Lemma orElse_coins (c : Z) : orElse (JNum (IZR c)) (JNum 0) = JNum (IZR c).
Proof.
  unfold orElse. cbn. destruct (Reqb_spec (IZR c) 0) as [E | _]; cbn;
    [rewrite E | ]; reflexivity.
Qed.

(** What [saveProgress] wrote, [loadProgress] reads back, whatever the
    stored highest distance. *)
Lemma loadProgress_saveData (g : Game) (h : jsval) :
  loadProgress (Some (JSON (saveData g h))) defaultProgress
  = (Returned tt, progressOf g).
Proof.
  cbn. rewrite orElse_coins. reflexivity.
Qed.

Lemma loadProgress_initialGame (obs : list Obstacle) :
  loadProgress (localStorage (initialGame obs)) defaultProgress
  = (Returned tt, progressOf (initialGame obs)).
Proof. reflexivity. Qed.

(** The stored progress depends on the coins, the levels and the
    checkpoints only. *)
Lemma progressOf_same (g g' : Game) :
  coins g' = coins g -> upgrades g' = upgrades g ->
  checkpoints g' = checkpoints g ->
  progressOf g' = progressOf g.
Proof. intros Ec Eu Ek. unfold progressOf. rewrite Ec, Eu, Ek. reflexivity. Qed.

Lemma loadProgress_afterSave (saved : jsval) (g : Game) :
  loadProgress (localStorage (afterSave saved g)) defaultProgress
  = (Returned tt, progressOf (afterSave saved g)).
Proof.
  unfold afterSave. cbn [localStorage set_log set_localStorage].
  rewrite loadProgress_saveData. reflexivity.
Qed.
(** ** The ledger *)

(** Reduces the reads of a global after assignments. *)
Ltac globals :=
  cbn [gameState coins distance boosterUsesRemaining upgrades checkpoints
       currentCheckpoint highestDistanceThisRun startingZ keys plane_position
       plane_rotation boosterActive boosterTimer obstacles velocity
       angularVelocity isDragging pullDistance launchAngle pullStart
       pullCurrent slingshotPosition lastTime localStorage log
       set_gameState set_coins set_distance set_boosterUsesRemaining
       set_upgrades set_checkpoints set_currentCheckpoint
       set_highestDistanceThisRun set_startingZ set_keys set_plane_position
       set_plane_rotation set_boosterActive set_boosterTimer set_obstacles
       set_velocity set_angularVelocity set_isDragging set_pullDistance
       set_launchAngle set_pullStart set_pullCurrent set_slingshotPosition
       set_lastTime set_localStorage set_log
       over_velocity over_angularVelocity over_position over_rotation over_keys
       afterSave afterCrash afterVictory resetPlanePosition fst snd] in *.

Lemma sum_firstn_S (l : list Z) :
  forall (n : nat) (x : Z),
    nth_error l n = Some x ->
    fold_right Z.add 0%Z (firstn (S n) l)
    = (fold_right Z.add 0%Z (firstn n l) + x)%Z.
Proof.
  induction l as [ | a l IH]; intros [ | n] x H; cbn in H; try discriminate.
  - injection H as ->. cbn. lia.
  - change (firstn (S (S n)) (a :: l)) with (a :: firstn (S n) l).
    change (firstn (S n) (a :: l)) with (a :: firstn n l).
    cbn [fold_right]. rewrite (IH n x H). lia.
Qed.

(** Buying the next tier adds its cost to what the upgrade has cost. *)
Lemma paid_S (key : UpgradeKey) (level : nat) (next : UpgradeTier) :
  nth_error (tiers (UPGRADES key)) level = Some next ->
  paid key (S level) = (paid key level + cost next)%Z.
Proof.
  intros H. unfold paid. rewrite <- !firstn_map.
  apply sum_firstn_S. apply map_nth_error. exact H.
Qed.

Lemma spent_increment (key : UpgradeKey) (u : UpgradeKey -> nat)
  (next : UpgradeTier) :
  nth_error (tiers (UPGRADES key)) (u key) = Some next ->
  spent (increment key u) = (spent u + cost next)%Z.
Proof.
  intros H. apply paid_S in H.
  destruct key;
    cbv [spent allKeys map fold_right increment UpgradeKey_eqb];
    rewrite H; lia.
Qed.

Lemma earned_cons (e : Effect) (l : list Effect) :
  earned (e :: l) = (granted e + earned l)%Z.
Proof. reflexivity. Qed.

Lemma sum_firstn_nonneg (l : list Z) :
  Forall (fun x => (0 <= x)%Z) l ->
  forall n, (0 <= fold_right Z.add 0%Z (firstn n l))%Z.
Proof.
  induction 1 as [ | x l Hx _ IH]; intros [ | n]; cbn; try lia.
  specialize (IH n). lia.
Qed.

(** What has been paid for the levels owned is not negative. *)
Lemma paid_nonneg (key : UpgradeKey) (level : nat) : (0 <= paid key level)%Z.
Proof.
  unfold paid. rewrite <- firstn_map. apply sum_firstn_nonneg.
  destruct key; cbn; repeat constructor; lia.
Qed.

Lemma spent_nonneg (u : UpgradeKey -> nat) : (0 <= spent u)%Z.
Proof.
  unfold spent, allKeys. cbn [map fold_right].
  pose proof (paid_nonneg wings (u wings)).
  pose proof (paid_nonneg wheels (u wheels)).
  pose proof (paid_nonneg tail (u tail)).
  pose proof (paid_nonneg aerodynamic (u aerodynamic)).
  pose proof (paid_nonneg slingshot (u slingshot)).
  pose proof (paid_nonneg boosters (u boosters)).
  lia.
Qed.

(** While the coins granted so far are within 2^53, a settlement adds what
    it grants to the balance exactly. *)
Lemma balance_settled (c s e granted_now : Z) :
  (0 <= c)%Z -> (0 <= s)%Z -> (0 <= granted_now)%Z ->
  ((e <= 2 ^ 53)%Z -> (c + s = e)%Z) ->
  (granted_now + e <= 2 ^ 53)%Z ->
  (round64 (c + granted_now) + s = granted_now + e)%Z.
Proof.
  intros Hc Hs Hg Hb Hbound.
  rewrite round64_small by lia. lia.
Qed.

(** ** Consistent globals *)

(** [Consistent] reads eleven globals. *)
Lemma Consistent_same (g g' : Game) :
  upgrades g' = upgrades g ->
  coins g' = coins g ->
  earned (log g') = earned (log g) ->
  checkpoints g' = checkpoints g ->
  currentCheckpoint g' = currentCheckpoint g ->
  (gameState g' = ready \/ gameState g' = pulling -> distance g' = 0) ->
  startingZ g' = startingZ g ->
  boosterUsesRemaining g' = boosterUsesRemaining g ->
  0 <= pullDistance g' <= MAX_PULL_DISTANCE ->
  localStorage g' = localStorage g ->
  Consistent g -> Consistent g'.
Proof.
  intros Eu Ec El Ek Ecur Hidle Es Eb Hpull Est
    [Hr Hb Hw Hc Hcl Hi Hs Hch Hp Hst].
  constructor.
  - rewrite Eu. exact Hr.
  - rewrite Ec, Eu, El. exact Hb.
  - rewrite Ek. exact Hw.
  - rewrite Ek, Ecur. exact Hc.
  - rewrite Ek. exact Hcl.
  - exact Hidle.
  - rewrite Ek, Es. exact Hs.
  - rewrite Eb, Eu. exact Hch.
  - exact Hpull.
  - rewrite Est, (progressOf_same g g' Ec Eu Ek). exact Hst.
Qed.

Lemma sameRun_refl (g : Game) : sameRun g g.
Proof. repeat split; auto. Qed.

Lemma sameRun_trans (g1 g2 g3 : Game) :
  sameRun g1 g2 -> sameRun g2 g3 -> sameRun g1 g3.
Proof.
  intros (A1 & A2 & A3 & A4 & A5) (B1 & B2 & B3 & B4 & B5).
  repeat split; try congruence. auto.
Qed.

Lemma reached_sameRun (g g' : Game) : sameRun g g' -> reached g -> reached g'.
Proof.
  intros (Es & Ed & Hk & _) H z Hz. apply Hk, H. rewrite <- Es, <- Ed. exact Hz.
Qed.

Lemma settles_ret : settles (ret tt).
Proof.
  intros g H C. exists g.
  split; [reflexivity | split; [exact H | split; [exact C | apply sameRun_refl]]].
Qed.

Lemma settles_bind (m k : M unit) : settles m -> settles k -> settles (m;; k).
Proof.
  intros Hm Hk g H C.
  destruct (Hm g H C) as (g1 & E1 & H1 & C1 & S1).
  destruct (Hk g1 H1 C1) as (g2 & E2 & H2 & C2 & S2).
  exists g2. split; [unfold bind; rewrite E1; exact E2 | ].
  split; [exact H2 | split; [exact C2 | ]].
  eapply sameRun_trans; eassumption.
Qed.

Lemma settles_get (k : Game -> M unit) :
  (forall g, Inv g -> Consistent g ->
     exists g', k g g = (Returned tt, g') /\ Inv g' /\ Consistent g' /\ sameRun g g') ->
  settles (g <- get;; k g).
Proof. intros Hk g H C. unfold bind, get. apply Hk; assumption. Qed.

Lemma settles_when (c : bool) (m : M unit) : settles m -> settles (when c m).
Proof. intros Hm. destruct c; [exact Hm | apply settles_ret]. Qed.

(** A computation that runs to [g'] from [g]: the invariant holds of [g']. *)
Lemma runs_to (m : M unit) (g g' : Game) :
  runs m -> Inv g -> m g = (Returned tt, g') -> Inv g'.
Proof.
  intros Hm H E. destruct (Hm g H) as (g'' & E' & A).
  rewrite E in E'. injection E' as <-. exact (proj1 A).
Qed.

Lemma Consistent_afterSave (saved : jsval) (g : Game) :
  Consistent g -> Consistent (afterSave saved g).
Proof.
  intros [Hr Hb Hw Hc Hcl Hi Hs Hch Hp Hst].
  constructor; try (globals; assumption).
  apply loadProgress_afterSave.
Qed.

Lemma settles_saveProgress : settles saveProgress.
Proof.
  intros g H C.
  destruct (saveProgress_readable g (storeOK_readable _ (inv_store g H)))
    as (saved & E).
  exists (afterSave saved g). split; [exact E | ].
  split; [exact (runs_to _ _ _ runs_saveProgress H E) | ].
  split; [apply Consistent_afterSave, C | repeat split; auto].
Qed.

Lemma settles_console (msg : string) : settles (emit (ConsoleLog msg)).
Proof.
  intros g H C. eexists. split; [reflexivity | ].
  split; [exact (runs_to _ _ _ (runs_emit _) H eq_refl) | ].
  split; [ | repeat split; auto].
  apply (Consistent_same g); try reflexivity; try apply C.
Qed.

Lemma Consistent_afterCrash (saved : jsval) (g : Game) :
  Inv g -> Consistent g -> Consistent (afterCrash saved g).
Proof.
  intros H [Hr Hb Hw Hc Hcl Hi Hs Hch Hp Hst].
  assert (Hf := Math_floor_nonneg (distance g) (inv_distance g H)).
  constructor; try (globals; assumption).
  - globals. rewrite !earned_cons. cbn [granted]. rewrite Z.add_0_l.
    apply balance_settled;
      [apply (inv_coins g H) | apply spent_nonneg | exact Hf | exact Hb].
  - globals. intros [E | E]; discriminate E.
  - unfold afterCrash, afterSave. cbn [localStorage set_log set_localStorage].
    rewrite loadProgress_saveData. reflexivity.
Qed.

Lemma Consistent_afterVictory (saved : jsval) (g : Game) :
  Inv g -> Consistent g -> Consistent (afterVictory saved g).
Proof.
  intros H [Hr Hb Hw Hc Hcl Hi Hs Hch Hp Hst].
  assert (Hf := Math_floor_nonneg (distance g) (inv_distance g H)).
  constructor; try (globals; assumption).
  - globals. rewrite !earned_cons. cbn [granted]. rewrite Z.add_0_l.
    apply balance_settled;
      [apply (inv_coins g H) | apply spent_nonneg
      | apply round64_nonneg; lia | exact Hb].
  - globals. intros [E | E]; discriminate E.
  - unfold afterVictory, afterSave. cbn [localStorage set_log set_localStorage].
    rewrite loadProgress_saveData. reflexivity.
Qed.

Lemma settles_crash : settles crash.
Proof.
  intros g H C.
  destruct (crash_readable g (storeOK_readable _ (inv_store g H))) as (saved & E).
  exists (afterCrash saved g). split; [exact E | ].
  split; [exact (runs_to _ _ _ runs_crash H E) | ].
  split; [apply Consistent_afterCrash; [exact H | exact C] | repeat split; auto].
Qed.

Lemma settles_victory : settles victory.
Proof.
  intros g H C.
  destruct (victory_readable g (storeOK_readable _ (inv_store g H))) as (saved & E).
  exists (afterVictory saved g). split; [exact E | ].
  split; [exact (runs_to _ _ _ runs_victory H E) | ].
  split; [apply Consistent_afterVictory; [exact H | exact C] | repeat split; auto].
Qed.

Lemma settles_handleCollision (obstacle : Obstacle) :
  settles (handleCollision obstacle).
Proof.
  unfold handleCollision.
  apply settles_bind; [apply settles_console | apply settles_crash].
Qed.
(** ** Unlocking checkpoints *)

Lemma set_checkpoints_same (g : Game) : set_checkpoints (checkpoints g) g = g.
Proof. destruct g. reflexivity. Qed.

Lemma Zone_eqb_eq (a b : Zone) : Zone_eqb a b = true -> a = b.
Proof. destruct a, b; cbn; congruence. Qed.

(** One of the three blocks of [checkAndUnlockCheckpoints]. *)
Lemma unlockAt_spec (z : Zone) (a : R) (s : bool * Game) :
  exists c,
    snd (unlockAt z a s) = set_checkpoints c (snd s) /\
    (forall z', c z' = checkpoints (snd s) z'
                       || (Zone_eqb z' z && (zone_start (ZONES z) <=? a))) /\
    (fst (unlockAt z a s) = false ->
     fst s = false /\ snd (unlockAt z a s) = snd s).
Proof.
  unfold unlockAt.
  destruct (zone_start (ZONES z) <=? a) eqn:E;
    destruct (checkpoints (snd s) z) eqn:K; cbn [andb negb].
  - exists (checkpoints (snd s)).
    split; [symmetry; apply set_checkpoints_same | ].
    split; [ | auto].
    intros z'. destruct (Zone_eqb z' z) eqn:Ez; cbn [andb].
    + apply Zone_eqb_eq in Ez. subst z'. rewrite K. reflexivity.
    + rewrite orb_false_r. reflexivity.
  - exists (unlock z (checkpoints (snd s))).
    split; [reflexivity | ]. split; [ | discriminate].
    intros z'. unfold unlock. destruct (Zone_eqb z' z); cbn [andb].
    + rewrite orb_true_r. reflexivity.
    + rewrite orb_false_r. reflexivity.
  - exists (checkpoints (snd s)).
    split; [symmetry; apply set_checkpoints_same | ].
    split; [ | auto].
    intros z'. rewrite andb_false_r, orb_false_r. reflexivity.
  - exists (checkpoints (snd s)).
    split; [symmetry; apply set_checkpoints_same | ].
    split; [ | auto].
    intros z'. rewrite andb_false_r, orb_false_r. reflexivity.
Qed.

(** The three blocks together unlock exactly the zones that start at or
    before the position, and report it unless nothing changed. *)
Lemma unlockAt_chain_spec (a : R) (g : Game) :
  let s := unlockAt forest a (unlockAt desert a (unlockAt city a (false, g))) in
  exists c,
    snd s = set_checkpoints c g /\
    (forall z, c z = checkpoints g z
                     || (negb (Zone_eqb z runway) && (zone_start (ZONES z) <=? a))) /\
    (fst s = false -> snd s = g).
Proof.
  cbv zeta.
  destruct (unlockAt_spec city a (false, g)) as (c1 & E1 & H1 & F1).
  destruct (unlockAt_spec desert a (unlockAt city a (false, g)))
    as (c2 & E2 & H2 & F2).
  destruct (unlockAt_spec forest a (unlockAt desert a (unlockAt city a (false, g))))
    as (c3 & E3 & H3 & F3).
  exists c3. split; [ | split].
  - rewrite E3, E2, E1. reflexivity.
  - intros z. rewrite H3, E2. globals. rewrite H2, E1. globals. rewrite H1.
    cbn [snd]. destruct z; cbn [Zone_eqb negb andb];
      rewrite ?orb_false_r; reflexivity.
  - intros F. destruct (F3 F) as [F' ->]. destruct (F2 F') as [F'' ->].
    destruct (F1 F'') as [_ ->]. reflexivity.
Qed.

Lemma Rleb_mono (a b x : R) : a <= b -> (b <=? x) = true -> (a <=? x) = true.
Proof.
  intros Hab H. destruct (Rleb_spec b x); [ | discriminate].
  apply Rleb_true. lra.
Qed.

(** The globals after the zones at or before the position are unlocked and
    the progress is saved. *)
Lemma Consistent_unlocked (saved : jsval) (c : Zone -> bool) (g : Game) :
  Consistent g ->
  (forall z, c z = checkpoints g z
                   || (negb (Zone_eqb z runway)
                       && (zone_start (ZONES z) <=? startingZ g + distance g))) ->
  Consistent (afterSave saved (set_checkpoints c g)) /\
  reached (afterSave saved (set_checkpoints c g)).
Proof.
  intros [Hr Hb Hw Hc Hcl Hi Hs Hch Hp Hst] Hz.
  assert (Hmono : forall z, checkpoints g z = true -> c z = true).
  { intros z K. rewrite Hz, K. reflexivity. }
  split; [constructor | ]; try (globals; assumption).
  - globals. apply Hmono, Hw.
  - globals. apply Hmono, Hc.
  - globals. rewrite !Hz. cbn [Zone_eqb negb andb]. destruct Hcl as [Hf Hd].
    split; intros K; apply orb_true_iff in K; apply orb_true_iff;
      destruct K as [K | K]; auto; right;
      revert K; apply Rleb_mono; cbn; lra.
  - globals. destruct Hs as (z & K & E). exists z. split; [apply Hmono, K | exact E].
  - unfold afterSave. cbn [localStorage set_log set_localStorage].
    rewrite loadProgress_saveData. reflexivity.
  - intros z. globals. intros Hle. rewrite Hz.
    destruct z; cbn [Zone_eqb negb andb]; try (rewrite Hw; reflexivity);
      rewrite (Rleb_true _ _ Hle); apply orb_true_r.
Qed.

Lemma checkAndUnlockCheckpoints_settles (g : Game) :
  Inv g -> Consistent g ->
  exists g',
    checkAndUnlockCheckpoints g = (Returned tt, g') /\
    Inv g' /\ Consistent g' /\ sameRun g g' /\ reached g'.
Proof.
  intros H C.
  assert (HI : forall g', checkAndUnlockCheckpoints g = (Returned tt, g') -> Inv g').
  { intros g' E. exact (runs_to _ _ _ runs_checkAndUnlockCheckpoints H E). }
  revert HI. unfold checkAndUnlockCheckpoints, bind, get, modify.
  destruct (unlockAt_chain_spec (startingZ g + distance g) g) as (c & Es & Hc & Hf).
  cbv zeta in Es, Hf.
  set (s := unlockAt forest _ _) in *. clearbody s.
  destruct s as [[ | ] g2]; cbn [fst snd when] in *; intros HI.
  - subst g2.
    destruct (saveProgress_readable (set_checkpoints c g)
                (storeOK_readable _ (inv_store g H))) as (saved & E).
    rewrite E in *. eexists. split; [reflexivity | ].
    destruct (Consistent_unlocked saved c g C Hc) as [C' R'].
    split; [apply HI; reflexivity | ]. split; [exact C' | ]. split; [ | exact R'].
    repeat split; try reflexivity.
    intros z K. globals. rewrite Hc, K. reflexivity.
  - rewrite (Hf eq_refl) in *. exists g.
    split; [reflexivity | ]. split; [exact H | ]. split; [exact C | ].
    split; [apply sameRun_refl | ].
    intros z Hle. apply (f_equal checkpoints) in Es. globals. rewrite Es, Hc.
    destruct z; cbn [Zone_eqb negb andb];
      try (rewrite (con_runway g C); reflexivity);
      rewrite (Rleb_true _ _ Hle); apply orb_true_r.
Qed.

(** ** Integration and the rest of the tick *)

Lemma sameSettings_refl (g : Game) : sameSettings g g.
Proof. repeat split. Qed.

Lemma sameSettings_trans (g1 g2 g3 : Game) :
  sameSettings g1 g2 -> sameSettings g2 g3 -> sameSettings g1 g3.
Proof.
  unfold sameSettings.
  intros (A1 & A2 & A3 & A4 & A5 & A6 & A7) (B1 & B2 & B3 & B4 & B5 & B6 & B7).
  repeat split; congruence.
Qed.

Lemma applyControls_sameSettings (dt : R) (g : Game) :
  sameSettings g (applyControls dt g).
Proof. unfold applyControls. split_ifs; repeat split. Qed.

Lemma applyLift_sameSettings (dt : R) (g : Game) :
  sameSettings g (applyLift dt g).
Proof. unfold applyLift. split_ifs; repeat split. Qed.

Lemma updateRotation_sameSettings (dt : R) (g : Game) :
  sameSettings g (updateRotation dt g).
Proof. unfold updateRotation. split_ifs; repeat split. Qed.

Lemma groundCollision_sameSettings (rnd : R) (g : Game) :
  sameSettings g (groundCollision rnd g).
Proof. unfold groundCollision. split_ifs; repeat split. Qed.

Lemma integrate_sameSettings (dt rnd : R) (g : Game) :
  sameSettings g (integrate dt rnd g).
Proof.
  unfold integrate.
  eapply sameSettings_trans; [apply applyControls_sameSettings | ].
  set (g1 := applyGravity dt _).
  assert (H1 : sameSettings (applyControls dt g) g1) by (repeat split).
  eapply sameSettings_trans; [exact H1 | ].
  eapply sameSettings_trans; [apply applyLift_sameSettings | ].
  set (g2 := applyDrag dt _).
  assert (H2 : sameSettings (applyLift dt g1) g2) by (repeat split).
  eapply sameSettings_trans; [exact H2 | ].
  set (g3 := updatePosition dt g2).
  assert (H3 : sameSettings g2 g3) by (repeat split).
  eapply sameSettings_trans; [exact H3 | ].
  eapply sameSettings_trans; [apply updateRotation_sameSettings | ].
  eapply sameSettings_trans; [apply groundCollision_sameSettings | ].
  repeat split.
Qed.

Lemma integrate_Consistent (dt rnd : R) (g : Game) :
  gameState g = flying -> Consistent g -> Consistent (integrate dt rnd g).
Proof.
  intros Hfly C.
  destruct (integrate_sameProgress dt rnd g)
    as (Es & Ec & Eu & Ek & Eo & Ez & El & Elog & Ea & Ed & Ep).
  destruct (integrate_sameSettings dt rnd g) as (Ecur & Eb & _).
  apply (Consistent_same g); try assumption.
  - rewrite Elog. reflexivity.
  - rewrite Es, Hfly. intros [E | E]; discriminate E.
  - rewrite Ep. apply C.
Qed.
Lemma grows_refl (g : Game) : grows g g.
Proof. repeat split; auto. Qed.

Lemma grows_trans (g1 g2 g3 : Game) : grows g1 g2 -> grows g2 g3 -> grows g1 g3.
Proof.
  intros (A1 & A2 & A3) (B1 & B2 & B3).
  split; [ | split; [auto | congruence]].
  intros k. specialize (A1 k). specialize (B1 k). lia.
Qed.

Lemma sameRun_grows (g g' : Game) : sameRun g g' -> grows g g'.
Proof.
  intros (_ & _ & Hk & Eu & Eo).
  split; [intros k; rewrite Eu; lia | split; assumption].
Qed.

(** A change of globals that keeps levels, checkpoints and obstacles. *)
Lemma grows_same (g g' : Game) :
  upgrades g' = upgrades g -> checkpoints g' = checkpoints g ->
  obstacles g' = obstacles g -> grows g g'.
Proof.
  intros Eu Ek Eo.
  split; [intros k; rewrite Eu; lia | split; [ | exact Eo]].
  intros z K. rewrite Ek. exact K.
Qed.

Lemma reached_same (g g' : Game) :
  startingZ g' = startingZ g -> distance g' = distance g ->
  checkpoints g' = checkpoints g -> reached g -> reached g'.
Proof.
  intros Es Ed Ek H z Hz. rewrite Ek. apply H. rewrite <- Es, <- Ed. exact Hz.
Qed.

Section Settled.

Variable planeBounds : Vector3 -> Vector3 -> (UpgradeKey -> nat) -> Box3.

Lemma settles_checkObstacleCollisions :
  settles (checkObstacleCollisions planeBounds).
Proof.
  unfold checkObstacleCollisions. apply settles_get. intros g H C.
  destruct (negb (GameState_eqb (gameState g) flying));
    [apply settles_ret; assumption | ].
  destruct (firstHit _ _ _) as [obstacle | ];
    [apply settles_handleCollision | apply settles_ret]; assumption.
Qed.

(** What follows [checkAndUnlockCheckpoints] in [updatePhysics]. *)
Lemma settles_checks :
  settles (checkObstacleCollisions planeBounds;;
           g' <- get;;
           if 6000 <=? vz (plane_position g') then victory
           else g'' <- get;; when (stopped g'') crash).
Proof.
  apply settles_bind; [apply settles_checkObstacleCollisions | ].
  apply settles_get. intros g H C.
  destruct (6000 <=? vz (plane_position g));
    [apply settles_victory; assumption | ].
  apply settles_get; [ | assumption | assumption]. intros g0 H0 C0.
  apply settles_when; [apply settles_crash | assumption | assumption].
Qed.

Lemma GameState_eqb_eq (a b : GameState) : GameState_eqb a b = true <-> a = b.
Proof. destruct a, b; cbn; split; congruence. Qed.

(** A tick keeps consistent globals consistent. *)
Lemma updatePhysics_Consistent (dt rnd : R) (g : Game) :
  Inv g -> Consistent g -> reached g ->
  exists g',
    updatePhysics planeBounds dt rnd g = (Returned tt, g') /\
    Inv g' /\ Consistent g' /\ reached g' /\ grows g g'.
Proof.
  intros H C Hr.
  destruct (GameState_eqb (gameState g) flying) eqn:Efly.
  - apply GameState_eqb_eq in Efly.
    rewrite (updatePhysics_flying planeBounds dt rnd g Efly).
    pose proof (proj1 (integrate_advances dt rnd g H)) as H1.
    pose proof (integrate_Consistent dt rnd g Efly C) as C1.
    destruct (checkAndUnlockCheckpoints_settles _ H1 C1)
      as (g2 & E2 & H2 & C2 & S2 & R2).
    destruct (settles_checks g2 H2 C2) as (g3 & E3 & H3 & C3 & S3).
    exists g3. split; [unfold bind at 1; rewrite E2; exact E3 | ].
    split; [exact H3 | ]. split; [exact C3 | ].
    split; [exact (reached_sameRun _ _ S3 R2) | ].
    destruct (integrate_sameProgress dt rnd g)
      as (_ & _ & Eu & Ek & Eo & _).
    eapply grows_trans; [apply (grows_same g (integrate dt rnd g)); assumption | ].
    eapply grows_trans; apply sameRun_grows; eassumption.
  - rewrite updatePhysics_not_flying.
    + exists g. repeat (split; [assumption || reflexivity | ]). apply grows_refl.
    + intros E. rewrite E in Efly. discriminate Efly.
Qed.

Lemma animate_unfold (time rnd : R) (g : Game) :
  animate planeBounds time rnd g =
    match updatePhysics planeBounds (clampedDelta time (lastTime g)) rnd
            (set_lastTime time g) with
    | (Returned _, g1) =>
        (Returned tt, updateBoosterEffect (clampedDelta time (lastTime g)) g1)
    | (Thrown e, g1) => (Thrown e, g1)
    end.
Proof. reflexivity. Qed.

(** [updateBoosterEffect] writes the booster's timer and flag only. *)
Lemma updateBoosterEffect_frame (dt : R) (g : Game) (A : Type) (f : Game -> A) :
  (forall v g, f (set_boosterTimer v g) = f g) ->
  (forall v g, f (set_boosterActive v g) = f g) ->
  f (updateBoosterEffect dt g) = f g.
Proof.
  intros F1 F2. unfold updateBoosterEffect. split_ifs;
    rewrite ?F2, ?F1; reflexivity.
Qed.

Lemma animate_Consistent (time rnd : R) (g : Game) :
  Inv g -> Consistent g -> reached g ->
  exists g',
    animate planeBounds time rnd g = (Returned tt, g') /\
    Inv g' /\ Consistent g' /\ reached g' /\ grows g g'.
Proof.
  intros H C Hr.
  assert (HI : forall g', animate planeBounds time rnd g = (Returned tt, g') -> Inv g').
  { intros g' E. exact (runs_to _ _ _ (runs_animate planeBounds time rnd) H E). }
  rewrite animate_unfold in *.
  revert HI. generalize (clampedDelta time (lastTime g)). intros dt HI.
  assert (H0 : Inv (set_lastTime time g)).
  { apply (Inv_same g); try reflexivity. exact H. }
  assert (C0 : Consistent (set_lastTime time g)).
  { apply (Consistent_same g); try reflexivity; apply C. }
  assert (R0 : reached (set_lastTime time g)).
  { apply (reached_same g); try reflexivity. exact Hr. }
  destruct (updatePhysics_Consistent dt rnd _ H0 C0 R0)
    as (g1 & E1 & H1 & C1 & R1 & G1).
  rewrite E1 in *.
  exists (updateBoosterEffect dt g1). split; [reflexivity | ].
  split; [apply HI; reflexivity | ].
  pose proof (updateBoosterEffect_frame dt g1) as F.
  split; [ | split].
  - apply (Consistent_same g1); try (apply F; reflexivity);
      rewrite ?(F _ gameState), ?(F _ distance), ?(F _ pullDistance),
        ?(F _ log) by reflexivity;
      try reflexivity; try exact C1; apply C1.
  - apply (reached_same g1); try (apply F; reflexivity). exact R1.
  - eapply grows_trans; [ | apply (grows_same g1); apply F; reflexivity].
    eapply grows_trans; [ | exact G1].
    apply grows_same; reflexivity.
Qed.

End Settled.
(** ** The handlers keep the globals consistent *)

(** Tier [n] of the boosters gives [n] uses. *)
Lemma boosters_uses (n : nat) :
  (0 < n <= 10)%nat -> tierStat boosters n "uses" = Returned (INR n).
Proof.
  intros [H1 H2].
  do 11 (destruct n as [ | n];
         [try lia; unfold tierStat, effect; cbn; f_equal; lra | ]).
  lia.
Qed.

Lemma getCheckpointStartPosition_start (g : Game) :
  getCheckpointStartPosition g = zone_start (ZONES (currentCheckpoint g)).
Proof. unfold getCheckpointStartPosition. destruct (currentCheckpoint g); reflexivity. Qed.

(** The globals at the start of a run: the distance is 0 and the run starts
    at the selected checkpoint. *)
Lemma Consistent_start (g g' : Game) :
  Consistent g ->
  upgrades g' = upgrades g ->
  coins g' = coins g ->
  earned (log g') = earned (log g) ->
  checkpoints g' = checkpoints g ->
  currentCheckpoint g' = currentCheckpoint g ->
  distance g' = 0 ->
  startingZ g' = zone_start (ZONES (currentCheckpoint g)) ->
  (exists n, boosterUsesRemaining g' = INR n /\ (n <= upgrades g boosters)%nat) ->
  0 <= pullDistance g' <= MAX_PULL_DISTANCE ->
  localStorage g' = localStorage g ->
  obstacles g' = obstacles g ->
  Consistent g' /\ reached g' /\ grows g g'.
Proof.
  intros [Hr Hb Hw Hc Hcl Hi Hs Hch Hp Hst] Eu Ec El Ek Ecur Ed Es Eb Hpull Est Eo.
  split; [constructor | split].
  - rewrite Eu. exact Hr.
  - rewrite Ec, Eu, El. exact Hb.
  - rewrite Ek. exact Hw.
  - rewrite Ek, Ecur. exact Hc.
  - rewrite Ek. exact Hcl.
  - intros _. exact Ed.
  - exists (currentCheckpoint g). rewrite Ek. split; [exact Hc | exact Es].
  - rewrite Eu. exact Eb.
  - exact Hpull.
  - rewrite Est, (progressOf_same g g' Ec Eu Ek). exact Hst.
  - intros z. rewrite Ek, Es, Ed. destruct Hcl as [Hf Hd].
    destruct z, (currentCheckpoint g); cbn; intros Hle;
      try lra; auto.
  - apply grows_same; assumption.
Qed.

Lemma launch_Consistent (rnd : R) (g : Game) :
  levelsInRange g -> Consistent g -> distance g = 0 ->
  exists g',
    launch rnd g = (Returned tt, g') /\
    Consistent g' /\ reached g' /\ grows g g'.
Proof.
  intros Hl C Hd. unfold launch. run.
  pose proof (Hl slingshot) as Hs. pose proof (Hl boosters) as Hb.
  pose proof (con_pull g C) as Hp.
  pose proof (con_charges g C) as Hch.
  change (maxTier (UPGRADES boosters)) with 10%nat in Hb.
  destruct (upgrades g slingshot) as [ | s] eqn:Es;
    destruct (upgrades g boosters) as [ | b] eqn:Eb; cbn;
    try (destruct (tierStat_in_range slingshot (S s) "power") as [v ->];
         [lia | cbn]);
    try (rewrite (boosters_uses (S b)) by lia; cbn);
    (eexists; split; [reflexivity | ];
     apply (Consistent_start g); try reflexivity; try assumption;
     globals; rewrite ?getCheckpointStartPosition_start; try reflexivity;
     rewrite ?Eb;
     first [exact Hch | exists (S b); split; [reflexivity | lia]]).
Qed.

Lemma onMouseUp_Consistent (rnd : R) (g : Game) :
  Inv g -> Consistent g -> reached g ->
  Consistent (snd (onMouseUp rnd g)) /\
  reached (snd (onMouseUp rnd g)) /\
  grows g (snd (onMouseUp rnd g)).
Proof.
  intros H C Hr.
  destruct (isDragging g) eqn:Edrag;
    [ | unfold onMouseUp, bind, get; rewrite Edrag; cbn;
        split; [exact C | split; [exact Hr | apply grows_refl]]].
  destruct (GameState_eqb (gameState g) pulling) eqn:Epull;
    [ | unfold onMouseUp, bind, get; rewrite Epull, orb_true_r; cbn;
        split; [exact C | split; [exact Hr | apply grows_refl]]].
  apply GameState_eqb_eq in Epull.
  rewrite (onMouseUp_pulling rnd g Epull Edrag).
  assert (Hd : distance g = 0) by (apply C; right; exact Epull).
  destruct (pullDistance g <? MIN_PULL_DISTANCE).
  - cbn [snd]. split; [ | split].
    + apply (Consistent_same g); try reflexivity; try apply C.
      * intros _. exact Hd.
      * globals. unfold MAX_PULL_DISTANCE. lra.
    + apply (reached_same g); try reflexivity. exact Hr.
    + apply grows_same; reflexivity.
  - assert (C0 : Consistent (set_isDragging false g)).
    { apply (Consistent_same g); try reflexivity; apply C. }
    destruct (launch_Consistent rnd (set_isDragging false g)
                (inv_levels g H) C0 Hd) as (g' & E & C' & R' & G').
    rewrite E. cbn [snd]. split; [exact C' | split; [exact R' | ]].
    eapply grows_trans; [ | exact G']. apply grows_same; reflexivity.
Qed.
Lemma onMouseDown_Consistent (x y : R) (g : Game) :
  Consistent g -> reached g ->
  Consistent (onMouseDown x y g) /\ reached (onMouseDown x y g) /\
  grows g (onMouseDown x y g).
Proof.
  intros C Hr. unfold onMouseDown.
  destruct (GameState_eqb (gameState g) ready) eqn:E; cbn [negb];
    [ | split; [exact C | split; [exact Hr | apply grows_refl]]].
  apply GameState_eqb_eq in E.
  split; [ | split].
  - apply (Consistent_same g); try reflexivity; try apply C.
    intros _. apply C. left. exact E.
  - apply (reached_same g); try reflexivity. exact Hr.
  - apply grows_same; reflexivity.
Qed.

Lemma pull_range (d : R) :
  0 <= Math_min MAX_PULL_DISTANCE (Math_max 0 d) <= MAX_PULL_DISTANCE.
Proof. unfold MAX_PULL_DISTANCE. rcases; lra. Qed.

Lemma onMouseMove_Consistent (x y : R) (g : Game) :
  Consistent g -> reached g ->
  Consistent (onMouseMove x y g) /\ reached (onMouseMove x y g) /\
  grows g (onMouseMove x y g).
Proof.
  intros C Hr. unfold onMouseMove.
  destruct (negb (isDragging g) || negb (GameState_eqb (gameState g) pulling));
    [split; [exact C | split; [exact Hr | apply grows_refl]] | ].
  cbv zeta.
  split; [ | split].
  - apply (Consistent_same g); globals;
      try (split_ifs; reflexivity); try apply C.
    + split_ifs; apply C.
    + split_ifs; apply pull_range.
  - apply (reached_same g); try (split_ifs; reflexivity). exact Hr.
  - apply grows_same; split_ifs; reflexivity.
Qed.

Lemma onKeyUp_Consistent (code : Code) (g : Game) :
  Consistent g -> reached g ->
  Consistent (onKeyUp code g) /\ reached (onKeyUp code g) /\
  grows g (onKeyUp code g).
Proof.
  intros C Hr.
  split; [ | split].
  - apply (Consistent_same g); try (destruct code; reflexivity); try apply C;
      destruct code; apply C.
  - apply (reached_same g); try (destruct code; reflexivity). exact Hr.
  - apply grows_same; destruct code; reflexivity.
Qed.

Lemma resetGame_Consistent (g : Game) :
  Consistent g ->
  Consistent (resetGame g) /\ reached (resetGame g) /\ grows g (resetGame g).
Proof.
  intros C. apply (Consistent_start g); try reflexivity; try assumption.
  - unfold resetGame. globals. rewrite getCheckpointStartPosition_start.
    reflexivity.
  - apply C.
  - unfold resetGame. globals. unfold MAX_PULL_DISTANCE. lra.
Qed.

Lemma selectCheckpoint_Consistent (z : Zone) (g : Game) :
  Consistent g -> reached g ->
  Consistent (selectCheckpoint z g) /\ reached (selectCheckpoint z g) /\
  grows g (selectCheckpoint z g).
Proof.
  intros C Hr. unfold selectCheckpoint.
  destruct (checkpoints g z) eqn:K; cbn [negb];
    [ | split; [exact C | split; [exact Hr | apply grows_refl]]].
  split; [ | split].
  - destruct C as [Hq Hb Hw Hc Hcl Hi Hs Hch Hp Hst].
    constructor; try (globals; assumption).
  - apply (reached_same g); try reflexivity. exact Hr.
  - apply grows_same; reflexivity.
Qed.

(** A charge is spent: one less, and still a natural number. *)
Lemma charges_spent (g : Game) :
  Consistent g ->
  (boosterUsesRemaining g <=? 0) = false ->
  exists n, boosterUsesRemaining g - 1 = INR n /\ (n <= upgrades g boosters)%nat.
Proof.
  intros C Hpos. destruct (con_charges g C) as (n & E & Hn).
  destruct (Rleb_spec (boosterUsesRemaining g) 0) as [ | Hgt]; [discriminate | ].
  destruct n as [ | n]; [cbn in E; lra | ].
  exists n. split; [rewrite E, S_INR; lra | lia].
Qed.

Lemma activateBooster_Consistent (g : Game) :
  Inv g -> Consistent g -> reached g ->
  Consistent (snd (activateBooster g)) /\
  reached (snd (activateBooster g)) /\
  grows g (snd (activateBooster g)).
Proof.
  intros H C Hr. unfold activateBooster, bind, get.
  assert (Hsame : Consistent g /\ reached g /\ grows g g).
  { split; [exact C | split; [exact Hr | apply grows_refl]]. }
  destruct (negb (GameState_eqb (gameState g) flying)) eqn:Efly; [exact Hsame | ].
  destruct (Nat.eqb_spec (upgrades g boosters) 0) as [E0 | Hne]; [exact Hsame | ].
  destruct (boosterUsesRemaining g <=? 0) eqn:Epos; [exact Hsame | ].
  destruct (boosterActive g); [exact Hsame | ].
  run.
  destruct (tierStat_in_range boosters (upgrades g boosters) "boost") as [v ->].
  { split; [lia | apply (inv_levels g H)]. }
  cbn. split; [ | split].
  - destruct (charges_spent g C Epos) as (n & En & Hn).
    destruct C as [Hq Hb Hw Hc Hcl Hi Hs Hch Hp Hst].
    constructor; try (globals; assumption).
    exists n. split; [exact En | exact Hn].
  - apply (reached_same g); try reflexivity. exact Hr.
  - apply grows_same; reflexivity.
Qed.

Lemma onKeyDown_Consistent (code : Code) (g : Game) :
  Inv g -> Consistent g -> reached g ->
  Consistent (snd (onKeyDown code g)) /\
  reached (snd (onKeyDown code g)) /\
  grows g (snd (onKeyDown code g)).
Proof.
  intros H C Hr.
  assert (Hkeys : forall f,
            Inv (over_keys f g) /\ Consistent (over_keys f g) /\
            reached (over_keys f g) /\ grows g (over_keys f g)).
  { intros f. split; [apply (Inv_same g); try reflexivity; exact H | ].
    split; [apply (Consistent_same g); try reflexivity; apply C | ].
    split; [apply (reached_same g); try reflexivity; exact Hr | ].
    apply grows_same; reflexivity. }
  destruct code; cbn [onKeyDown]; unfold modify; cbn [snd];
    try apply Hkeys;
    try (split; [exact C | split; [exact Hr | apply grows_refl]]).
  unfold bind, get.
  destruct (negb (k_boost (keys g)));
    [ | split; [exact C | split; [exact Hr | apply grows_refl]]].
  destruct (Hkeys (set_k_boost true)) as (H1 & C1 & R1 & G1).
  destruct (activateBooster_Consistent _ H1 C1 R1) as (C2 & R2 & G2).
  split; [exact C2 | split; [exact R2 | ]].
  exact (grows_trans _ _ _ G1 G2).
Qed.

Lemma increment_le (key k : UpgradeKey) (u : UpgradeKey -> nat) :
  (u k <= increment key u k)%nat.
Proof. unfold increment. destruct (UpgradeKey_eqb k key); lia. Qed.

Lemma UpgradeKey_eqb_eq (a b : UpgradeKey) : UpgradeKey_eqb a b = true <-> a = b.
Proof. destruct a, b; cbn; split; congruence. Qed.

Lemma purchaseUpgrade_Consistent (key : UpgradeKey) (g : Game) :
  Inv g -> Consistent g -> reached g ->
  Consistent (snd (purchaseUpgrade key g)) /\
  reached (snd (purchaseUpgrade key g)) /\
  grows g (snd (purchaseUpgrade key g)).
Proof.
  intros H C Hr. unfold purchaseUpgrade. run.
  assert (Hsame : Consistent g /\ reached g /\ grows g g).
  { split; [exact C | split; [exact Hr | apply grows_refl]]. }
  destruct (Nat.leb_spec (maxTier (UPGRADES key)) (upgrades g key)) as [ | Hlt];
    [exact Hsame | ].
  destruct (nth_error (tiers (UPGRADES key)) (upgrades g key)) as [next | ] eqn:En;
    [ | exact Hsame].
  destruct (Z.ltb_spec (coins g) (cost next)) as [ | Hcost]; [exact Hsame | ].
  destruct (match requires (UPGRADES key) with
            | Some requiredUpgrade => (upgrades g requiredUpgrade =? 0)%nat
            | None => false
            end) eqn:Ereq; [exact Hsame | ].
  set (g1 := set_upgrades _ _).
  destruct (saveProgress_readable g1 (storeOK_readable _ (inv_store g H)))
    as (saved & E).
  rewrite E. cbn [snd].
  split; [ | split].
  - destruct C as [Hq Hb Hw Hc Hcl Hi Hs Hch Hp Hst].
    constructor; try (subst g1; globals; assumption).
    + subst g1. globals. intros k r Hkr Hk.
      pose proof (increment_le key r (upgrades g)) as Hle.
      destruct (UpgradeKey_eqb k key) eqn:Ek.
      * apply UpgradeKey_eqb_eq in Ek. subst k. rewrite Hkr in Ereq.
        apply Nat.eqb_neq in Ereq. lia.
      * unfold increment in Hk. rewrite Ek in Hk.
        specialize (Hq k r Hkr Hk). lia.
    + subst g1. globals. rewrite (spent_increment key (upgrades g) next En).
      rewrite earned_cons. cbn [granted]. rewrite Z.add_0_l. intros Hbound.
      specialize (Hb Hbound).
      pose proof (spent_nonneg (upgrades g)) as Hspent.
      pose proof (UPGRADES_cost_pos key _ next En) as Hpos.
      rewrite round64_purchase by lia. lia.
    + subst g1. globals. destruct Hch as (n & E1 & Hn). exists n.
      split; [exact E1 | ].
      pose proof (increment_le key boosters (upgrades g)). lia.
    + apply loadProgress_afterSave.
  - apply (reached_same g); try reflexivity. exact Hr.
  - split; [intros k; apply increment_le | split; [auto | reflexivity]].
Qed.

Section Consistency.

Variable planeBounds : Vector3 -> Vector3 -> (UpgradeKey -> nat) -> Box3.

Lemma handle_Consistent (e : Event) (g : Game) :
  Inv g -> Consistent g -> reached g ->
  Consistent (handle planeBounds e g) /\
  reached (handle planeBounds e g) /\
  grows g (handle planeBounds e g).
Proof.
  intros H C Hr. destruct e; cbn [handle].
  - apply onMouseDown_Consistent; assumption.
  - apply onMouseMove_Consistent; assumption.
  - apply onMouseUp_Consistent; assumption.
  - apply onKeyDown_Consistent; assumption.
  - apply onKeyUp_Consistent; assumption.
  - destruct (animate_Consistent planeBounds time rnd g H C Hr)
      as (g' & E & _ & C' & R' & G').
    rewrite E. cbn [snd]. auto.
  - apply purchaseUpgrade_Consistent; assumption.
  - apply resetGame_Consistent; assumption.
  - destruct (checkpoints g checkpoint);
      [apply selectCheckpoint_Consistent; assumption | ].
    split; [exact C | split; [exact Hr | apply grows_refl]].
Qed.

Lemma play_Consistent (events : list Event) :
  forall g,
    Inv g -> Consistent g -> reached g ->
    Consistent (play planeBounds events g) /\
    reached (play planeBounds events g) /\
    grows g (play planeBounds events g).
Proof.
  induction events as [ | e events IH]; intros g H C Hr.
  - cbn. split; [exact C | split; [exact Hr | apply grows_refl]].
  - cbn [play fold_left].
    destruct (handle_Consistent e g H C Hr) as (C1 & R1 & G1).
    destruct (IH _ (proj1 (handle_Inv planeBounds e g H)) C1 R1) as (C2 & R2 & G2).
    split; [exact C2 | split; [exact R2 | ]].
    eapply grows_trans; eassumption.
Qed.

End Consistency.

Lemma Consistent_initialGame (obs : list Obstacle) :
  Consistent (initialGame obs) /\ reached (initialGame obs).
Proof.
  split; [constructor | ]; cbn.
  - intros k r _ Hk. lia.
  - reflexivity.
  - reflexivity.
  - reflexivity.
  - split; discriminate.
  - reflexivity.
  - exists runway. split; reflexivity.
  - exists 0%nat. split; [reflexivity | lia].
  - unfold MAX_PULL_DISTANCE. lra.
  - reflexivity.
  - intros z. cbn. destruct z; cbn; intros Hle; first [reflexivity | lra].
Qed.
(** ** What holds after any sequence of events *)

Lemma HUD_zone (g : Game) :
  0 <= startingZ g + distance g ->
  exists z,
    zoneDisplay (updateHUD g) = zoneTitle z /\
    zone_start (ZONES z) <= startingZ g + distance g /\
    (startingZ g + distance g < zone_end (ZONES z) \/ z = forest).
Proof.
  intros Hpos. unfold updateHUD. cbn [zoneDisplay].
  destruct (Rleb_spec (zone_start (ZONES forest)) (startingZ g + distance g))
    as [Hf | Hf]; [exists forest; cbn in *; auto | ].
  destruct (Rleb_spec (zone_start (ZONES desert)) (startingZ g + distance g))
    as [Hd | Hd]; [exists desert; cbn in *; split; [reflexivity | lra] | ].
  destruct (Rleb_spec (zone_start (ZONES city)) (startingZ g + distance g))
    as [Hc | Hc]; [exists city; cbn in *; split; [reflexivity | lra] | ].
  exists runway. cbn in *. split; [reflexivity | lra].
Qed.

Lemma zone_start_nonneg (z : Zone) : 0 <= zone_start (ZONES z).
Proof. destruct z; cbn; lra. Qed.

Section Reached.

Variable planeBounds : Vector3 -> Vector3 -> (UpgradeKey -> nat) -> Box3.

(** X6. Whatever the player does from the start of the game with an empty
    store: an upgrade that requires another one (wheels, tail, aerodynamic
    and boosters require wings) is owned only if the required one is, and
    no level ever decreases. *)
Theorem owned_upgrades_have_their_requirement :
  forall (obs : list Obstacle) (before after : list Event) (k : UpgradeKey),
    let g := play planeBounds before (initialGame obs) in
    match requires (UPGRADES k) with
    | Some r => upgrades g k = 0%nat \/ (0 < upgrades g r)%nat
    | None => True
    end /\
    (upgrades g k <= upgrades (play planeBounds after g) k)%nat.
Proof.
  intros obs before after k g.
  destruct (Consistent_initialGame obs) as [C0 R0].
  destruct (play_Inv planeBounds before _ (Inv_initialGame obs)) as (H & _).
  destruct (play_Consistent planeBounds before _ (Inv_initialGame obs) C0 R0)
    as (C & R & _).
  fold g in H, C, R. split.
  - destruct (requires (UPGRADES k)) as [r | ] eqn:Er; [ | exact I].
    destruct (upgrades g k) as [ | n] eqn:Ek; [left; reflexivity | right].
    apply (con_requires g C k r Er). lia.
  - destruct (play_Consistent planeBounds after g H C R) as (_ & _ & G).
    apply G.
Qed.


(** X8. Whatever the player does from the start of the game with an empty
    store: the runway and the selected checkpoint are unlocked; a zone is
    unlocked only if the zones before it are; the run started at the start
    of an unlocked zone; every zone that starts at or before the plane's
    absolute position is unlocked; and a checkpoint, once unlocked, stays
    unlocked. *)
Theorem checkpoints_unlocked :
  forall (obs : list Obstacle) (before after : list Event),
    let g := play planeBounds before (initialGame obs) in
    checkpoints g runway = true /\
    checkpoints g (currentCheckpoint g) = true /\
    (checkpoints g forest = true -> checkpoints g desert = true) /\
    (checkpoints g desert = true -> checkpoints g city = true) /\
    (exists z, checkpoints g z = true /\ startingZ g = zone_start (ZONES z)) /\
    (forall z, zone_start (ZONES z) <= startingZ g + distance g ->
               checkpoints g z = true) /\
    (forall z, checkpoints g z = true ->
               checkpoints (play planeBounds after g) z = true).
Proof.
  intros obs before after g.
  destruct (Consistent_initialGame obs) as [C0 R0].
  destruct (play_Inv planeBounds before _ (Inv_initialGame obs)) as (H & _).
  destruct (play_Consistent planeBounds before _ (Inv_initialGame obs) C0 R0)
    as (C & R & _).
  fold g in H, C, R.
  destruct (play_Consistent planeBounds after g H C R) as (_ & _ & _ & G & _).
  destruct C as [Hq Hb Hw Hc [Hf Hd] Hi Hs Hch Hp Hst].
  repeat (split; [assumption | ]). exact G.
Qed.

(** X9. Whatever the player does from the start of the game with an empty
    store, the HUD shows the zone the plane's absolute position is in (the
    forest beyond its end), that zone is unlocked, and the meters shown are
    not negative. *)
Theorem updateHUD_zone_unlocked :
  forall (obs : list Obstacle) (events : list Event),
    let g := play planeBounds events (initialGame obs) in
    exists z,
      zoneDisplay (updateHUD g) = zoneTitle z /\
      checkpoints g z = true /\
      zone_start (ZONES z) <= startingZ g + distance g /\
      (startingZ g + distance g < zone_end (ZONES z) \/ z = forest) /\
      (0 <= distanceDisplay (updateHUD g))%Z.
Proof.
  intros obs events g.
  destruct (Consistent_initialGame obs) as [C0 R0].
  destruct (play_Inv planeBounds events _ (Inv_initialGame obs)) as (H & _).
  destruct (play_Consistent planeBounds events _ (Inv_initialGame obs) C0 R0)
    as (C & R & _).
  fold g in H, C, R.
  assert (Hpos : 0 <= startingZ g + distance g).
  { destruct (con_start g C) as (z & _ & ->).
    pose proof (zone_start_nonneg z). pose proof (inv_distance g H). lra. }
  destruct (HUD_zone g Hpos) as (z & Ez & Hlo & Hhi).
  exists z. split; [exact Ez | ]. split; [apply R, Hlo | ].
  split; [exact Hlo | ]. split; [exact Hhi | ].
  apply Math_floor_nonneg, (inv_distance g H).
Qed.

(** X10. Whatever the player does from the start of the game with an empty
    store, the booster charges left are a natural number, at most the level
    of the boosters (at most 10, none without boosters), and the HUD shows
    them exactly when boosters are owned. *)
Theorem booster_charges :
  forall (obs : list Obstacle) (events : list Event),
    let g := play planeBounds events (initialGame obs) in
    exists n : nat,
      boosterUsesRemaining g = INR n /\
      (n <= upgrades g boosters)%nat /\
      (n <= 10)%nat /\
      boosterCount (updateHUD g)
        = (if (0 <? upgrades g boosters)%nat then Some (INR n) else None).
Proof.
  intros obs events g.
  destruct (Consistent_initialGame obs) as [C0 R0].
  destruct (play_Inv planeBounds events _ (Inv_initialGame obs)) as (H & _).
  destruct (play_Consistent planeBounds events _ (Inv_initialGame obs) C0 R0)
    as (C & R & _).
  fold g in H, C, R.
  destruct (con_charges g C) as (n & E & Hn).
  exists n. split; [exact E | ]. split; [exact Hn | ].
  split; [pose proof (inv_levels g H boosters) as Hl; cbn in Hl; lia | ].
  unfold updateHUD. cbn [boosterCount]. rewrite E. reflexivity.
Qed.

(** X11. Whatever the player does from the start of the game with an empty
    store, the store holds the progress of that moment: loading it into a
    fresh game gives the current coins, levels and checkpoints. *)
Theorem stored_progress_is_current :
  forall (obs : list Obstacle) (events : list Event),
    let g := play planeBounds events (initialGame obs) in
    loadProgress (localStorage g) defaultProgress = (Returned tt, progressOf g).
Proof.
  intros obs events g.
  destruct (Consistent_initialGame obs) as [C0 R0].
  apply (play_Consistent planeBounds events _ (Inv_initialGame obs) C0 R0).
Qed.

(** X12. Whatever the player does from the start of the game with an empty
    store: while the game is ready or pulling, the run distance is 0; the
    pull is within [0, MAX_PULL_DISTANCE]; and the obstacles are those
    placed at the start. *)
Theorem idle_game :
  forall (obs : list Obstacle) (events : list Event),
    let g := play planeBounds events (initialGame obs) in
    (gameState g = ready \/ gameState g = pulling -> distance g = 0) /\
    0 <= pullDistance g <= MAX_PULL_DISTANCE /\
    obstacles g = obs.
Proof.
  intros obs events g.
  destruct (Consistent_initialGame obs) as [C0 R0].
  destruct (play_Consistent planeBounds events _ (Inv_initialGame obs) C0 R0)
    as (C & R & _ & _ & Eo).
  fold g in C, R, Eo.
  split; [apply C | split; [apply C | exact Eo]].
Qed.

End Reached.

(** ** The state machine *)

Lemma preserves_ret (P : Game -> Prop) (A : Type) (a : A) : preserves P (ret a).
Proof. intros g H. exact H. Qed.

Lemma preserves_bind (P : Game -> Prop) (A B : Type) (m : M A) (k : A -> M B) :
  preserves P m -> (forall a, preserves P (k a)) -> preserves P (bind m k).
Proof.
  intros Hm Hk g H. unfold bind. specialize (Hm g H).
  destruct (m g) as [[a | e] g1]; cbn [snd] in *; [apply Hk, Hm | exact Hm].
Qed.

Lemma preserves_get (P : Game -> Prop) (B : Type) (k : Game -> M B) :
  (forall g, P g -> P (snd (k g g))) -> preserves P (bind get k).
Proof. intros Hk g H. unfold bind, get. apply Hk, H. Qed.

Lemma preserves_modify (P : Game -> Prop) (f : Game -> Game) :
  (forall g, P g -> P (f g)) -> preserves P (modify f).
Proof. intros Hf g H. apply Hf, H. Qed.

Lemma preserves_lift (P : Game -> Prop) (A : Type) (o : Outcome A) :
  preserves P (lift o).
Proof. intros g H. exact H. Qed.

Lemma preserves_when (P : Game -> Prop) (c : bool) (m : M unit) :
  preserves P m -> preserves P (when c m).
Proof. intros Hm. destruct c; [exact Hm | apply preserves_ret]. Qed.

(** [saveProgress] keeps every property that reads neither the store nor
    the log. *)
Lemma preserves_saveProgress (P : Game -> Prop) :
  (forall b g, P g -> P (set_localStorage b g)) ->
  (forall l g, P g -> P (set_log l g)) ->
  preserves P saveProgress.
Proof.
  intros Hs Hl. unfold saveProgress.
  apply preserves_get. intros g H.
  apply (preserves_bind P); [ | intros saved | exact H].
  - intros g0 H0. rewrite getSavedHighestDistance_state. exact H0.
  - apply preserves_bind; [ | intros _].
    + apply preserves_modify. intros g0. apply Hs.
    + apply preserves_modify. intros g0. apply Hl.
Qed.

Lemma preserves_emit (P : Game -> Prop) (e : Effect) :
  (forall l g, P g -> P (set_log l g)) -> preserves P (emit e).
Proof. intros Hl. apply preserves_modify. intros g. apply Hl. Qed.

(** [crash] and [victory] end in the crashed state, however they end. *)
Lemma crash_gameState (g : Game) : gameState (snd (crash g)) = crashed.
Proof.
  unfold crash. unfold bind at 1, modify at 1.
  apply (preserves_get (fun g => gameState g = crashed)); [ | reflexivity].
  intros g0 H0.
  apply (preserves_bind (fun g => gameState g = crashed)); [ | intros _ | exact H0].
  - apply preserves_modify. intros g1 H1. exact H1.
  - apply preserves_bind; [ | intros _].
    + apply preserves_saveProgress; intros ? g1 H1; exact H1.
    + apply preserves_emit. intros ? g1 H1. exact H1.
Qed.

Lemma victory_gameState (g : Game) : gameState (snd (victory g)) = crashed.
Proof.
  unfold victory. unfold bind at 1, modify at 1.
  apply (preserves_get (fun g => gameState g = crashed)); [ | reflexivity].
  intros g0 H0.
  apply (preserves_bind (fun g => gameState g = crashed)); [ | intros _ | exact H0].
  - apply preserves_modify. intros g1 H1. exact H1.
  - apply preserves_bind; [ | intros _].
    + apply preserves_saveProgress; intros ? g1 H1; exact H1.
    + apply preserves_emit. intros ? g1 H1. exact H1.
Qed.

Lemma preserves_crash : preserves launched crash.
Proof. intros g _. right. apply crash_gameState. Qed.

Lemma preserves_victory : preserves launched victory.
Proof. intros g _. right. apply victory_gameState. Qed.

Lemma launched_same (g g' : Game) :
  gameState g' = gameState g -> launched g -> launched g'.
Proof. unfold launched. intros ->. auto. Qed.

Lemma preserves_checkAndUnlockCheckpoints (P : Game -> Prop) :
  (forall c g, P g -> P (set_checkpoints c g)) ->
  (forall b g, P g -> P (set_localStorage b g)) ->
  (forall l g, P g -> P (set_log l g)) ->
  preserves P checkAndUnlockCheckpoints.
Proof.
  intros Hc Hs Hl. unfold checkAndUnlockCheckpoints.
  apply preserves_get. intros g H. cbv zeta.
  destruct (unlockAt_chain_spec (startingZ g + distance g) g) as (c & E & _ & _).
  cbv zeta in E.
  set (s := unlockAt forest _ _) in *.
  apply (preserves_bind P); [ | intros _ | exact H].
  - apply preserves_modify. intros _ _. rewrite E. apply Hc, H.
  - apply preserves_when, preserves_saveProgress; assumption.
Qed.

Section Machine.

Variable planeBounds : Vector3 -> Vector3 -> (UpgradeKey -> nat) -> Box3.

Lemma preserves_checkObstacleCollisions :
  preserves launched (checkObstacleCollisions planeBounds).
Proof.
  unfold checkObstacleCollisions. apply preserves_get. intros g H.
  destruct (negb (GameState_eqb (gameState g) flying)); [exact H | ].
  destruct (firstHit _ _ _) as [obstacle | ]; [ | exact H].
  unfold handleCollision.
  apply (preserves_bind launched); [ | intros _; apply preserves_crash | exact H].
  apply preserves_emit. intros ? g1. apply launched_same. reflexivity.
Qed.

(** A tick leaves the state as it is or, from flying, ends in crashed. *)
Lemma updatePhysics_gameState (dt rnd : R) (g : Game) :
  gameState (snd (updatePhysics planeBounds dt rnd g)) = gameState g \/
  (gameState g = flying /\
   gameState (snd (updatePhysics planeBounds dt rnd g)) = crashed).
Proof.
  destruct (GameState_eqb (gameState g) flying) eqn:Efly.
  - apply GameState_eqb_eq in Efly.
    rewrite (updatePhysics_flying planeBounds dt rnd g Efly).
    assert (H1 : launched (integrate dt rnd g)).
    { left. rewrite <- Efly. apply integrate_sameProgress. }
    assert (H : launched
                  (snd ((checkAndUnlockCheckpoints;;
                         checkObstacleCollisions planeBounds;;
                         g' <- get;;
                         (if 6000 <=? vz (plane_position g') then victory
                          else g'' <- get;; when (stopped g'') crash))
                          (integrate dt rnd g)))).
    { revert H1. apply (preserves_bind launched); [ | intros _].
      - apply preserves_checkAndUnlockCheckpoints;
          intros ? g1; apply launched_same; reflexivity.
      - apply preserves_bind; [apply preserves_checkObstacleCollisions | intros _].
        apply preserves_get. intros g1 H1.
        destruct (6000 <=? vz (plane_position g1));
          [apply preserves_victory, H1 | ].
        apply (preserves_get launched); [ | exact H1]. intros g2 H2.
        apply preserves_when; [apply preserves_crash | exact H2]. }
    destruct H as [H | H]; [left | right]; rewrite H; auto.
  - left. rewrite updatePhysics_not_flying; [reflexivity | ].
    intros E. rewrite E in Efly. discriminate Efly.
Qed.

Lemma activateBooster_gameState (g : Game) :
  gameState (snd (activateBooster g)) = gameState g.
Proof.
  unfold activateBooster, bind at 1, get at 1.
  destruct (negb (GameState_eqb (gameState g) flying)); [reflexivity | ].
  destruct (upgrades g boosters =? 0)%nat; [reflexivity | ].
  destruct (boosterUsesRemaining g <=? 0); [reflexivity | ].
  destruct (boosterActive g); [reflexivity | ].
  run. case_tierStat; reflexivity.
Qed.

Lemma purchaseUpgrade_gameState (key : UpgradeKey) (g : Game) :
  gameState (snd (purchaseUpgrade key g)) = gameState g.
Proof.
  unfold purchaseUpgrade, bind at 1, get at 1. cbv zeta.
  destruct (maxTier (UPGRADES key) <=? upgrades g key)%nat; [reflexivity | ].
  destruct (nth_error _ _) as [next | ]; [ | reflexivity].
  destruct (coins g <? cost next)%Z; [reflexivity | ].
  match goal with |- context [if ?c then _ else _] => destruct c end;
    [reflexivity | ].
  unfold bind at 1, modify at 1. unfold bind at 1, modify at 1.
  apply (preserves_saveProgress (fun g' => gameState g' = gameState g));
    auto.
Qed.

(** X13. The state machine: an event leaves the state of the game as it is,
    or takes it from ready to pulling (mouse down), from pulling to ready or
    flying (mouse up), from flying to crashed (a frame), or to ready (the
    continue button), whether the handler returns or throws.  So a crashed
    game stays crashed until the continue button, and mouse input while
    flying or crashed changes nothing. *)
Theorem handle_transitions :
  forall (e : Event) (g : Game),
    legal (gameState g) e (gameState (handle planeBounds e g)) /\
    (gameState g = crashed -> e <> Continue ->
     gameState (handle planeBounds e g) = crashed) /\
    (gameState g = flying \/ gameState g = crashed ->
     forall x y rnd,
       handle planeBounds (MouseDown x y) g = g /\
       handle planeBounds (MouseMove x y) g = g /\
       handle planeBounds (MouseUp rnd) g = g).
Proof.
  intros e g.
  assert (L : legal (gameState g) e (gameState (handle planeBounds e g))).
  { unfold legal. destruct e; cbn [handle].
    - unfold onMouseDown.
      destruct (GameState_eqb (gameState g) ready) eqn:E; cbn [negb]; [ | auto].
      apply GameState_eqb_eq in E. right. split; [exact E | reflexivity].
    - left. unfold onMouseMove. split_ifs; reflexivity.
    - destruct (isDragging g) eqn:Edrag;
        [ | left; unfold onMouseUp, bind, get; rewrite Edrag; reflexivity].
      destruct (GameState_eqb (gameState g) pulling) eqn:Epull;
        [ | left; unfold onMouseUp, bind, get; rewrite Epull, orb_true_r;
            reflexivity].
      apply GameState_eqb_eq in Epull. right. split; [exact Epull | ].
      rewrite (onMouseUp_pulling rnd g Epull Edrag).
      destruct (pullDistance g <? MIN_PULL_DISTANCE);
        [left; reflexivity | right; apply launch_gameState].
    - left. destruct code; cbn [onKeyDown]; try reflexivity.
      unfold bind at 1, get at 1.
      destruct (negb (k_boost (keys g))); [ | reflexivity].
      unfold bind, modify.
      rewrite (activateBooster_gameState (over_keys (set_k_boost true) g)).
      reflexivity.
    - left. destruct code; reflexivity.
    - rewrite animate_unfold.
      pose proof (updatePhysics_gameState (clampedDelta time (lastTime g)) rnd
                    (set_lastTime time g)) as H.
      destruct (updatePhysics planeBounds _ rnd (set_lastTime time g))
        as [[[] | ex] g1]; cbn [snd] in *;
        rewrite ?(updateBoosterEffect_frame _ g1 _ gameState) by reflexivity;
        destruct H as [H | [H1 H2]]; auto.
    - left. apply purchaseUpgrade_gameState.
    - right. reflexivity.
    - left. unfold selectCheckpoint. split_ifs; reflexivity. }
  split; [exact L | split].
  - intros Hc Hne. destruct L as [L | L]; [congruence | ].
    destruct e; try contradiction; try congruence;
      destruct L as [L _]; congruence.
  - intros Hs x y rnd. cbn [handle].
    unfold onMouseDown, onMouseMove, onMouseUp, bind, get.
    destruct Hs as [-> | ->]; cbn; rewrite ?orb_true_r; auto.
Qed.

End Machine.
(** ** The slingshot gesture and the launch *)

(** The multiplier of an owned slingshot is between 1.1 and 3. *)
Lemma power_range (level : nat) :
  (0 < level <= 10)%nat ->
  exists m, tierStat slingshot level "power" = Returned m /\ 1.1 <= m <= 3.
Proof.
  intros [H1 H2].
  do 11 (destruct level as [ | level];
         [first [lia | unfold tierStat, effect; cbn; eexists;
                       split; [reflexivity | lra]] | ]).
  lia.
Qed.

(** The speed of a velocity of norm [p] along an angle. *)
Lemma length_polar (t p : R) :
  0 <= p -> length (vec3 0 (sin t * p) (cos t * p)) = p.
Proof.
  intros Hp. unfold length. cbn.
  pose proof (sin2_cos2 t) as Hsc. unfold Rsqr in Hsc.
  replace (0 * 0 + sin t * p * (sin t * p) + cos t * p * (cos t * p))
    with (p * p) by nra.
  apply sqrt_square. exact Hp.
Qed.

(** The launch angle is between 20 and 60 degrees: the plane leaves upward
    and forward, with at least half of its speed forward. *)
Lemma launch_direction (a : R) :
  0.1 <= a <= 0.9 ->
  0 < sin (angleDegrees a * (PI / 180)) /\
  1 / 2 <= cos (angleDegrees a * (PI / 180)).
Proof.
  intros Ha. unfold angleDegrees. pose proof PI_RGT_0 as Hpi.
  assert (Hlo : PI / 9 <= (15 + a * 50) * (PI / 180)) by nra.
  assert (Hhi : (15 + a * 50) * (PI / 180) <= PI / 3) by nra.
  split.
  - apply sin_gt_0; lra.
  - rewrite <- cos_PI3. apply cos_decr_1; lra.
Qed.

(** The state a launch sets: the velocity in polar form, [p] being the
    power and [m] the slingshot's multiplier. *)
Lemma launch_flight :
  forall (rnd : R) (g : Game),
    levelsInRange g ->
    exists g' m,
      launch rnd g = (Returned tt, g') /\
      1 <= m <= 3 /\
      (upgrades g slingshot = 0%nat -> m = 1) /\
      velocity g'
        = vec3 0
            (sin (angleDegrees (launchAngle g) * (PI / 180))
             * (Math_max 20 (pullDistance g * LAUNCH_POWER_MULTIPLIER) * m))
            (cos (angleDegrees (launchAngle g) * (PI / 180))
             * (Math_max 20 (pullDistance g * LAUNCH_POWER_MULTIPLIER) * m)) /\
      plane_position g'
        = vec3 0 slingshotHeight (zone_start (ZONES (currentCheckpoint g))) /\
      startingZ g' = zone_start (ZONES (currentCheckpoint g)) /\
      gameState g' = flying /\
      launchAngle g' = 0.5 /\
      highestDistanceThisRun g' = 0.
Proof.
  intros rnd g Hl.
  assert (Hm : exists m,
            1 <= m <= 3 /\ (upgrades g slingshot = 0%nat -> m = 1) /\
            (if (0 <? upgrades g slingshot)%nat
             then lift (tierStat slingshot (upgrades g slingshot) "power")
             else ret 1) = lift (Returned m)).
  { pose proof (Hl slingshot) as Hs.
    change (maxTier (UPGRADES slingshot)) with 10%nat in Hs.
    destruct (upgrades g slingshot) as [ | s] eqn:Es; cbn [Nat.ltb Nat.leb].
    - exists 1. split; [lra | split; reflexivity].
    - destruct (power_range (S s)) as (m & -> & Hr); [lia | ].
      exists m. split; [lra | split; [discriminate | reflexivity]]. }
  destruct Hm as (m & Hm & Hm1 & Em).
  pose proof (Hl boosters) as Hb.
  change (maxTier (UPGRADES boosters)) with 10%nat in Hb.
  set (p := Math_max 20 (pullDistance g * LAUNCH_POWER_MULTIPLIER) * m).
  assert (E : exists g',
            launch rnd g = (Returned tt, g') /\
            velocity g'
            = vec3 0 (sin (angleDegrees (launchAngle g) * (PI / 180)) * p)
                (cos (angleDegrees (launchAngle g) * (PI / 180)) * p) /\
            plane_position g'
            = vec3 0 slingshotHeight (zone_start (ZONES (currentCheckpoint g))) /\
            startingZ g' = zone_start (ZONES (currentCheckpoint g)) /\
            gameState g' = flying /\ launchAngle g' = 0.5 /\
            highestDistanceThisRun g' = 0).
  { unfold launch. unfold bind at 1, modify at 1. unfold bind at 1, get at 1.
    globals. rewrite Em. unfold bind at 1, lift at 1. cbv zeta.
    destruct (upgrades g boosters) as [ | b] eqn:Eb; cbn [Nat.ltb Nat.leb];
      try rewrite (boosters_uses (S b)) by lia; run;
      rewrite !getCheckpointStartPosition_start;
      (eexists; split; [reflexivity | ]; repeat split). }
  destruct E as (g' & E & Rest).
  exists g', m.
  split; [exact E | split; [exact Hm | split; [exact Hm1 | exact Rest]]].
Qed.

(** X14. A launch from a pull within [0, MAX_PULL_DISTANCE] at an angle
    parameter within [0.1, 0.9], with levels of the catalogue: it returns;
    the speed is [max(20, 8 * pull)] times the slingshot's multiplier (1
    without the upgrade, at most 3), so between 20 and 240; the plane leaves
    upward and forward, at least half of the speed being forward; it starts
    at the slingshot of the selected checkpoint, flying, with the angle
    parameter back at 0.5. *)
Theorem launch_envelope :
  forall (rnd : R) (g : Game),
    levelsInRange g ->
    0.1 <= launchAngle g <= 0.9 ->
    0 <= pullDistance g <= MAX_PULL_DISTANCE ->
    exists g' m,
      launch rnd g = (Returned tt, g') /\
      1 <= m <= 3 /\
      (upgrades g slingshot = 0%nat -> m = 1) /\
      length (velocity g')
        = Math_max 20 (pullDistance g * LAUNCH_POWER_MULTIPLIER) * m /\
      20 <= length (velocity g') <= 240 /\
      vx (velocity g') = 0 /\
      0 < vy (velocity g') /\
      length (velocity g') / 2 <= vz (velocity g') /\
      plane_position g'
        = vec3 0 slingshotHeight (zone_start (ZONES (currentCheckpoint g))) /\
      startingZ g' = zone_start (ZONES (currentCheckpoint g)) /\
      gameState g' = flying /\
      launchAngle g' = 0.5 /\
      highestDistanceThisRun g' = 0.
Proof.
  intros rnd g Hl Ha Hp.
  destruct (launch_direction (launchAngle g) Ha) as [Hsin Hcos].
  assert (Hpow : 20 <= Math_max 20 (pullDistance g * LAUNCH_POWER_MULTIPLIER) <= 80).
  { unfold MAX_PULL_DISTANCE, LAUNCH_POWER_MULTIPLIER in *. rcases; lra. }
  destruct (launch_flight rnd g Hl)
    as (g' & m & E & Hm & Hm1 & Ev & Epos & Ez & Es & Eang & Eh).
  set (p := Math_max 20 (pullDistance g * LAUNCH_POWER_MULTIPLIER) * m) in *.
  assert (Hp0 : 20 <= p <= 240) by (unfold p; nra).
  exists g', m. rewrite Ev, (length_polar _ p) by lra. cbn [vx vy vz].
  repeat (split; try assumption); try lra; try reflexivity.
  - apply Rmult_lt_0_compat; lra.
  - nra.
Qed.

Lemma launch_envelope_witness :
  exists g' m,
    launch 0.5 (set_pullDistance 5 (initialGame [])) = (Returned tt, g') /\
    1 <= m <= 3 /\
    20 <= length (velocity g') <= 240.
Proof.
  destruct (launch_envelope 0.5 (set_pullDistance 5 (initialGame [])))
    as (g' & m & E & Hm & _ & _ & Hv & _).
  - intros k. destruct k; cbn; lia.
  - cbn. lra.
  - cbn. unfold MAX_PULL_DISTANCE. lra.
  - exists g', m. auto.
Defined.
Lemma pull_range_min (d : R) :
  0 <= d -> 0 <= Math_min MAX_PULL_DISTANCE (d / 20) <= MAX_PULL_DISTANCE.
Proof. intros Hd. unfold MAX_PULL_DISTANCE. rcases; lra. Qed.

(** The pull [onMouseMove] computes from the pointer, from a state in which
    a drag is in progress. *)
Lemma onMouseMove_pullDistance (x y : R) (g : Game) :
  isDragging g = true -> gameState g = pulling ->
  pullDistance (onMouseMove x y g)
  = Math_min MAX_PULL_DISTANCE
      (sqrt ((x - x2 (pullStart g)) * (x - x2 (pullStart g))
             + (y - y2 (pullStart g)) * (y - y2 (pullStart g))) / 20) /\
  gameState (onMouseMove x y g) = pulling /\
  isDragging (onMouseMove x y g) = true /\
  upgrades (onMouseMove x y g) = upgrades g /\
  velocity (onMouseMove x y g) = velocity g /\
  slingshotPosition (onMouseMove x y g) = slingshotPosition g.
Proof.
  intros Ed Es. unfold onMouseMove. rewrite Ed, Es. cbn [negb orb GameState_eqb].
  cbv zeta. globals. cbn [x2 y2].
  set (d := sqrt _).
  assert (Hd : 0 <= d) by apply sqrt_pos.
  split; [ | split_ifs; repeat split; globals; assumption].
  assert (E : Math_max 0 (d / 20) = d / 20) by (rcases; lra).
  split_ifs; globals; rewrite E; reflexivity.
Qed.

(** X15. The slingshot gesture, from a ready game: press at a point, move to
    another, release.  The pull is the pointer's distance in pixels over 20,
    capped at MAX_PULL_DISTANCE.  Released less than 10 pixels away, the
    plane goes back to the slingshot and the game is ready again, nothing
    launched.  Released 10 pixels away or more, the plane is launched, at
    [max(20, min(80, 0.4 * pixels))] times the slingshot's multiplier. *)
Theorem slingshot_gesture :
  forall (x0 y0 x1 y1 rnd : R) (g : Game),
    gameState g = ready ->
    let pixels := sqrt ((x1 - x0) * (x1 - x0) + (y1 - y0) * (y1 - y0)) in
    let pulled := onMouseMove x1 y1 (onMouseDown x0 y0 g) in
    pullDistance pulled = Math_min MAX_PULL_DISTANCE (pixels / 20) /\
    (pixels < 10 ->
     exists g',
       onMouseUp rnd pulled = (Returned tt, g') /\
       gameState g' = ready /\
       pullDistance g' = 0 /\
       velocity g' = velocity g /\
       plane_position g'
         = vec3 (vx (slingshotPosition g)) (slingshotHeight - 0.5)
             (vz (slingshotPosition g))) /\
    (10 <= pixels ->
     gameState (snd (onMouseUp rnd pulled)) = flying /\
     (levelsInRange g ->
      0.1 <= launchAngle g <= 0.9 ->
      exists m,
        1 <= m <= 3 /\
        (upgrades g slingshot = 0%nat -> m = 1) /\
        fst (onMouseUp rnd pulled) = Returned tt /\
        length (velocity (snd (onMouseUp rnd pulled)))
          = Math_max 20 (Math_min 80 (0.4 * pixels)) * m)).
Proof.
  intros x0 y0 x1 y1 rnd g Hready pixels pulled.
  assert (Hdown : onMouseDown x0 y0 g
                  = set_pullCurrent (vec2 x0 y0)
                      (set_pullStart (vec2 x0 y0)
                         (set_gameState pulling (set_isDragging true g)))).
  { unfold onMouseDown. rewrite Hready. reflexivity. }
  destruct (onMouseMove_pullDistance x1 y1 (onMouseDown x0 y0 g))
    as (Ep & Es & Ed & Eu & Ev & Esl);
    [rewrite Hdown; reflexivity | rewrite Hdown; reflexivity | ].
  fold pulled in Ep, Es, Ed, Eu, Ev, Esl.
  assert (Hps : pullStart (onMouseDown x0 y0 g) = vec2 x0 y0)
    by (rewrite Hdown; reflexivity).
  rewrite Hps in Ep. cbn [x2 y2] in Ep. fold pixels in Ep.
  assert (Hpix : 0 <= pixels) by apply sqrt_pos.
  split; [exact Ep | ].
  rewrite (onMouseUp_pulling rnd pulled Es Ed), Ep.
  split.
  - intros Hlt.
    rewrite Rltb_true by (unfold MIN_PULL_DISTANCE, MAX_PULL_DISTANCE; rcases; lra).
    eexists. split; [reflexivity | ]. globals.
    rewrite Esl, Ev, Hdown. repeat split.
  - intros Hge.
    rewrite Rltb_false by (unfold MIN_PULL_DISTANCE, MAX_PULL_DISTANCE; rcases; lra).
    split; [apply launch_gameState | ].
    intros Hl Ha.
    destruct (launch_flight rnd (set_isDragging false pulled))
      as (g' & m & E & Hm & Hm1 & Ev' & _).
    + intros k. globals. rewrite Eu, Hdown. apply Hl.
    + exists m. split; [exact Hm | ]. split.
      * intros H0. apply Hm1. globals. rewrite Eu, Hdown. exact H0.
      * rewrite E. cbn [fst snd]. split; [reflexivity | ].
        rewrite Ev', length_polar.
        -- globals. rewrite Ep. f_equal.
           unfold MAX_PULL_DISTANCE, LAUNCH_POWER_MULTIPLIER. rcases; lra.
        -- apply Rmult_le_pos; [ | lra].
           unfold Math_max. rcases; lra.
Qed.

Lemma slingshot_gesture_witness :
  pullDistance (onMouseMove 400 500 (onMouseDown 400 300 (initialGame [])))
  = Math_min MAX_PULL_DISTANCE
      (sqrt ((400 - 400) * (400 - 400) + (500 - 300) * (500 - 300)) / 20).
Proof.
  exact (proj1 (slingshot_gesture 400 300 400 500 0.5 (initialGame []) eq_refl)).
Defined.
(** ** Boosters *)

(** The boost of an owned booster is between 15 and 45. *)
Lemma boost_range (level : nat) :
  (0 < level <= 10)%nat ->
  exists b, tierStat boosters level "boost" = Returned b /\ 15 <= b <= 45.
Proof.
  intros [H1 H2].
  do 11 (destruct level as [ | level];
         [first [lia | unfold tierStat, effect; cbn; eexists;
                       split; [reflexivity | lra]] | ]).
  lia.
Qed.

(** The direction of the boost is a unit vector, forward and slightly up. *)
Lemma forward_unit :
  exists u, 0 < u /\ normalize (vec3 0 0.3 1) = vec3 0 (0.3 * u) u /\
            0.3 * u * (0.3 * u) + u * u = 1.
Proof.
  set (L := length (vec3 0 0.3 1)).
  assert (HL2 : L * L = 1.09).
  { unfold L. rewrite length_sqr. cbn. lra. }
  assert (HL : 0 < L).
  { pose proof (length_nonneg (vec3 0 0.3 1)) as H. fold L in H.
    destruct H as [H | H]; [exact H | rewrite <- H in HL2; lra]. }
  exists (/ L). split; [apply Rinv_0_lt_compat, HL | ].
  split.
  - unfold normalize. fold L.
    destruct (Reqb_spec L 0) as [E | _]; [lra | ].
    unfold multiplyScalar. cbn. f_equal; lra.
  - replace (0.3 * / L * (0.3 * / L) + / L * / L) with (1.09 * (/ L * / L)) by lra.
    rewrite <- HL2. field. lra.
Qed.

(** X16. Boosters.  Pressing the boost is ignored unless the plane is
    flying, boosters are owned, a charge is left and no boost is burning.
    Otherwise it returns, takes one charge, adds to the velocity an impulse
    of the tier's boost (15 to 45) along the unit vector of (0, 0.3, 1), so
    forward and upward and nothing sideways, and starts a burn of
    BOOSTER_DURATION during which a second press is ignored. *)
Theorem activateBooster_once :
  forall g : Game,
    (gameState g <> flying \/ upgrades g boosters = 0%nat \/
     boosterUsesRemaining g <= 0 \/ boosterActive g = true ->
     activateBooster g = (Returned tt, g)) /\
    (gameState g = flying ->
     (0 < upgrades g boosters <= maxTier (UPGRADES boosters))%nat ->
     0 < boosterUsesRemaining g ->
     boosterActive g = false ->
     exists g' boost,
       activateBooster g = (Returned tt, g') /\
       tierStat boosters (upgrades g boosters) "boost" = Returned boost /\
       15 <= boost <= 45 /\
       boosterUsesRemaining g' = boosterUsesRemaining g - 1 /\
       velocity g'
         = add (velocity g) (multiplyScalar (normalize (vec3 0 0.3 1)) boost) /\
       length (multiplyScalar (normalize (vec3 0 0.3 1)) boost) = boost /\
       vx (velocity g') = vx (velocity g) /\
       vy (velocity g) < vy (velocity g') /\
       vz (velocity g) < vz (velocity g') /\
       boosterActive g' = true /\
       boosterTimer g' = BOOSTER_DURATION /\
       plane_position g' = plane_position g /\
       activateBooster g' = (Returned tt, g')).
Proof.
  intros g. split.
  - intros H. unfold activateBooster, bind at 1, get at 1.
    destruct (GameState_eqb (gameState g) flying) eqn:Es; cbn [negb];
      [ | reflexivity].
    apply GameState_eqb_eq in Es.
    destruct (Nat.eqb_spec (upgrades g boosters) 0) as [ | Hn]; [reflexivity | ].
    destruct (Rleb_spec (boosterUsesRemaining g) 0) as [ | Hr]; [reflexivity | ].
    destruct (boosterActive g); [reflexivity | ].
    destruct H as [H | [H | [H | H]]]; [contradiction | contradiction | lra | discriminate].
  - intros Hs Hl Hr Ha.
    destruct (boost_range (upgrades g boosters) Hl) as (b & Eb & Hb).
    destruct forward_unit as (u & Hu & En & Hu2).
    unfold activateBooster at 1, bind at 1, get at 1.
    rewrite Hs, Ha. cbn [negb GameState_eqb].
    destruct (Nat.eqb_spec (upgrades g boosters) 0) as [E0 | _]; [lia | ].
    rewrite (Rleb_false _ _ Hr).
    run. rewrite Eb. cbn.
    eexists. exists b. split; [reflexivity | ]. globals.
    split; [reflexivity | ]. split; [exact Hb | ]. split; [reflexivity | ].
    split; [reflexivity | ].
    rewrite En. unfold multiplyScalar, add. cbn [vx vy vz].
    split.
    { unfold length. cbn [vx vy vz].
      replace (0 * b * (0 * b) + 0.3 * u * b * (0.3 * u * b) + u * b * (u * b))
        with (b * b * (0.3 * u * (0.3 * u) + u * u)) by ring.
      rewrite Hu2, Rmult_1_r. apply sqrt_square. lra. }
    split; [lra | ].
    split; [nra | ]. split; [nra | ].
    split; [reflexivity | ]. split; [reflexivity | ]. split; [reflexivity | ].
    split_ifs; reflexivity.
Qed.

Lemma activateBooster_once_witness :
  exists g' boost,
    activateBooster
      (set_boosterUsesRemaining 1
         (set_upgrades (fun k => if UpgradeKey_eqb k slingshot then 0%nat else 1%nat)
            (set_gameState flying (initialGame []))))
      = (Returned tt, g') /\
    15 <= boost <= 45 /\
    boosterUsesRemaining g' = 1 - 1.
Proof.
  destruct (proj2 (activateBooster_once
              (set_boosterUsesRemaining 1
                 (set_upgrades
                    (fun k => if UpgradeKey_eqb k slingshot then 0%nat else 1%nat)
                    (set_gameState flying (initialGame []))))))
    as (g' & b & E & _ & Hb & Eu & _).
  - reflexivity.
  - cbn. lia.
  - cbn. lra.
  - reflexivity.
  - exists g', b. split; [exact E | split; [exact Hb | exact Eu]].
Defined.

Lemma updateBoosterEffect_inactive (dts : list R) :
  forall g, boosterActive g = false -> burn dts g = g.
Proof.
  induction dts as [ | dt dts IH]; intros g Ha; [reflexivity | ].
  cbn [burn fold_left]. unfold updateBoosterEffect at 2. rewrite Ha. cbn [negb].
  apply IH, Ha.
Qed.

Lemma total_nonneg (dts : list R) :
  Forall (fun dt => 0 <= dt) dts -> 0 <= total dts.
Proof.
  induction 1 as [ | dt dts Hdt _ IH]; cbn; [lra | ].
  unfold total in IH. lra.
Qed.

Lemma total_capped (dts : list R) :
  Forall (fun dt => dt <= 0.1) dts -> total dts <= 0.1 * INR (List.length dts).
Proof.
  induction 1 as [ | dt dts Hdt _ IH]; [cbn; lra | ].
  change (total (dt :: dts)) with (dt + total dts).
  change (List.length (dt :: dts)) with (S (List.length dts)).
  rewrite S_INR. lra.
Qed.

(** X17. The burn of a boost over frames of non-negative durations, from a
    burning boost whose timer is positive: the boost is still burning after
    them exactly when they add up to less than the timer, and then the
    timer has gone down by their sum.  So a burn of BOOSTER_DURATION (0.5 s)
    lasts through four frames at least, the frame time being capped at
    0.1 s. *)
Theorem burn_duration :
  forall (dts : list R) (g : Game),
    Forall (fun dt => 0 <= dt) dts ->
    boosterActive g = true ->
    0 < boosterTimer g ->
    (boosterActive (burn dts g) = true <-> total dts < boosterTimer g) /\
    (boosterActive (burn dts g) = true ->
     boosterTimer (burn dts g) = boosterTimer g - total dts) /\
    (Forall (fun dt => dt <= 0.1) dts -> (List.length dts <= 4)%nat ->
     boosterTimer g = BOOSTER_DURATION ->
     boosterActive (burn dts g) = true).
Proof.
  intros dts g Hpos Ha Ht.
  assert (Hmain : (boosterActive (burn dts g) = true <-> total dts < boosterTimer g) /\
                  (boosterActive (burn dts g) = true ->
                   boosterTimer (burn dts g) = boosterTimer g - total dts)).
  { revert g Ha Ht. induction Hpos as [ | dt dts Hdt Hpos IH]; intros g Ha Ht.
    - cbn. split; [split; [intros _; lra | intros _; exact Ha] | intros _; lra].
    - pose proof (total_nonneg dts Hpos) as Hsum.
      change (total (dt :: dts)) with (dt + total dts).
      change (burn (dt :: dts) g) with (burn dts (updateBoosterEffect dt g)).
      unfold updateBoosterEffect. rewrite Ha. cbn [negb]. globals.
      destruct (Rleb_spec (boosterTimer g - dt) 0) as [Hend | Hon].
      + rewrite updateBoosterEffect_inactive by reflexivity. globals.
        split; [split; [discriminate | lra] | discriminate].
      + apply Rnot_le_lt in Hon.
        destruct (IH (set_boosterTimer (boosterTimer g - dt) g) Ha Hon)
          as [Hiff Htimer].
        globals. split; [rewrite Hiff; lra | ].
        intros H. rewrite (Htimer H). lra. }
  destruct Hmain as [Hiff Htimer].
  split; [exact Hiff | split; [exact Htimer | ]].
  intros Hcap Hlen Et. apply Hiff.
  pose proof (total_capped dts Hcap) as Hle.
  assert (INR (List.length dts) <= 4).
  { replace 4 with (INR 4) by (cbn; lra). apply le_INR, Hlen. }
  rewrite Et. unfold BOOSTER_DURATION. lra.
Qed.

Lemma burn_duration_witness :
  boosterActive
    (burn [0.1; 0.1; 0.1; 0.1]
       (set_boosterTimer BOOSTER_DURATION
          (set_boosterActive true (initialGame [])))) = true.
Proof.
  apply (burn_duration [0.1; 0.1; 0.1; 0.1]
           (set_boosterTimer BOOSTER_DURATION
              (set_boosterActive true (initialGame [])))).
  - repeat constructor; lra.
  - reflexivity.
  - cbn. unfold BOOSTER_DURATION. lra.
  - repeat constructor; lra.
  - cbn. lia.
  - reflexivity.
Defined.
(** ** The flight envelope *)

Lemma updateRotation_position (dt : R) (g : Game) :
  plane_position (updateRotation dt g) = plane_position g /\
  velocity (updateRotation dt g) = velocity g.
Proof. unfold updateRotation. split_ifs; split; reflexivity. Qed.

Lemma updatePosition_x (dt : R) (g : Game) :
  -50 <= vx (plane_position (updatePosition dt g)) <= 50.
Proof. unfold updatePosition. globals. cbn. rcases; lra. Qed.

(** Rewrites with the frame hypotheses of the context. *)
Ltac frames :=
  repeat match goal with
         | H : forall v g, _ = _ |- _ => rewrite H
         end;
  reflexivity.

(** Up to the ground collision, the integration writes the position, the
    rotation, the velocity and the angular velocity only. *)
Lemma motion_frame (dt rnd : R) (g : Game) (A : Type) (f : Game -> A) :
  (forall v g, f (set_velocity v g) = f g) ->
  (forall v g, f (set_angularVelocity v g) = f g) ->
  (forall v g, f (set_plane_position v g) = f g) ->
  (forall v g, f (set_plane_rotation v g) = f g) ->
  f (groundCollision rnd
       (updateRotation dt
          (updatePosition dt
             (applyDrag dt
                (applyLift dt (applyGravity dt (applyControls dt g)))))))
  = f g.
Proof.
  intros Fv Fa Fp Fr.
  assert (F1 : forall g, f (applyControls dt g) = f g).
  { intros g0. unfold applyControls, over_velocity, over_rotation.
    split_ifs; frames. }
  assert (F2 : forall g, f (applyGravity dt g) = f g).
  { intros g0. unfold applyGravity, over_velocity. apply Fv. }
  assert (F3 : forall g, f (applyLift dt g) = f g).
  { intros g0. unfold applyLift, over_velocity. split_ifs; frames. }
  assert (F4 : forall g, f (applyDrag dt g) = f g).
  { intros g0. unfold applyDrag, over_velocity. apply Fv. }
  assert (F5 : forall g, f (updatePosition dt g) = f g).
  { intros g0. unfold updatePosition, over_position. frames. }
  assert (F6 : forall g, f (updateRotation dt g) = f g).
  { intros g0. unfold updateRotation, over_rotation, over_angularVelocity.
    split_ifs; frames. }
  assert (F7 : forall g, f (groundCollision rnd g) = f g).
  { intros g0.
    unfold groundCollision, over_rotation, over_angularVelocity, over_velocity,
      over_position.
    split_ifs; frames. }
  rewrite F7, F6, F5, F4, F3, F2, F1. reflexivity.
Qed.

(** The ground: the plane is never below half its height, and at that
    height it is not moving down. *)
Lemma groundCollision_ground (rnd : R) (g : Game) :
  vx (plane_position (groundCollision rnd g)) = vx (plane_position g) /\
  vz (plane_position (groundCollision rnd g)) = vz (plane_position g) /\
  PLANE_HEIGHT / 2 <= vy (plane_position (groundCollision rnd g)) /\
  (vy (plane_position (groundCollision rnd g)) = PLANE_HEIGHT / 2 ->
   0 <= vy (velocity (groundCollision rnd g))).
Proof.
  unfold groundCollision.
  destruct (Rleb_spec (vy (plane_position g)) (PLANE_HEIGHT / 2)) as [Hc | Hc].
  - globals. cbn [vy set_y].
    destruct (Rltb_spec (vy (velocity g)) (-1)) as [Hhard | Hsoft].
    + destruct (stats wheels _); globals; cbn;
        (split; [reflexivity | split; [reflexivity | split; [lra | ]]]);
        intros _; unfold BOUNCE_DAMPING; lra.
    + destruct (stats wheels _); globals; cbn;
        (split; [reflexivity | split; [reflexivity | split; [lra | ]]]);
        intros _; lra.
  - split; [reflexivity | split; [reflexivity | split; lra]].
Qed.

(** X18. After the integration of a tick, whatever the state before, the
    time step and the random draw: the plane is within 50 of the centre line
    and at least half its height above the ground, and at that height it is
    not moving down; the run distance is its advance from the start of the
    run, never negative; the highest distance of the run is the greater of
    the former one and the plane's position, so it never decreases. *)
Theorem integrate_envelope :
  forall (dt rnd : R) (g : Game),
    let g' := integrate dt rnd g in
    -50 <= vx (plane_position g') <= 50 /\
    PLANE_HEIGHT / 2 <= vy (plane_position g') /\
    (vy (plane_position g') = PLANE_HEIGHT / 2 -> 0 <= vy (velocity g')) /\
    distance g' = Math_max 0 (vz (plane_position g') - startingZ g) /\
    0 <= distance g' /\
    highestDistanceThisRun g'
      = Math_max (highestDistanceThisRun g) (vz (plane_position g')) /\
    highestDistanceThisRun g <= highestDistanceThisRun g'.
Proof.
  intros dt rnd g g'. subst g'. unfold integrate.
  set (g3 := applyDrag dt _).
  set (g5 := updateRotation dt (updatePosition dt g3)).
  destruct (groundCollision_ground rnd g5) as (Ex & Ez & Hy & Hvy).
  set (g6 := groundCollision rnd g5) in *.
  assert (Estart : startingZ g6 = startingZ g).
  { apply (integrate_sameProgress dt rnd g). }
  assert (Ehigh : highestDistanceThisRun g6 = highestDistanceThisRun g).
  { apply (motion_frame dt rnd g _ highestDistanceThisRun); reflexivity. }
  unfold updateDistance. globals.
  split.
  { rewrite Ex. unfold g5. rewrite (proj1 (updateRotation_position _ _)).
    apply updatePosition_x. }
  split; [exact Hy | ]. split; [exact Hvy | ].
  rewrite Estart, Ehigh.
  split; [reflexivity | ]. split; [rcases; lra | ].
  split; [reflexivity | rcases; lra].
Qed.
(** ** Landing *)


Lemma stats_none (k : UpgradeKey) (g : Game) :
  upgrades g k = 0%nat -> stats k g = None.
Proof. intros E. unfold stats. rewrite E. reflexivity. Qed.


(** ** Controls *)

Lemma stats_In (k : UpgradeKey) (g : Game) (t : UpgradeTier) :
  stats k g = Some t -> In t (tiers (UPGRADES k)).
Proof.
  unfold stats. destruct (0 <? upgrades g k)%nat; [ | discriminate].
  apply nth_error_In.
Qed.

Lemma stats_some (k : UpgradeKey) (g : Game) :
  (0 < upgrades g k <= maxTier (UPGRADES k))%nat ->
  exists t, stats k g = Some t.
Proof.
  intros [H1 H2]. unfold stats.
  destruct (Nat.ltb_spec 0 (upgrades g k)) as [_ | ]; [ | lia].
  apply UPGRADES_next_tier. lia.
Qed.

Lemma control_range (w : UpgradeTier) :
  In w (tiers (UPGRADES wings)) -> 0.1 <= effect "control" w <= 0.6.
Proof.
  intros Hin. cbn in Hin.
  repeat (destruct Hin as [<- | Hin]; [unfold effect; cbn; lra | ]).
  contradiction.
Qed.

Lemma pitch_range (t : UpgradeTier) :
  In t (tiers (UPGRADES tail)) -> 0.1 <= effect "pitch" t <= 0.6.
Proof.
  intros Hin. cbn in Hin.
  repeat (destruct Hin as [<- | Hin]; [unfold effect; cbn; lra | ]).
  contradiction.
Qed.

(** X20. The player's controls in one tick.  Left and right push the
    velocity sideways by the lateral control times the time step, 0.5
    without wings and 2.5 to 12.5 with them, and cancel when both are held.
    Up and down act only with both wings and tail: up adds the pitch control
    (1.5 to 9) times the time step to the vertical velocity, down takes half
    of that.  The forward velocity and the position are not touched. *)
Theorem applyControls_axes :
  forall (dt : R) (g : Game),
    let g' := applyControls dt g in
    exists lateral,
      0.5 <= lateral /\
      (upgrades g wings = 0%nat -> lateral = 0.5) /\
      ((0 < upgrades g wings <= maxTier (UPGRADES wings))%nat ->
       2.5 <= lateral <= 12.5) /\
      vx (velocity g')
        = vx (velocity g)
          + (if k_left (keys g) then lateral * dt else 0)
          - (if k_right (keys g) then lateral * dt else 0) /\
      vz (velocity g') = vz (velocity g) /\
      plane_position g' = plane_position g /\
      (upgrades g wings = 0%nat \/ upgrades g tail = 0%nat ->
       vy (velocity g') = vy (velocity g) /\
       vx (plane_rotation g') = vx (plane_rotation g)) /\
      ((0 < upgrades g wings)%nat ->
       (0 < upgrades g tail <= maxTier (UPGRADES tail))%nat ->
       exists pitch,
         1.5 <= pitch <= 9 /\
         vy (velocity g')
           = vy (velocity g)
             + (if k_up (keys g) then pitch * dt else 0)
             - (if k_down (keys g) then pitch * dt * 0.5 else 0)).
Proof.
  intros dt g g'. subst g'. unfold applyControls. cbv zeta.
  set (wingControl := match stats wings g with
                      | Some w => effect "control" w * 20
                      | None => 0
                      end).
  exists (0.5 + wingControl).
  assert (Hw : 0 <= wingControl).
  { unfold wingControl. destruct (stats wings g) as [w | ] eqn:E; [ | lra].
    pose proof (control_range w (stats_In _ _ _ E)). lra. }
  split; [lra | ].
  split.
  { intros E. unfold wingControl. rewrite (stats_none wings g E). lra. }
  split.
  { intros Hl. unfold wingControl. destruct (stats_some wings g Hl) as (w & E).
    rewrite E. pose proof (control_range w (stats_In _ _ _ E)). lra. }
  set (g1 := if k_left (keys g) then _ else g).
  set (g2 := if k_right (keys g1) then _ else g1).
  assert (E1 : keys g1 = keys g /\ upgrades g1 = upgrades g /\
               plane_position g1 = plane_position g /\
               vy (velocity g1) = vy (velocity g) /\
               vz (velocity g1) = vz (velocity g) /\
               vx (plane_rotation g1) = vx (plane_rotation g) /\
               vx (velocity g1)
               = vx (velocity g)
                 + (if k_left (keys g) then (0.5 + wingControl) * dt else 0)).
  { unfold g1. destruct (k_left (keys g)); globals; cbn; repeat split; lra. }
  destruct E1 as (Ek1 & Eu1 & Ep1 & Ey1 & Ez1 & Er1 & Ex1).
  assert (E2 : keys g2 = keys g /\ upgrades g2 = upgrades g /\
               plane_position g2 = plane_position g /\
               vy (velocity g2) = vy (velocity g) /\
               vz (velocity g2) = vz (velocity g) /\
               vx (plane_rotation g2) = vx (plane_rotation g) /\
               vx (velocity g2)
               = vx (velocity g)
                 + (if k_left (keys g) then (0.5 + wingControl) * dt else 0)
                 - (if k_right (keys g) then (0.5 + wingControl) * dt else 0)).
  { unfold g2. rewrite Ek1. destruct (k_right (keys g)); globals; cbn;
      rewrite ?Ex1; repeat split; try assumption; lra. }
  destruct E2 as (Ek2 & Eu2 & Ep2 & Ey2 & Ez2 & Er2 & Ex2).
  assert (Est : stats tail g2 = stats tail g)
    by (unfold stats; rewrite Eu2; reflexivity).
  assert (Ehw : has wings g2 = has wings g) by (unfold has; rewrite Eu2; reflexivity).
  assert (Eht : has tail g2 = has tail g) by (unfold has; rewrite Eu2; reflexivity).
  rewrite Est, Ehw, Eht, Ek2.
  assert (Hpitch :
            forall p,
              let g3 := if k_up (keys g)
                        then over_rotation (map_x (fun x => Math_max (x - dt) (-0.5)))
                               (over_velocity (map_y (fun y => y + p * dt)) g2)
                        else g2 in
              let g4 := if k_down (keys g3)
                        then over_rotation (map_x (fun x => Math_min (x + dt) 0.5))
                               (over_velocity
                                  (map_y (fun y => y - p * dt * 0.5)) g3)
                        else g3 in
              vx (velocity g4) = vx (velocity g2) /\
              vz (velocity g4) = vz (velocity g2) /\
              plane_position g4 = plane_position g2 /\
              vy (velocity g4)
              = vy (velocity g)
                + (if k_up (keys g) then p * dt else 0)
                - (if k_down (keys g) then p * dt * 0.5 else 0)).
  { intros p g3 g4.
    assert (E3 : keys g3 = keys g /\ vx (velocity g3) = vx (velocity g2) /\
                 vz (velocity g3) = vz (velocity g2) /\
                 plane_position g3 = plane_position g2 /\
                 vy (velocity g3)
                 = vy (velocity g) + (if k_up (keys g) then p * dt else 0)).
    { unfold g3. destruct (k_up (keys g)); globals; cbn;
        rewrite ?Ey2; repeat split; try assumption; lra. }
    destruct E3 as (Ek3 & Ex3 & Ez3 & Ep3 & Ey3).
    unfold g4. rewrite Ek3. destruct (k_down (keys g)); globals; cbn;
      rewrite ?Ey3; repeat split; try assumption; lra. }
  assert (Hcases :
            (exists t, stats tail g = Some t /\ has wings g && has tail g = true) \/
            match stats tail g with
            | Some _ => has wings g && has tail g
            | None => false
            end = false).
  { destruct (stats tail g) as [t | ]; [ | right; reflexivity].
    destruct (has wings g && has tail g); [left; exists t; auto | right; reflexivity]. }
  destruct Hcases as [(t & Et & Eboth) | Eno].
  - rewrite Et, Eboth.
    destruct (Hpitch (effect "pitch" t * 15)) as (Ex4 & Ez4 & Ep4 & Ey4).
    cbv zeta in Ex4, Ez4, Ep4, Ey4.
    split; [rewrite Ex4; exact Ex2 | ].
    split; [rewrite Ez4; exact Ez2 | ].
    split; [rewrite Ep4; exact Ep2 | ].
    apply andb_true_iff in Eboth. destruct Eboth as [Ehas_w Ehas_t].
    unfold has in Ehas_w, Ehas_t.
    apply Nat.ltb_lt in Ehas_w. apply Nat.ltb_lt in Ehas_t.
    split; [intros [E | E]; lia | ].
    intros _ _. pose proof (pitch_range t (stats_In _ _ _ Et)) as Hp.
    exists (effect "pitch" t * 15). split; [lra | exact Ey4].
  - assert (Eg : match stats tail g with
                 | Some t =>
                     if has wings g && has tail g
                     then
                       let pitchControl := effect "pitch" t * 15 in
                       let g3 := if k_up (keys g)
                                 then over_rotation
                                        (map_x (fun x => Math_max (x - dt) (-0.5)))
                                        (over_velocity
                                           (map_y (fun y => y + pitchControl * dt)) g2)
                                 else g2 in
                       if k_down (keys g3)
                       then over_rotation (map_x (fun x => Math_min (x + dt) 0.5))
                              (over_velocity
                                 (map_y (fun y => y - pitchControl * dt * 0.5)) g3)
                       else g3
                     else g2
                 | None => g2
                 end = g2).
    { destruct (stats tail g); [rewrite Eno | ]; reflexivity. }
    cbv zeta in Eg. rewrite Eg.
    split; [exact Ex2 | ]. split; [exact Ez2 | ]. split; [exact Ep2 | ].
    split; [intros _; auto | ].
    intros Hwings Htail. exfalso.
    destruct (stats_some tail g Htail) as (t & Et). rewrite Et in Eno.
    unfold has in Eno.
    destruct (Nat.ltb_spec 0 (upgrades g wings)) as [_ | ]; [ | lia].
    destruct (Nat.ltb_spec 0 (upgrades g tail)) as [_ | ]; [ | lia].
    discriminate Eno.
Qed.

(** ** Collision detection *)

(** Two boxes meet exactly when their extents overlap on the three axes. *)
Lemma Rltb_false_iff (x y : R) : (x <? y) = false <-> y <= x.
Proof.
  destruct (Rltb_spec x y); split; intros; try discriminate; try reflexivity; lra.
Qed.

Lemma intersectsBox_spec (a b : Box3) :
  intersectsBox a b = true <->
  (vx (bmin a) <= vx (bmax b) /\ vx (bmin b) <= vx (bmax a)) /\
  (vy (bmin a) <= vy (bmax b) /\ vy (bmin b) <= vy (bmax a)) /\
  (vz (bmin a) <= vz (bmax b) /\ vz (bmin b) <= vz (bmax a)).
Proof.
  unfold intersectsBox.
  rewrite negb_true_iff, !orb_false_iff, !Rltb_false_iff. tauto.
Qed.

(** X21. What [checkObstacleCollisions] finds.  It reports an obstacle
    exactly when some obstacle within 50 along z of the plane has a box that
    meets the plane's box, and then it is the first such obstacle in the
    order they were placed; two boxes meet when their extents overlap on
    the three axes, touching included, whichever box is asked. *)
Theorem firstHit_spec :
  forall (planeBox : Box3) (planeZ : R) (obs : list Obstacle),
    let near o := Math_abs (vz (mesh_position o) - planeZ) <= 50 in
    let hits o := near o /\ intersectsBox planeBox (boundingBox o) = true in
    (forall o,
       firstHit planeBox planeZ obs = Some o <->
       exists before after,
         obs = (before ++ o :: after)%list /\ hits o /\
         forall o', In o' before -> ~ hits o') /\
    (firstHit planeBox planeZ obs = None <-> forall o, In o obs -> ~ hits o) /\
    (forall a b, intersectsBox a b = intersectsBox b a) /\
    (forall a b,
       intersectsBox a b = true <->
       (vx (bmin a) <= vx (bmax b) /\ vx (bmin b) <= vx (bmax a)) /\
       (vy (bmin a) <= vy (bmax b) /\ vy (bmin b) <= vy (bmax a)) /\
       (vz (bmin a) <= vz (bmax b) /\ vz (bmin b) <= vz (bmax a))).
Proof.
  intros planeBox planeZ obs near hits.
  assert (Hstep : forall o rest,
            (hits o /\ firstHit planeBox planeZ (o :: rest) = Some o) \/
            (~ hits o /\
             firstHit planeBox planeZ (o :: rest) = firstHit planeBox planeZ rest)).
  { intros o rest. cbn [firstHit]. unfold hits, near.
    destruct (Rltb_spec 50 (Math_abs (vz (mesh_position o) - planeZ))) as [Hfar | Hnear].
    - right. split; [intros [Hn _]; lra | reflexivity].
    - destruct (intersectsBox planeBox (boundingBox o)) eqn:Ei.
      + left. split; [split; [lra | reflexivity] | reflexivity].
      + right. split; [intros [_ Hi]; discriminate Hi | reflexivity]. }
  split; [ | split; [ | split; [ | apply intersectsBox_spec]]].
  - intros o. induction obs as [ | o1 rest IH].
    + cbn. split; [discriminate | ].
      intros (before & after & E & _). destruct before; discriminate E.
    + destruct (Hstep o1 rest) as [[Hh E] | [Hn E]]; rewrite E.
      * split.
        -- intros Eo. injection Eo as <-. exists [], rest.
           split; [reflexivity | split; [exact Hh | intros o' []]].
        -- intros (before & after & Eobs & Ho & Hbefore).
           destruct before as [ | b before]; cbn in Eobs; injection Eobs as E1 E2.
           ++ subst o. reflexivity.
           ++ subst b. exfalso. apply (Hbefore o1); [left; reflexivity | exact Hh].
      * rewrite IH. split.
        -- intros (before & after & Eobs & Ho & Hbefore).
           exists (o1 :: before), after. split; [rewrite Eobs; reflexivity | ].
           split; [exact Ho | ].
           intros o' [<- | Hin]; [exact Hn | apply Hbefore, Hin].
        -- intros (before & after & Eobs & Ho & Hbefore).
           destruct before as [ | b before]; cbn in Eobs; injection Eobs as E1 E2.
           ++ subst o. contradiction.
           ++ subst b. exists before, after. split; [exact E2 | ].
              split; [exact Ho | ]. intros o' Hin. apply Hbefore. right. exact Hin.
  - induction obs as [ | o1 rest IH].
    + cbn. split; [intros _ o [] | reflexivity].
    + destruct (Hstep o1 rest) as [[Hh E] | [Hn E]]; rewrite E.
      * split; [discriminate | ].
        intros Hall. exfalso. apply (Hall o1); [left; reflexivity | exact Hh].
      * rewrite IH. split.
        -- intros Hall o [<- | Hin]; [exact Hn | apply Hall, Hin].
        -- intros Hall o Hin. apply Hall. right. exact Hin.
  - intros a b. apply Bool.eq_iff_eq_true. rewrite !intersectsBox_spec.
    split; intros ((A & B) & (C & D) & (E & F)); repeat split; assumption.
Qed.

(** ** The continue button *)

(** X22. The continue button.  [resetGame] brings the game back to ready,
    with the slingshot and the run's start at the start of the selected
    checkpoint, the plane at rest on the slingshot, and the run distance and
    the pull at 0; it leaves the coins, the levels, the checkpoints, the
    store, the booster charges and the launch angle parameter as they are;
    and doing it twice is doing it once. *)
Theorem resetGame_ready :
  forall g : Game,
    let g' := resetGame g in
    gameState g' = ready /\
    distance g' = 0 /\ highestDistanceThisRun g' = 0 /\ pullDistance g' = 0 /\
    startingZ g' = zone_start (ZONES (currentCheckpoint g)) /\
    slingshotPosition g'
      = set_z (zone_start (ZONES (currentCheckpoint g))) (slingshotPosition g) /\
    plane_position g'
      = vec3 (vx (slingshotPosition g)) (slingshotHeight - 0.5)
          (zone_start (ZONES (currentCheckpoint g))) /\
    plane_rotation g' = vec3 0 0 0 /\
    velocity g' = vec3 0 0 0 /\
    angularVelocity g' = vec3 0 0 0 /\
    coins g' = coins g /\ upgrades g' = upgrades g /\
    checkpoints g' = checkpoints g /\
    currentCheckpoint g' = currentCheckpoint g /\
    localStorage g' = localStorage g /\ log g' = log g /\
    boosterUsesRemaining g' = boosterUsesRemaining g /\
    launchAngle g' = launchAngle g /\
    resetGame g' = g'.
Proof.
  intros g g'. subst g'.
  cbv [resetGame resetPlanePosition getCheckpointStartPosition
       gameState coins distance boosterUsesRemaining upgrades checkpoints
       currentCheckpoint highestDistanceThisRun startingZ keys plane_position
       plane_rotation boosterActive boosterTimer obstacles velocity
       angularVelocity isDragging pullDistance launchAngle pullStart
       pullCurrent slingshotPosition lastTime localStorage log
       set_gameState set_distance set_highestDistanceThisRun set_startingZ
       set_slingshotPosition set_plane_position set_pullDistance
       set_plane_rotation set_velocity set_angularVelocity
       set_z vx vy vz].
  match goal with
  | |- context [match ?c with runway => _ | _ => _ end] => destruct c
  end; repeat split.
Qed.
(** ** The upgrade menu *)

Lemma filled_pips (level n : nat) :
  forall start,
    List.length (filter (fun b : bool => b)
                   (map (fun i => (i <? level)%nat) (seq start n)))
    = Nat.min (level - start) n.
Proof.
  induction n as [ | n IH]; intros start.
  - cbn. lia.
  - cbn [seq map filter].
    destruct (Nat.ltb_spec start level) as [Hlt | Hge];
      cbn [List.length]; rewrite IH; lia.
Qed.

Lemma requiresMet_spec (g : Game) (key : UpgradeKey) :
  match requires (UPGRADES key) with
  | None => true
  | Some required => (0 <? upgrades g required)%nat
  end = false <-> requiresUnmet key g.
Proof.
  unfold requiresUnmet. destruct (requires (UPGRADES key)) as [r | ].
  - destruct (Nat.ltb_spec 0 (upgrades g r)) as [Hpos | Hz].
    + split; [discriminate | ]. intros (r' & E & H0). injection E as <-. lia.
    + split; [ | reflexivity]. intros _. exists r. split; [reflexivity | lia].
  - split; [discriminate | ]. intros (r' & E & _). discriminate E.
Qed.

(** X23. The upgrade menu and the purchase agree.  There is a card per
    upgrade, with a pip per tier, filled for the tiers owned.  A button that
    is disabled (at the last tier, with a requirement unmet, or too
    expensive) is one whose purchase would change nothing; a button that is
    enabled reads BUY, its card shows the cost of the next tier, and its
    purchase adds one level and leaves as balance the double nearest to the
    coins less that cost: exactly the coins less that cost up to 2^53. *)
Theorem renderUpgradeMenu_purchase :
  forall (g : Game) (key : UpgradeKey),
    let card := renderCard g key in
    map data_upgrade (renderUpgradeMenu g) = upgradeOrder /\
    In card (renderUpgradeMenu g) /\
    List.length (tierPips card) = maxTier (UPGRADES key) /\
    List.length (filter (fun b : bool => b) (tierPips card))
      = Nat.min (upgrades g key) (maxTier (UPGRADES key)) /\
    (disabled card = true -> purchaseUpgrade key g = (Returned tt, g)) /\
    (disabled card = false ->
     exists price,
       cost_amount card = CostCoins (Some price) /\
       button card = "BUY" /\
       In key (buyButtons g) /\
       coins (snd (purchaseUpgrade key g)) = round64 (coins g - price) /\
       ((coins g <= 2 ^ 53)%Z ->
        coins (snd (purchaseUpgrade key g)) = (coins g - price)%Z) /\
       upgrades (snd (purchaseUpgrade key g)) key = S (upgrades g key)) /\
    (button card = "MAXED" <-> (maxTier (UPGRADES key) <= upgrades g key)%nat) /\
    (button card = "LOCKED" <->
     (upgrades g key < maxTier (UPGRADES key))%nat /\ requiresUnmet key g).
Proof.
  intros g key card.
  assert (Hin : In card (renderUpgradeMenu g)).
  { unfold renderUpgradeMenu, card. apply in_map. destruct key; cbn; auto 10. }
  split; [reflexivity | ]. split; [exact Hin | ].
  split; [unfold card, renderCard; cbn [tierPips]; rewrite length_map, length_seq;
          reflexivity | ].
  split; [unfold card, renderCard; cbn [tierPips]; rewrite filled_pips; lia | ].
  assert (Hbuy : disabled card = false -> In key (buyButtons g)).
  { intros Hd. unfold buyButtons.
    change key with (data_upgrade card). apply in_map.
    apply filter_In. split; [exact Hin | rewrite Hd; reflexivity]. }
  assert (Hmaxed : (maxTier (UPGRADES key) <= upgrades g key)%nat ->
            purchaseUpgrade key g = (Returned tt, g)).
  { intros Hmax. unfold purchaseUpgrade, bind, get.
    destruct (Nat.leb_spec (maxTier (UPGRADES key)) (upgrades g key)); [reflexivity | lia]. }
  revert Hbuy. unfold card, renderCard. cbv zeta.
  cbn [disabled cost_amount button].
  pose proof (requiresMet_spec g key) as Hreq.
  destruct (Nat.leb_spec (maxTier (UPGRADES key)) (upgrades g key)) as [Hmax | Hlt].
  { cbn [orb]. intros _.
    split; [intros _; apply Hmaxed, Hmax | ]. split; [discriminate | ].
    split; [split; [intros _; exact Hmax | reflexivity] | ].
    split; [discriminate | intros [Hlt _]; lia]. }
  destruct (UPGRADES_next_tier key (upgrades g key) Hlt) as (next & En).
  rewrite En. cbn [orb option_map].
  destruct (match requires (UPGRADES key) with
            | None => true
            | Some required => (0 <? upgrades g required)%nat
            end) eqn:Emet; cbn [negb orb].
  - assert (Hunmet : ~ requiresUnmet key g).
    { intros Hu. apply Hreq in Hu. discriminate Hu. }
    destruct (Z.leb_spec (cost next) (coins g)) as [Hcan | Hcannot]; cbn [negb].
    + intros Hbuy.
      split; [discriminate | ].
      split.
      * intros _. exists (cost next).
        split; [reflexivity | ]. split; [reflexivity | ].
        split; [apply Hbuy; reflexivity | ].
        rewrite (purchaseUpgrade_bought key g next En Hlt Hcan).
        -- set (g1 := set_upgrades _ _).
           destruct (saveProgress_frame g1) as (_ & Ec & _ & Eu & _).
           rewrite Ec, Eu. unfold g1. globals.
           split; [reflexivity | split; [ | apply increment_self]].
           intros Hsmall. apply round64_purchase; [ | exact Hsmall].
           pose proof (UPGRADES_cost_pos key _ next En). lia.
        -- intros r Er E0. apply Hunmet. exists r. split; assumption.
      * split; [split; [discriminate | intros Hmax; lia] | ].
        split; [discriminate | intros [_ Hu]; contradiction].
    + intros _.
      split.
      * intros _. apply purchaseUpgrade_blocked. left.
        exists (cost next). unfold nextCost. rewrite En. split; [reflexivity | lia].
      * split; [discriminate | ].
        split; [split; [discriminate | intros Hmax; lia] | ].
        split; [discriminate | intros [_ Hu]; contradiction].
  - assert (Hunmet : requiresUnmet key g) by (apply Hreq; reflexivity).
    intros _.
    split; [intros _; apply purchaseUpgrade_blocked; right; left; exact Hunmet | ].
    split; [discriminate | ].
    split; [split; [discriminate | intros Hmax; lia] | ].
    split; [intros _; split; assumption | reflexivity].
Qed.
(** ** The plane's upgrade meshes *)

(** Which meshes [updatePlaneVisuals] adds, for any levels. *)
Lemma updatePlaneVisuals_In (g : Game) :
  (forall s, In (WingsMesh s) (updatePlaneVisuals g) <->
             (0 < upgrades g wings)%nat /\ s = 1 + INR (upgrades g wings) * 0.2) /\
  (In Stabilizer (updatePlaneVisuals g) <-> (0 < upgrades g tail)%nat) /\
  (forall p, In (Wheel p) (updatePlaneVisuals g) -> (0 < upgrades g wheels)%nat) /\
  (In LeftBooster (updatePlaneVisuals g) <->
   (0 < upgrades g boosters)%nat /\ (0 < upgrades g wings)%nat) /\
  (In RightBooster (updatePlaneVisuals g) <->
   (0 < upgrades g boosters)%nat /\ (0 < upgrades g wings)%nat) /\
  (In Rocket (updatePlaneVisuals g) <->
   (0 < upgrades g boosters)%nat /\ (10 <= upgrades g boosters)%nat) /\
  (List.length (updatePlaneVisuals g) <= 8)%nat.
Proof.
  unfold updatePlaneVisuals.
  destruct (Nat.ltb_spec 0 (upgrades g wings)) as [Hw | Hw];
    destruct (Nat.ltb_spec 0 (upgrades g tail)) as [Ht | Ht];
    destruct (Nat.ltb_spec 0 (upgrades g wheels)) as [Hwh | Hwh];
    destruct (Nat.ltb_spec 0 (upgrades g boosters)) as [Hb | Hb];
    try destruct (Nat.leb_spec 10 (upgrades g boosters)) as [Hr | Hr];
    cbn [app In List.length];
    repeat split; intros;
    repeat match goal with
           | H : _ \/ _ |- _ => destruct H
           | H : _ /\ _ |- _ => destruct H
           | H : False |- _ => contradiction
           | H : WingsMesh _ = WingsMesh _ |- _ => injection H as <-
           | H : @eq Part _ _ |- _ => discriminate H
           end;
    subst; try reflexivity; try lia; auto 10.
Qed.

Section Visuals.

Variable planeBounds : Vector3 -> Vector3 -> (UpgradeKey -> nat) -> Box3.

(** X24. Whatever the player does from the start of the game with an empty
    store, the meshes [updatePlaneVisuals] puts on the plane are: the wings
    exactly when wings are owned, of half-span 1 + 0.2 per level, so 1.2 to
    3; both wing jets exactly when boosters are owned (boosters require
    wings, so the jets are never left out); the rear rocket exactly at level
    10 of the boosters; a stabilizer, wheels or jets only on a plane that
    shows wings; at most eight meshes. *)
Theorem updatePlaneVisuals_parts :
  forall (obs : list Obstacle) (events : list Event),
    let g := play planeBounds events (initialGame obs) in
    let parts := updatePlaneVisuals g in
    ((exists s, In (WingsMesh s) parts) <-> (0 < upgrades g wings)%nat) /\
    (forall s, In (WingsMesh s) parts ->
               s = 1 + INR (upgrades g wings) * 0.2 /\ 1.2 <= s <= 3) /\
    (In LeftBooster parts <-> (0 < upgrades g boosters)%nat) /\
    (In RightBooster parts <-> (0 < upgrades g boosters)%nat) /\
    (In Rocket parts <-> upgrades g boosters = 10%nat) /\
    (In Stabilizer parts \/ (exists p, In (Wheel p) parts) \/ In LeftBooster parts ->
     exists s, In (WingsMesh s) parts) /\
    (List.length parts <= 8)%nat.
Proof.
  intros obs events g parts.
  destruct (Consistent_initialGame obs) as [C0 R0].
  destruct (play_Inv planeBounds events _ (Inv_initialGame obs)) as (H & _).
  destruct (play_Consistent planeBounds events _ (Inv_initialGame obs) C0 R0)
    as (C & _).
  fold g in H, C.
  pose proof (inv_levels g H wings) as Lw.
  pose proof (inv_levels g H boosters) as Lb.
  change (maxTier (UPGRADES wings)) with 10%nat in Lw.
  change (maxTier (UPGRADES boosters)) with 10%nat in Lb.
  pose proof (con_requires g C tail wings eq_refl) as Rt.
  pose proof (con_requires g C wheels wings eq_refl) as Rw.
  pose proof (con_requires g C boosters wings eq_refl) as Rb.
  assert (Hspan : (0 < upgrades g wings)%nat ->
            1.2 <= 1 + INR (upgrades g wings) * 0.2 <= 3).
  { intros Hpos.
    assert (1 <= INR (upgrades g wings)).
    { replace 1 with (INR 1) by reflexivity. apply le_INR. lia. }
    assert (INR (upgrades g wings) <= 10).
    { replace 10 with (INR 10) by (cbn; lra). apply le_INR. lia. }
    lra. }
  destruct (updatePlaneVisuals_In g) as (Pw & Pt & Pwh & Pl & Pr & Pk & Plen).
  fold parts in Pw, Pt, Pwh, Pl, Pr, Pk, Plen.
  assert (Hwings : (0 < upgrades g wings)%nat -> exists s, In (WingsMesh s) parts).
  { intros Hpos. eexists. apply Pw. split; [exact Hpos | reflexivity]. }
  split; [split; [intros (s & Hs); apply Pw in Hs; tauto | exact Hwings] | ].
  split; [intros s Hs; apply Pw in Hs; destruct Hs as [Hpos ->];
          split; [reflexivity | apply Hspan, Hpos] | ].
  split; [rewrite Pl; split; [tauto | auto] | ].
  split; [rewrite Pr; split; [tauto | auto] | ].
  split; [rewrite Pk; split; [lia | lia] | ].
  split; [ | exact Plen].
  intros [Hs | [(p & Hs) | Hs]]; apply Hwings.
  - apply Pt in Hs. auto.
  - apply Pwh in Hs. auto.
  - apply Pl in Hs. tauto.
Qed.

End Visuals.

(** ** The first version of the game *)

Lemma bare_controls (dt : R) (g : Game) :
  keys g = {| k_left := false; k_right := false; k_up := false;
              k_down := false; k_boost := k_boost (keys g) |} ->
  upgrades g tail = 0%nat ->
  applyControls dt g = g.
Proof.
  intros Hk Ht. unfold applyControls. cbv zeta.
  assert (Kl : k_left (keys g) = false) by (rewrite Hk; reflexivity).
  assert (Kr : k_right (keys g) = false) by (rewrite Hk; reflexivity).
  rewrite Kl. cbv iota. rewrite Kr. cbv iota.
  rewrite (stats_none tail g Ht). reflexivity.
Qed.

Lemma bare_lift (dt : R) (g : Game) :
  upgrades g wings = 0%nat -> applyLift dt g = g.
Proof. intros Hw. unfold applyLift. rewrite (stats_none wings g Hw). reflexivity. Qed.

Lemma set_velocity_same (g : Game) : set_velocity (velocity g) g = g.
Proof. destruct g. reflexivity. Qed.

Lemma bare_drag (dt : R) (g : Game) :
  upgrades g aerodynamic = 0%nat ->
  applyDrag dt g = Simplified.applyDrag dt g.
Proof.
  intros Ha. unfold applyDrag, Simplified.applyDrag, over_velocity, dragStep,
    dragFactor.
  rewrite (stats_none aerodynamic g Ha). cbv zeta.
  destruct (0 <? length (velocity g)); [ | apply set_velocity_same].
  f_equal. f_equal. lra.
Qed.

Lemma clamp_inside (x : R) :
  -50 <= x <= 50 -> Math_max (-50) (Math_min 50 x) = x.
Proof. intros Hx. rcases; lra. Qed.

Lemma bare_position (dt : R) (g : Game) :
  vx (velocity g) = 0 ->
  -50 <= vx (plane_position g) <= 50 ->
  updatePosition dt g = Simplified.updatePosition dt g.
Proof.
  intros Hv Hx. unfold updatePosition, Simplified.updatePosition.
  unfold over_position at 1. globals.
  set (p := add (plane_position g) (multiplyScalar (velocity g) dt)).
  assert (Ep : map_x (fun x => Math_max (-50) (Math_min 50 x)) p = p).
  { unfold p, map_x, set_x, add, multiplyScalar. cbn [vx vy vz]. f_equal.
    apply clamp_inside. rewrite Hv. lra. }
  rewrite Ep. unfold over_position. destruct g. reflexivity.
Qed.

Lemma bare_rotation (dt : R) (g : Game) :
  upgrades g wings = 0%nat ->
  updateRotation dt g = Simplified.updateRotation dt g.
Proof.
  intros Hw. unfold updateRotation, has. rewrite Hw. reflexivity.
Qed.

Lemma bare_ground (rnd : R) (g : Game) :
  upgrades g wheels = 0%nat ->
  groundCollision rnd g = Simplified.groundCollision rnd g.
Proof.
  intros Hw. unfold groundCollision, Simplified.groundCollision.
  repeat match goal with
         | |- context [stats wheels ?g0] => rewrite (stats_none wheels g0 Hw)
         end.
  reflexivity.
Qed.
(** X25. The full game refines its first version on a bare plane: without
    upgrades, with no arrow key held, on a run from the runway, on the
    centre line and not moving sideways, the integration of a tick gives
    the state the first version's integration gives, apart from the highest
    distance of the run, which the first version does not have; and the
    plane is then again such a plane, so this holds tick after tick. *)
Theorem bare_plane_as_first_version :
  forall (dt rnd : R) (g : Game),
    barePlane g ->
    integrate dt rnd g
    = set_highestDistanceThisRun
        (Math_max (highestDistanceThisRun g)
           (vz (plane_position (Simplified.integrate dt rnd g))))
        (Simplified.integrate dt rnd g) /\
    barePlane (integrate dt rnd g).
Proof.
  intros dt rnd g (Hu & Hk & Hs & Hv & Hx).
  assert (E : integrate dt rnd g
              = set_highestDistanceThisRun
                  (Math_max (highestDistanceThisRun g)
                     (vz (plane_position (Simplified.integrate dt rnd g))))
                  (Simplified.integrate dt rnd g) /\
              vx (velocity (integrate dt rnd g)) = 0 /\
              vx (plane_position (integrate dt rnd g)) = vx (plane_position g)).
  { unfold integrate, Simplified.integrate.
    rewrite (bare_controls dt g Hk (Hu tail)).
    rewrite (bare_lift dt (applyGravity dt g) (Hu wings)).
    rewrite (bare_drag dt (applyGravity dt g) (Hu aerodynamic)).
    set (g4 := Simplified.applyDrag dt (applyGravity dt g)).
    assert (F4 : upgrades g4 = upgrades g /\ startingZ g4 = startingZ g /\
                 highestDistanceThisRun g4 = highestDistanceThisRun g /\
                 plane_position g4 = plane_position g /\
                 vx (velocity g4) = 0).
    { unfold g4, Simplified.applyDrag, applyGravity. cbv zeta.
      destruct (0 <? _); globals; cbn; rewrite Hv; repeat split; lra. }
    destruct F4 as (Eu4 & Es4 & Eh4 & Ep4 & Ev4).
    rewrite (bare_position dt g4 Ev4) by (rewrite Ep4; exact Hx).
    set (g5 := Simplified.updatePosition dt g4).
    assert (F5 : upgrades g5 = upgrades g /\ startingZ g5 = startingZ g /\
                 highestDistanceThisRun g5 = highestDistanceThisRun g /\
                 vx (plane_position g5) = vx (plane_position g) /\
                 vx (velocity g5) = 0).
    { unfold g5, Simplified.updatePosition. globals. cbn.
      rewrite Ep4, Ev4. repeat split; try assumption. lra. }
    destruct F5 as (Eu5 & Es5 & Eh5 & Ep5 & Ev5).
    rewrite (bare_rotation dt g5) by (rewrite Eu5; apply Hu).
    set (g6 := Simplified.updateRotation dt g5).
    assert (F6 : upgrades g6 = upgrades g /\ startingZ g6 = startingZ g /\
                 highestDistanceThisRun g6 = highestDistanceThisRun g /\
                 vx (plane_position g6) = vx (plane_position g) /\
                 vx (velocity g6) = 0).
    { unfold g6, Simplified.updateRotation. globals. auto. }
    destruct F6 as (Eu6 & Es6 & Eh6 & Ep6 & Ev6).
    rewrite (bare_ground rnd g6) by (rewrite Eu6; apply Hu).
    set (g7 := Simplified.groundCollision rnd g6).
    assert (F7 : startingZ g7 = startingZ g /\
                 highestDistanceThisRun g7 = highestDistanceThisRun g /\
                 vx (plane_position g7) = vx (plane_position g) /\
                 vx (velocity g7) = 0).
    { unfold g7, Simplified.groundCollision.
      destruct (vy (plane_position g6) <=? PLANE_HEIGHT / 2); [ | auto].
      globals. destruct (vy (velocity g6) <? -1); globals; cbn; auto. }
    destruct F7 as (Es7 & Eh7 & Ep7 & Ev7).
    unfold updateDistance, Simplified.updateDistance. globals.
    rewrite Es7, Hs, Eh7, Rminus_0_r.
    split; [reflexivity | split; assumption]. }
  destruct E as (E & Ev & Ep).
  split; [exact E | ].
  destruct (integrate_sameProgress dt rnd g) as (_ & _ & Eu & _ & _ & Ez & _).
  destruct (integrate_sameSettings dt rnd g) as (_ & _ & _ & _ & Ek & _).
  split; [intros k; rewrite Eu; apply Hu | ].
  split; [rewrite Ek; exact Hk | ].
  split; [rewrite Ez; exact Hs | ].
  split; [exact Ev | rewrite Ep; exact Hx].
Qed.

Lemma bare_plane_as_first_version_witness :
  integrate (1 / 50) 0 (rollingAt 50 [])
  = set_highestDistanceThisRun
      (Math_max (highestDistanceThisRun (rollingAt 50 []))
         (vz (plane_position (Simplified.integrate (1 / 50) 0 (rollingAt 50 [])))))
      (Simplified.integrate (1 / 50) 0 (rollingAt 50 [])).
Proof.
  apply (bare_plane_as_first_version (1 / 50) 0 (rollingAt 50 [])).
  repeat split; cbn; lra.
Defined.
Lemma Simplified_saveProgress_readable (g : Game) :
  readable (localStorage g) = true ->
  exists saved,
    getSavedHighestDistance g = (Returned saved, g) /\
    Simplified.saveProgress g
    = (Returned tt,
       set_log (SetItem (JSON (Simplified.saveData g
                                 (ofNumber (maxWithSaved (distance g) saved))))
                  :: log g)
         (set_localStorage
            (Some (JSON (Simplified.saveData g
                           (ofNumber (maxWithSaved (distance g) saved))))) g)).
Proof.
  intros Hr. destruct (getSavedHighestDistance_readable g Hr) as (saved & E).
  exists saved. split; [exact E | ].
  unfold Simplified.saveProgress, bind at 1, get at 1. unfold bind at 1.
  rewrite E. reflexivity.
Qed.

(** X26. The two versions read each other's saves.  A save of the first
    version (coins, highest distance, all levels 0, no checkpoints) loads in
    the full game as those coins, no upgrade and the runway alone unlocked;
    a save of the full game loads in the first version as its coins.  And
    the first version keeps the stored highest distance as the full game
    does: the greater of the run distance and what was stored. *)
Theorem saves_are_compatible :
  forall g : Game,
    readable (localStorage g) = true ->
    (exists g',
       Simplified.saveProgress g = (Returned tt, g') /\
       loadProgress (localStorage g') defaultProgress
       = (Returned tt,
          {| pp_coins := JNum (IZR (coins g));
             pp_upgrades := pp_upgrades defaultProgress;
             pp_checkpoints := pp_checkpoints defaultProgress |}) /\
       (localStorage g = None ->
        storedHighestDistance (localStorage g') = Some (Rmax (distance g) 0)) /\
       (forall h, storedHighestDistance (localStorage g) = Some h ->
          storedHighestDistance (localStorage g') = Some (Rmax (distance g) h))) /\
    (exists g',
       saveProgress g = (Returned tt, g') /\
       forall c,
         Simplified.loadProgress (localStorage g') c
         = (Returned tt, JNum (IZR (coins g)))).
Proof.
  intros g Hr. split.
  - destruct (Simplified_saveProgress_readable g Hr) as (saved & Eg & E).
    eexists. split; [exact E | ]. globals.
    split; [cbn; rewrite orElse_coins; reflexivity | ].
    split.
    + intros Hn. revert Eg. unfold getSavedHighestDistance, bind, get.
      rewrite Hn. cbn. intros Eg. injection Eg as <-. reflexivity.
    + intros h Hh. revert Eg. unfold getSavedHighestDistance, bind, get.
      unfold storedHighestDistance in Hh.
      destruct (localStorage g) as [[t | [ | | | | | | fs]] | ]; try discriminate Hh.
      cbn. unfold orElse.
      destruct (lookup "highestDistance" fs) as [[ | | | x | | | ] | ];
        try discriminate Hh.
      injection Hh as ->. cbn.
      destruct (Reqb_spec h 0) as [-> | _]; cbn; intros Eg; injection Eg as <-;
        reflexivity.
  - destruct (saveProgress_readable g Hr) as (saved & E).
    eexists. split; [exact E | ]. intros c.
    unfold afterSave. globals. cbn. rewrite orElse_coins. reflexivity.
Qed.

Lemma saves_are_compatible_witness :
  exists g',
    Simplified.saveProgress (set_coins 120 (initialGame [])) = (Returned tt, g') /\
    loadProgress (localStorage g') defaultProgress
    = (Returned tt,
       {| pp_coins := JNum (IZR 120);
          pp_upgrades := pp_upgrades defaultProgress;
          pp_checkpoints := pp_checkpoints defaultProgress |}).
Proof.
  destruct (saves_are_compatible (set_coins 120 (initialGame [])) eq_refl)
    as ((g' & E & L & _) & _).
  exists g'. split; [exact E | exact L].
Defined.

(** The first version's [onMouseMove], from a state in which a drag is in
    progress. *)
Lemma Simplified_onMouseMove_pulling (x y : R) (g : Game) :
  isDragging g = true -> gameState g = pulling ->
  pullDistance (Simplified.onMouseMove x y g)
  = Math_min MAX_PULL_DISTANCE (Math_max 0 ((y - y2 (pullStart g)) / 50)) /\
  isDragging (Simplified.onMouseMove x y g) = true /\
  gameState (Simplified.onMouseMove x y g) = pulling /\
  velocity (Simplified.onMouseMove x y g) = velocity g /\
  plane_position (Simplified.onMouseMove x y g)
  = vec3 (vx (plane_position g))
      (slingshotHeight
       - Math_min MAX_PULL_DISTANCE (Math_max 0 ((y - y2 (pullStart g)) / 50)) * 0.3)
      (vz (slingshotPosition g)
       - Math_min MAX_PULL_DISTANCE (Math_max 0 ((y - y2 (pullStart g)) / 50))).
Proof.
  intros Ed Es. unfold Simplified.onMouseMove. rewrite Ed, Es.
  cbn [negb orb GameState_eqb]. cbv zeta.
  cbv [over_position set_pullCurrent set_pullDistance set_plane_position
       gameState coins distance boosterUsesRemaining upgrades checkpoints
       currentCheckpoint highestDistanceThisRun startingZ keys plane_position
       plane_rotation boosterActive boosterTimer obstacles velocity
       angularVelocity isDragging pullDistance launchAngle pullStart
       pullCurrent slingshotPosition lastTime localStorage log
       set_y set_z vx vy vz x2 y2].
  repeat split; assumption.
Qed.

(** X27. The slingshot gesture of the first version, from a ready game:
    the pull is the pointer's way down in pixels over 50, between 0 and
    MAX_PULL_DISTANCE, whatever its way sideways.  Released less than 25
    pixels down, nothing is launched and the game is ready again.  Released
    25 pixels down or more, the plane is launched from where it was pulled
    to, at 20 degrees, at 8 times the pull: between 4 and 80, with no
    minimum power. *)
Theorem first_version_gesture :
  forall (x0 y0 x1 y1 rnd1 rnd2 : R) (g : Game),
    gameState g = ready ->
    let pulled := Simplified.onMouseMove x1 y1 (onMouseDown x0 y0 g) in
    let released := Simplified.onMouseUp rnd1 rnd2 pulled in
    pullDistance pulled
      = Math_min MAX_PULL_DISTANCE (Math_max 0 ((y1 - y0) / 50)) /\
    plane_position pulled
      = vec3 (vx (plane_position g))
          (slingshotHeight
           - Math_min MAX_PULL_DISTANCE (Math_max 0 ((y1 - y0) / 50)) * 0.3)
          (vz (slingshotPosition g)
           - Math_min MAX_PULL_DISTANCE (Math_max 0 ((y1 - y0) / 50))) /\
    (y1 - y0 < 25 ->
     gameState released = ready /\ pullDistance released = 0 /\
     velocity released = velocity g) /\
    (25 <= y1 - y0 ->
     gameState released = flying /\
     velocity released
       = vec3 0
           (sin Simplified.LAUNCH_ANGLE * (pullDistance pulled * LAUNCH_POWER_MULTIPLIER))
           (cos Simplified.LAUNCH_ANGLE * (pullDistance pulled * LAUNCH_POWER_MULTIPLIER)) /\
     length (velocity released) = pullDistance pulled * LAUNCH_POWER_MULTIPLIER /\
     4 <= length (velocity released) <= 80 /\
     plane_position released = plane_position pulled).
Proof.
  intros x0 y0 x1 y1 rnd1 rnd2 g Hready pulled released.
  assert (Hdown : onMouseDown x0 y0 g
                  = set_pullCurrent (vec2 x0 y0)
                      (set_pullStart (vec2 x0 y0)
                         (set_gameState pulling (set_isDragging true g)))).
  { unfold onMouseDown. rewrite Hready. reflexivity. }
  destruct (Simplified_onMouseMove_pulling x1 y1 (onMouseDown x0 y0 g))
    as (Epull & Ed & Es & Ev & Epos);
    [rewrite Hdown; reflexivity | rewrite Hdown; reflexivity | ].
  fold pulled in Epull, Ed, Es, Ev, Epos.
  assert (E0 : y2 (pullStart (onMouseDown x0 y0 g)) = y0 /\
               velocity (onMouseDown x0 y0 g) = velocity g /\
               plane_position (onMouseDown x0 y0 g) = plane_position g /\
               slingshotPosition (onMouseDown x0 y0 g) = slingshotPosition g)
    by (rewrite Hdown; repeat split).
  destruct E0 as (E1 & E2 & E3 & E4).
  rewrite E1 in Epull, Epos. rewrite E2 in Ev. rewrite E3, E4 in Epos.
  clear Hdown E1 E2 E3 E4. clearbody pulled.
  set (pull := Math_min MAX_PULL_DISTANCE (Math_max 0 ((y1 - y0) / 50))) in *.
  assert (Hpull : 0 <= pull <= MAX_PULL_DISTANCE) by apply pull_range.
  split; [exact Epull | ].
  split; [exact Epos | ].
  assert (Hr : released
               = if pull <? MIN_PULL_DISTANCE
                 then set_gameState ready
                        (resetPlanePosition (set_isDragging false pulled))
                 else Simplified.launch rnd1 rnd2 (set_isDragging false pulled)).
  { unfold released, Simplified.onMouseUp. rewrite Ed, Es.
    cbn [negb orb GameState_eqb]. cbv zeta.
    change (pullDistance (set_isDragging false pulled)) with (pullDistance pulled).
    rewrite Epull. reflexivity. }
  clearbody released. subst released.
  split.
  - intros Hlt.
    rewrite Rltb_true
      by (unfold pull, MIN_PULL_DISTANCE, MAX_PULL_DISTANCE; rcases; lra).
    split; [reflexivity | ]. split; [reflexivity | exact Ev].
  - intros Hge.
    assert (Hmin : MIN_PULL_DISTANCE <= pull)
      by (unfold pull, MIN_PULL_DISTANCE, MAX_PULL_DISTANCE; rcases; lra).
    rewrite (Rltb_false _ _ Hmin).
    unfold Simplified.launch. cbv zeta.
    cbn [gameState pullDistance velocity plane_position set_gameState
         set_velocity set_angularVelocity set_isDragging].
    rewrite Epull.
    assert (Hpow : 4 <= pull * LAUNCH_POWER_MULTIPLIER <= 80)
      by (unfold MIN_PULL_DISTANCE, MAX_PULL_DISTANCE, LAUNCH_POWER_MULTIPLIER in *;
          lra).
    rewrite length_polar by lra.
    split; [reflexivity | ]. split; [reflexivity | ].
    split; [reflexivity | ]. split; [exact Hpow | reflexivity].
Qed.

Lemma first_version_gesture_witness :
  pullDistance (Simplified.onMouseMove 400 500 (onMouseDown 400 300 (initialGame [])))
  = Math_min MAX_PULL_DISTANCE (Math_max 0 ((500 - 300) / 50)).
Proof.
  exact (proj1 (first_version_gesture 400 300 400 500 0.5 0.5 (initialGame [])
                  eq_refl)).
Defined.

(** ** Placing the obstacles *)

(** A loop of [createObstacles] places within its bounds. *)
Lemma scatter_Forall (D : Type) (body : D -> R -> Placement) (Q : Placement -> Prop)
  (stop step spread : R) (draws : list (D * R)) :
  0 <= step -> 0 <= spread ->
  forall (z0 z : R) (l : list Placement),
    z0 <= z ->
    Forall (fun dr => 0 <= snd dr /\
                      forall z', z0 <= z' < stop -> Q (body (fst dr) z')) draws ->
    scatter body draws z stop step spread = Some l ->
    Forall Q l.
Proof.
  intros Hstep Hspread z0.
  induction draws as [ | [d r] rest IH]; intros z l Hz Hd E; cbn [scatter] in E.
  - destruct (z <? stop); [discriminate E | ]. injection E as <-. constructor.
  - destruct (Rltb_spec z stop) as [Hlt | _];
      [ | injection E as <-; constructor].
    inversion Hd as [ | ? ? [Hr Hq] Hrest]; subst. cbn [fst snd] in *.
    destruct (scatter body rest (z + (step + r * spread)) stop step spread)
      as [l' | ] eqn:E'; [ | discriminate E].
    injection E as <-. constructor.
    + apply Hq. lra.
    + apply (IH (z + (step + r * spread)) l'); [ | exact Hrest | exact E'].
      assert (0 <= r * spread) by (apply Rmult_le_pos; assumption). lra.
Qed.

(** A loop of [createObstacles] ends within the iterations its step
    allows, when it has draws for them. *)
Lemma scatter_Some (D : Type) (body : D -> R -> Placement)
  (stop step spread : R) (draws : list (D * R)) :
  0 < step -> 0 <= spread ->
  Forall (fun dr => 0 <= snd dr) draws ->
  forall (n : nat) (z : R),
    stop - z <= step * INR n ->
    (n <= List.length draws)%nat ->
    exists l,
      scatter body draws z stop step spread = Some l /\
      (List.length l <= n)%nat.
Proof.
  intros Hstep Hspread Hd.
  induction Hd as [ | [d r] rest Hr Hrest IH]; intros n z Hz Hn; cbn [scatter].
  - cbn in Hn. assert (n = 0%nat) by lia. subst n. cbn in Hz.
    rewrite Rltb_false by lra. exists []. split; [reflexivity | cbn; lia].
  - destruct (Rltb_spec z stop) as [Hlt | _];
      [ | exists []; split; [reflexivity | cbn; lia]].
    cbn [snd] in Hr.
    destruct n as [ | n]; [cbn in Hz; lra | ].
    destruct (IH n (z + (step + r * spread))) as (l' & -> & Hlen).
    + rewrite S_INR in Hz.
      assert (0 <= r * spread) by (apply Rmult_le_pos; assumption). lra.
    + cbn in Hn. lia.
    + exists (body d z :: l'). split; [reflexivity | cbn; lia].
Qed.

(** A loop of [createObstacles] with enough draws: it ends, and every
    placement is as its body makes it within the bounds of the loop. *)
Lemma scatter_placed (D : Type) (body : D -> R -> Placement)
  (P : D * R -> Prop) (Q : Placement -> Prop)
  (start stop step spread : R) (n : nat) (draws : list (D * R)) :
  0 < step -> 0 <= spread ->
  stop - start <= step * INR n ->
  (n <= List.length draws)%nat ->
  Forall P draws ->
  (forall d r z, P (d, r) -> 0 <= r /\ (start <= z < stop -> Q (body d z))) ->
  exists l,
    scatter body draws start stop step spread = Some l /\
    Forall Q l /\ (List.length l <= n)%nat.
Proof.
  intros Hstep Hspread Hn Hlen Hd HP.
  destruct (scatter_Some D body stop step spread draws Hstep Hspread) with
    (n := n) (z := start) as (l & E & Hl); try assumption.
  { revert Hd. apply Forall_impl. intros [d r] Hdr. apply (HP d r 0 Hdr). }
  exists l. split; [exact E | split; [ | exact Hl]].
  apply (scatter_Forall D body Q stop step spread draws) with (z0 := start) (z := start);
    try lra; try exact E.
  revert Hd. apply Forall_impl. intros [d r] Hdr. cbn [fst snd].
  split; [apply (HP d r 0 Hdr) | intros z' Hz'; apply (HP d r z' Hdr), Hz'].
Qed.

Lemma side_abs (side a : R) :
  0 <= a -> Math_abs ((if 0.5 <? side then 1 else -1) * a) = a.
Proof.
  intros Ha. unfold Math_abs, Rabs.
  destruct (0.5 <? side); destruct (Rcase_abs _); lra.
Qed.

Lemma orElseNone_Some (A : Type) (Q : A -> Prop) (a b : option (list A))
  (n m : nat) :
  (exists l, a = Some l /\ Forall Q l /\ (List.length l <= n)%nat) ->
  (exists l, b = Some l /\ Forall Q l /\ (List.length l <= m)%nat) ->
  exists l, orElseNone a b = Some l /\ Forall Q l /\ (List.length l <= n + m)%nat.
Proof.
  intros (l & -> & Hl & Hn) (l' & -> & Hl' & Hm).
  exists (l ++ l')%list. split; [reflexivity | ].
  split; [apply Forall_app; split; assumption | rewrite length_app; lia].
Qed.

(** X28. Where [createObstacles] puts the obstacles, whatever the values of
    [Math.random()]: every loop ends, after at most 516 obstacles in all;
    nothing is placed before z = 20 nor at or beyond z = 6000, nor farther
    than 50 from the centre line; every kind stays in the band of its zone;
    the buildings stand 15 to 35 to the side and leave the 5 in the middle
    free. *)
Theorem createObstacles_placement :
  forall d : Draws,
    unitDraws d -> enoughDraws d ->
    exists l,
      createObstacles d = Some l /\
      Forall wellPlaced l /\
      Forall (fun p =>
                match p with
                | Person x z | Vehicle x z _ _ _ | Building x z _ _ _
                | Cactus x z | Rock x z | Tree x z | Elk x z =>
                    20 <= z < 6000 /\ -50 <= x <= 50
                end) l /\
      (List.length l <= 516)%nat.
Proof.
  intros d (Hw & Hv & Hb & Hs & Hc & Hr & Ht & He) (Nb & Ns & Nc & Nr & Nt & Ne).
  assert (Hrunway : exists l,
            Some (createRunwayObstacles d) = Some l /\
            Forall wellPlaced l /\ (List.length l <= 8)%nat).
  { eexists. split; [reflexivity | ]. split; [ | cbn; lia].
    unfold createRunwayObstacles. apply Forall_app. split; apply Forall_map.
    - apply Forall_forall. intros i _. destruct (Hw i) as [[H1 H2] [H3 H4]].
      destruct (workers d i) as [rx rz]. cbn [fst snd] in *. cbn. lra.
    - apply Forall_forall. intros i _. destruct (Hv i) as [[H1 H2] [H3 H4]].
      destruct (vehicles d i) as [[side rx] rz]. cbn [fst snd] in *. cbn.
      destruct (0.5 <? side); lra. }
  assert (Hcity : exists l,
            createCityObstacles d = Some l /\
            Forall wellPlaced l /\ (List.length l <= 22 + 60)%nat).
  { unfold createCityObstacles. apply orElseNone_Some.
    - eapply scatter_placed with (n := 22%nat); try eassumption; try lra.
      + cbn. lra.
      + intros [[[[side rx] rh] rw] rd] r z (H1 & H2 & H3 & H4 & H5).
        unfold drawn in *. split; [lra | ]. intros Hz. cbn.
        rewrite side_abs by lra. lra.
    - eapply scatter_placed with (n := 60%nat); try eassumption; try lra.
      + cbn. lra.
      + intros [rx kind] r z (H1 & H2).
        unfold drawn in *. split; [lra | ]. intros Hz.
        destruct (0.5 <? kind); cbn; lra. }
  assert (Hdesert : exists l,
            createDesertObstacles d = Some l /\
            Forall wellPlaced l /\ (List.length l <= 98 + 19)%nat).
  { unfold createDesertObstacles. apply orElseNone_Some.
    - eapply scatter_placed with (n := 98%nat); try eassumption; try lra.
      + cbn. lra.
      + intros rx r z (H1 & H2). unfold drawn in *. split; [lra | ].
        intros Hz. cbn. lra.
    - eapply scatter_placed with (n := 19%nat); try eassumption; try lra.
      + cbn. lra.
      + intros rx r z (H1 & H2). unfold drawn in *. split; [lra | ].
        intros Hz. cbn. lra. }
  assert (Hforest : exists l,
            createForestObstacles d = Some l /\
            Forall wellPlaced l /\ (List.length l <= 295 + 14)%nat).
  { unfold createForestObstacles. apply orElseNone_Some.
    - eapply scatter_placed with (n := 295%nat); try eassumption; try lra.
      + rewrite INR_IZR_INZ. cbn. lra.
      + intros rx r z (H1 & H2). unfold drawn in *. split; [lra | ].
        intros Hz. cbn. lra.
    - eapply scatter_placed with (n := 14%nat); try eassumption; try lra.
      + cbn. lra.
      + intros rx r z (H1 & H2). unfold drawn in *. split; [lra | ].
        intros Hz. cbn. lra. }
  destruct (orElseNone_Some _ wellPlaced _ _ _ _ Hrunway
              (orElseNone_Some _ wellPlaced _ _ _ _ Hcity
                 (orElseNone_Some _ wellPlaced _ _ _ _ Hdesert Hforest)))
    as (l & E & Hl & Hlen).
  exists l. split; [exact E | ]. split; [exact Hl | ]. split; [ | lia].
  revert Hl. apply Forall_impl. intros p Hp.
  destruct p; cbn in Hp; try lra.
  destruct Hp as (Hz & Hx & _). split; [lra | ].
  unfold Math_abs, Rabs in Hx. destruct (Rcase_abs x); lra.
Qed.
Lemma createObstacles_placement_witness :
  exists l, createObstacles evenDraws = Some l /\ (List.length l <= 516)%nat.
Proof.
  destruct (createObstacles_placement evenDraws) as (l & E & _ & _ & Hlen).
  - unfold unitDraws, evenDraws, drawn. cbn [workers vehicles buildings street
      cacti rocks trees elks fst snd].
    repeat split; try lra;
      apply Forall_forall; intros x Hx; apply repeat_spec in Hx; subst x;
      repeat split; lra.
  - unfold enoughDraws, evenDraws. cbn [buildings street cacti rocks trees elks].
    rewrite !repeat_length. lia.
  - exists l. split; [exact E | exact Hlen].
Defined.

(** ** Gravity and lift *)



(** ** The catalogue *)

(** X30. The catalogue of upgrades: every upgrade has ten tiers, each
    costing more than the one before; wings and slingshot require nothing,
    the others require wings; from a tier to the next, lift, control,
    stability, pitch, drag reduction, power, uses and boost do not decrease
    and the friction factor does not increase; and tier n of the boosters
    gives n uses. *)
Theorem UPGRADES_catalogue :
  forall k : UpgradeKey,
    maxTier (UPGRADES k) = 10%nat /\
    List.length (tiers (UPGRADES k)) = 10%nat /\
    (requires (UPGRADES k)
     = if UpgradeKey_eqb k wings || UpgradeKey_eqb k slingshot
       then None else Some wings) /\
    (forall t, In t (tiers (UPGRADES k)) -> (0 < cost t)%Z) /\
    (forall i t t',
       nth_error (tiers (UPGRADES k)) i = Some t ->
       nth_error (tiers (UPGRADES k)) (S i) = Some t' ->
       (cost t < cost t')%Z /\
       (forall stat,
          In stat ["lift"; "control"; "stability"; "pitch"; "dragReduction";
                   "power"; "uses"; "boost"] ->
          effect stat t <= effect stat t') /\
       effect "friction" t' <= effect "friction" t) /\
    (forall n, (0 < n <= 10)%nat -> tierStat boosters n "uses" = Returned (INR n)).
Proof.
  intros k.
  split; [destruct k; reflexivity | ].
  split; [destruct k; reflexivity | ].
  split; [destruct k; reflexivity | ].
  split.
  { intros t Hin. destruct k; cbn in Hin;
      repeat (destruct Hin as [<- | Hin]; [cbn; lia | ]); contradiction. }
  split; [ | apply boosters_uses].
  intros i t t' Ht Ht'.
  destruct k;
    do 10 (destruct i as [ | i];
           [cbn in Ht, Ht'; try discriminate Ht';
            injection Ht as <-; injection Ht' as <-;
            (split; [cbn; lia | ]);
            (split; [intros stat Hs; cbn in Hs;
                     repeat (destruct Hs as [<- | Hs];
                             [unfold effect; cbn; lra | ]);
                     contradiction
                    | unfold effect; cbn; lra]) | ]);
    cbn in Ht; destruct i; discriminate Ht.
Qed.
